(** * zmes-parser: a shallow embedding of the parser core

    The development follows the TypeScript sources:
    - [decodeBlob.ts]        : the .NET BinaryFormatter [System.Double[]] decoder,
    - [readParameterTree.ts] : the parameter tree builder,
    - [readParameterData.ts] : the value extractor,
    - [findParameter.ts]     : shallow and deep search by name,
    - [toMeasurementXY.ts]   : the projection to MeasurementXY.

    JavaScript numbers that are used as indices, lengths, identifiers and
    data-type codes are integers and are modelled in [Z]; bytes are
    [Byte.byte]; a [Float64Array] is a list of IEEE-754 binary64 values
    ([spec_float]).  An integer of an INTEGER column of the database arrives
    as a number when it is a safe integer and as a BigInt otherwise; the
    model says which of the two it is where the code computes with the value
    (the comparator of [sortChildren]) or returns it ([extractValue]).  A
    JavaScript [Map] that is only read is a [gmap]; a [Map] that is iterated
    carries its insertion order next to the [gmap]; an object filled by
    assignments is the [gmap] of its own properties. *)

From Stdlib Require Import ZArith Lia Floats.SpecFloat Sorting.Sorted.
From Stdlib Require Init.Byte Strings.Byte.
From stdpp Require Import base option list list_numbers sorting gmap strings.

Set Warnings "-register-all,-clear-no-such-hyp".
Local Open Scope Z_scope.

(** ** Outcomes of a call

    A call returns a value or throws.  [Stuck] is the outcome of the model of
    a traversal of the object graph that ran out of steps or followed a
    reference to no object; the theorems below show that it never occurs. *)

Inductive JsError : Type :=
  | RangeError
  | TypeError
  | UnknownTypeError (parameterTypeId nodeId : Z)
  | NoRootError (rootParameterTypeId : Z).

Inductive outcome (A : Type) : Type :=
  | Return (a : A)
  | Throw (e : JsError)
  | Stuck.

Arguments Return {A} a.
Arguments Throw {A} e.
Arguments Stuck {A}.

Definition outcome_bind {A B} (f : A → outcome B) (m : outcome A) : outcome B :=
  match m with
  | Return a => f a
  | Throw e => Throw e
  | Stuck => Stuck
  end.

#[global] Instance outcome_mbind : MBind outcome := @outcome_bind.
#[global] Instance outcome_mret : MRet outcome := @Return.
#[global] Instance outcome_fmap : FMap outcome :=
  λ A B f m, outcome_bind (λ a, Return (f a)) m.

(** [mapO f l] runs [f] on the elements of [l] from left to right and stops
    at the first one that does not return: a [for ... of] loop whose body
    pushes [f x] to a result array. *)
Section mapO.
Context {A B : Type} (f : A → outcome B).

Fixpoint mapO (l : list A) : outcome (list B) :=
  match l with
  | [] => Return []
  | x :: l' =>
      match f x with
      | Return y =>
          match mapO l' with
          | Return ys => Return (y :: ys)
          | Throw e => Throw e
          | Stuck => Stuck
          end
      | Throw e => Throw e
      | Stuck => Stuck
      end
  end.

End mapO.

(** ** decodeBlob.ts *)

Module DecodeBlob.

Import Stdlib.Init.Byte.

(** [const ENTRY_MARKER = new Uint8Array([0x06, 0x01, 0x01, 0x01, 0x02, 0x01])] *)
Definition ENTRY_MARKER : list byte := [x06; x01; x01; x01; x02; x01].

(** [const ENTRY_SIZE = 14] *)
Definition ENTRY_SIZE : Z := 14.

#[global] Instance byte_eq_decision : EqDecision byte := Byte.byte_eq_dec.

Definition byteLength (blob : list byte) : Z := Z.of_nat (length blob).

(** [blob[i]] on a typed array: [undefined] outside [0 .. byteLength - 1]. *)
Definition byteAt (blob : list byte) (i : Z) : option byte :=
  if decide (0 ≤ i) then blob !! Z.to_nat i else None.

(** The inner loop of [findMarker]: [j] runs over the marker, and the first
    position with [blob[i + j] !== ENTRY_MARKER[j]] clears [match] and leaves
    the loop. *)
Fixpoint matchMarker (blob : list byte) (i j : Z) (marker : list byte) : bool :=
  match marker with
  | [] => true
  | m :: marker' =>
      if decide (byteAt blob (i + j) = Some m)
      then matchMarker blob i (j + 1) marker'
      else false
  end.

(** The outer loop of [findMarker] from index [i], with [n] iterations left
    before [i] exceeds [end]. *)
Fixpoint findMarker_from (n : nat) (blob : list byte) (i : Z) : Z :=
  match n with
  | O => -1
  | S n' =>
      if matchMarker blob i 0 ENTRY_MARKER then i
      else findMarker_from n' blob (i + 1)
  end.

Definition findMarker (blob : list byte) : Z :=
  let end_ := byteLength blob - Z.of_nat (length ENTRY_MARKER) in
  findMarker_from (Z.to_nat (end_ + 1)) blob 0.

(** The unsigned integer whose little-endian bytes are [bs]. *)
Fixpoint le_bits (bs : list byte) : Z :=
  match bs with
  | [] => 0
  | b :: bs' => Z.of_N (Byte.to_N b) + 256 * le_bits bs'
  end.

(** The IEEE-754 binary64 value of a 64-bit pattern: sign bit 63, biased
    exponent in bits 52..62, fraction in bits 0..51. *)
Definition float64_of_bits (b : Z) : spec_float :=
  let sign := Z.testbit b 63 in
  let e := Z.land (Z.shiftr b 52) 2047 in
  let m := Z.land b (2 ^ 52 - 1) in
  if decide (e = 0) then
    if decide (m = 0) then S754_zero sign
    else S754_finite sign (Z.to_pos m) (-1074)
  else if decide (e = 2047) then
    if decide (m = 0) then S754_infinity sign else S754_nan
  else S754_finite sign (Z.to_pos (m + 2 ^ 52)) (e - 1075).

(** The eight bytes that [getFloat64(off, true)] reads. *)
Definition float64_bytes (view : list byte) (off : Z) : list byte :=
  take 8 (drop (Z.to_nat off) view).

(** [dataView.getFloat64(off, true)]: a [RangeError] when the eight bytes
    from [off] do not lie inside the view. *)
Definition getFloat64 (view : list byte) (off : Z) : outcome spec_float :=
  if decide (0 ≤ off ∧ off + 8 ≤ byteLength view)
  then Return (float64_of_bits (le_bits (float64_bytes view off)))
  else Throw RangeError.

(** [new Float64Array(count)] throws a [RangeError] on a negative length;
    the loop then fills the elements in index order. *)
Definition decodeBlob (blob : list byte) : outcome (list spec_float) :=
  let markerOffset := findMarker blob in
  if decide (markerOffset = -1) then Return []
  else
    let remainingBytes := byteLength blob - markerOffset in
    let count := remainingBytes `div` ENTRY_SIZE in
    if decide (count < 0) then Throw RangeError
    else
      mapO (λ i, getFloat64 blob (markerOffset + i * ENTRY_SIZE + 6))
           (seqZ 0 count).

(** The marker occurs in [blob] at offset [i]. *)
Definition marker_at (blob : list byte) (i : Z) : Prop :=
  0 ≤ i ∧ take 6 (drop (Z.to_nat i) blob) = ENTRY_MARKER.

(** The doubles at [off + i * 14 + 6] for [i] from [0] up to
    [floor ((byteLength - off) / 14)], [off] being the offset of the marker. *)
Definition entries (blob : list byte) (off : Z) : list spec_float :=
  (λ i, float64_of_bits (le_bits (float64_bytes blob (off + i * ENTRY_SIZE + 6))))
    <$> seqZ 0 ((byteLength blob - off) `div` ENTRY_SIZE).

End DecodeBlob.

(** ** readParameterTree.ts *)

Module ReadParameterTree.

(** A row of RecordParameterTypes.  [urn] and [friendlyName] are declared
    [string]; [convertNode] guards both with [?? ''], so a NULL column is
    kept as [None]. *)
Record ParameterType : Type := {
  pt_id : Z;
  pt_guid : string;
  pt_urn : option string;
  pt_friendlyName : option string;
  pt_dataType : Z;
  pt_description : option string;
  pt_dataUnitsUrn : option string;
}.

(** A row of RecordParameterTreeNodes as the SELECT delivers it.  The
    columns are INTEGER columns; a field holds the integer of the column,
    whatever JavaScript value carries it (see [columnInteger]).  Ids are only
    compared and used as keys of a [Map], where two values are the same
    exactly when the integers are. *)
Record RawNode : Type := {
  id : Z;
  parameterTypeId : Z;
  parentNodeId : option Z;
  siblingIndex : Z;
}.

(** [Number.MAX_SAFE_INTEGER] *)
Definition MAX_SAFE_INTEGER : Z := 2 ^ 53 - 1.

Definition isSafeInteger (z : Z) : Prop := - MAX_SAFE_INTEGER ≤ z ≤ MAX_SAFE_INTEGER.

#[global] Instance isSafeInteger_dec z : Decision (isSafeInteger z).
Proof. unfold isSafeInteger. apply _. Defined.

(** An integer-valued number or a BigInt. *)
Inductive Numeric : Type :=
  | JsNumber (z : Z)
  | JsBigInt (z : Z).

(** The value that the query hands over for the integer [z] of a column: a
    number when [z] is a safe integer, a BigInt otherwise. *)
Definition columnInteger (z : Z) : Numeric :=
  if decide (isSafeInteger z) then JsNumber z else JsBigInt z.

(** [a - b]: a number for two numbers, a BigInt for two BigInts, and a
    TypeError for one of each.  The difference of two safe integers is
    rounded to a number of the same sign; [toSorted] looks at the sign
    only, and the model keeps the difference itself. *)
Definition subtract (a b : Numeric) : outcome Numeric :=
  match a, b with
  | JsNumber x, JsNumber y => Return (JsNumber (x - y))
  | JsBigInt x, JsBigInt y => Return (JsBigInt (x - y))
  | _, _ => Throw TypeError
  end.

(** [ToNumber], which [toSorted] applies to what the comparator returns: a
    BigInt is a TypeError. *)
Definition toNumber (v : Numeric) : outcome Z :=
  match v with
  | JsNumber z => Return z
  | JsBigInt _ => Throw TypeError
  end.

(** [TreeNode]: [{ ...rawNode, parameterType, children }], once the tree is
    assembled. *)
Inductive TreeNode : Type :=
  mkTreeNode {
    tn_raw : RawNode;
    tn_parameterType : ParameterType;
    tn_children : list TreeNode;
  }.

(** A [TreeNode] object while the tree is assembled.  Its [children] array
    holds references to other objects of [nodeMap]; [nodeMap] has one object
    per key and the key is the object's [id], so a reference is the child's
    row. *)
Record Cell : Type := {
  cell_raw : RawNode;
  cell_parameterType : ParameterType;
  cell_children : list RawNode;
}.

(** [Map<number, TreeNode>]: iteration follows the order in which the keys
    were first set. *)
Record NodeMap : Type := {
  nm_keys : list Z;
  nm_cells : gmap Z Cell;
}.

Definition nodeMap_empty : NodeMap := {| nm_keys := []; nm_cells := ∅ |}.

(** [nodeMap.set(key, cell)]: a key that is present keeps its position. *)
Definition nodeMap_set (key : Z) (cell : Cell) (nodeMap : NodeMap) : NodeMap :=
  {| nm_keys := match nm_cells nodeMap !! key with
                | Some _ => nm_keys nodeMap
                | None => nm_keys nodeMap ++ [key]
                end;
     nm_cells := <[key := cell]> (nm_cells nodeMap) |}.

(** [nodeMap.values()] *)
Definition nodeMap_values (nodeMap : NodeMap) : list Cell :=
  omap (λ key, nm_cells nodeMap !! key) (nm_keys nodeMap).

(** [loadParameterTypes]: [types.set(parameterType.id, parameterType)] for
    every row. *)
Definition loadParameterTypes (rows : list ParameterType) : gmap Z ParameterType :=
  foldl (λ types parameterType, <[pt_id parameterType := parameterType]> types) ∅ rows.

(** The first loop of [buildParameterTree]: index all nodes by id. *)
Fixpoint indexNodes (parameterTypes : gmap Z ParameterType) (rows : list RawNode)
    (nodeMap : NodeMap) : outcome NodeMap :=
  match rows with
  | [] => Return nodeMap
  | rawNode :: rows' =>
      match parameterTypes !! parameterTypeId rawNode with
      | None => Throw (UnknownTypeError (parameterTypeId rawNode) (id rawNode))
      | Some parameterType =>
          indexNodes parameterTypes rows'
            (nodeMap_set (id rawNode)
               {| cell_raw := rawNode;
                  cell_parameterType := parameterType;
                  cell_children := [] |}
               nodeMap)
      end
  end.

(** [parent.children.push(node)] *)
Definition pushChild (node : RawNode) (parent : Cell) : Cell :=
  {| cell_raw := cell_raw parent;
     cell_parameterType := cell_parameterType parent;
     cell_children := cell_children parent ++ [node] |}.

(** The body of the second loop: [root] and the objects of [nodeMap] after
    [node] has been visited. *)
Definition linkNode (st : option RawNode * gmap Z Cell) (node : RawNode)
    : option RawNode * gmap Z Cell :=
  match parentNodeId node with
  | None => (Some node, st.2)
  | Some parentId =>
      match st.2 !! parentId with
      | Some parent => (st.1, <[parentId := pushChild node parent]> st.2)
      | None => st
      end
  end.

(** The second loop: [for (const node of nodeMap.values())]. *)
Definition linkNodes (nodeMap : NodeMap) : option RawNode * gmap Z Cell :=
  foldl linkNode (None, nm_cells nodeMap) (cell_raw <$> nodeMap_values nodeMap).

(** [(a, b) => a.siblingIndex - b.siblingIndex] *)
Definition compareSiblings (a b : RawNode) : outcome Numeric :=
  subtract (columnInteger (siblingIndex a)) (columnInteger (siblingIndex b)).

(** [Array.prototype.toSorted] is a stable sort: an element is placed before
    the first element of the sorted rest that it does not exceed, so elements
    that compare equal keep their order.  Every comparison calls the
    comparator and converts what it returns to a number; an array of fewer
    than two elements is copied without a comparison. *)
Fixpoint insertSorted {A} (compare : A → A → outcome Numeric) (x : A) (l : list A)
    : outcome (list A) :=
  match l with
  | [] => Return [x]
  | y :: l' =>
      v ← compare x y ≫= toNumber;
      if decide (v ≤ 0) then Return (x :: y :: l')
      else cons y <$> insertSorted compare x l'
  end.

Fixpoint toSorted {A} (compare : A → A → outcome Numeric) (l : list A)
    : outcome (list A) :=
  match l with
  | [] => Return []
  | x :: l' => sorted ← toSorted compare l'; insertSorted compare x sorted
  end.

(** [sortChildren(node)] replaces [node.children] by its sorted copy and
    visits every child; the value is the tree that hangs below [node]
    afterwards.  [fuel] bounds the depth of the recursion. *)
Fixpoint sortChildren (fuel : nat) (cells : gmap Z Cell) (node : RawNode)
    : outcome TreeNode :=
  match fuel with
  | O => Stuck
  | S fuel' =>
      match cells !! id node with
      | None => Stuck
      | Some cell =>
          sorted ← toSorted compareSiblings (cell_children cell);
          children ← mapO (sortChildren fuel' cells) sorted;
          Return {| tn_raw := cell_raw cell;
                    tn_parameterType := cell_parameterType cell;
                    tn_children := children |}
      end
  end.

(** What [buildParameterTree] reads from the database: the rows of
    RecordParameterTypes and, for a root parameter type id, the rows that
    the SELECT on RecordParameterTreeNodes returns, in the order it returns
    them. *)
Record TreeSource : Type := {
  db_parameterTypes : list ParameterType;
  db_treeNodes : Z → list RawNode;
}.

Definition buildParameterTree (database : TreeSource) (rootParameterTypeId : Z)
    : outcome TreeNode :=
  let parameterTypes := loadParameterTypes (db_parameterTypes database) in
  let rows := db_treeNodes database rootParameterTypeId in
  nodeMap ← indexNodes parameterTypes rows nodeMap_empty;
  let '(root, cells) := linkNodes nodeMap in
  match root with
  | None => Throw (NoRootError rootParameterTypeId)
  | Some root => sortChildren (length (nm_keys nodeMap)) cells root
  end.

(** The rows of the nodes of a tree in pre-order: the node, then the
    subtree of each child in the order of [children]. *)
Fixpoint nodesOf (node : TreeNode) : list RawNode :=
  tn_raw node :: flat_map nodesOf (tn_children node).

(** The sibling indices of the children of [node], in the order of
    [children]. *)
Definition childIndices (node : TreeNode) : list Z :=
  (λ child, siblingIndex (tn_raw child)) <$> tn_children node.

(** At [node] and at every node below it, each child stands in relation [R]
    to all the children after it, by sibling index. *)
Fixpoint childrenOrdered (R : relation Z) (node : TreeNode) : Prop :=
  StronglySorted R (childIndices node)
  ∧ (fix all (nodes : list TreeNode) : Prop :=
       match nodes with
       | [] => True
       | child :: nodes' => childrenOrdered R child ∧ all nodes'
       end) (tn_children node).

(** [d] is the node [o] or lies below it: following parent ids from [d]
    through [rows] arrives at [o]. *)
Inductive under (rows : list RawNode) (o : Z) : Z → Prop :=
  | under_self : under rows o o
  | under_child d p :
      d ∈ rows → parentNodeId d = Some p → under rows o p → under rows o (id d).

(** The rows form a single tree with one node without parent: the ids are
    distinct, one row has no parent id, and following parent ids from any
    row arrives at that row. *)
Definition singleTree (rows : list RawNode) : Prop :=
  NoDup (id <$> rows)
  ∧ ∃ root, root ∈ rows ∧ parentNodeId root = None
            ∧ (∀ r, r ∈ rows → parentNodeId r = None → r = root)
            ∧ (∀ r, r ∈ rows → under rows (id root) (id r)).

(** The rows without parent id, in row order. *)
Definition nullParentRows (rows : list RawNode) : list RawNode :=
  filter (λ r, parentNodeId r = None) rows.

End ReadParameterTree.

(** ** types.ts *)

Module Types.

(** A JavaScript number. *)
Definition number : Type := spec_float.

(** [boolean | number | string | Float64Array], the declared type of
    [value], and a BigInt: [extractValue] returns an integer column as the
    query delivers it, and an integer that is not a safe integer is
    delivered as a BigInt. *)
Inductive Value : Type :=
  | VBoolean (b : bool)
  | VNumber (n : number)
  | VBigInt (z : Z)
  | VString (s : string)
  | VFloat64Array (data : list number).

(** [ZmesParameter]: [value] and [children] are optional fields. *)
Inductive ZmesParameter : Type :=
  mkZmesParameter {
    name : string;
    urn : string;
    value : option Value;
    children : option (list ZmesParameter);
  }.

Record ZmesGroup : Type := {
  group_id : Z;
  group_guid : string;
  group_name : option string;
}.

Record ZmesRecord : Type := {
  record_id : Z;
  guid : string;
  group : ZmesGroup;
  createdDateTime : string;
  modifiedDateTime : string;
  parameters : ZmesParameter;
}.

Record ZmesFile : Type := {
  schemaVersion : Z;
  metadata : gmap string string;
  records : list ZmesRecord;
}.

End Types.

(** ** readParameterData.ts *)

Module ReadParameterData.

Import ReadParameterTree Types.

Definition DATA_TYPE_NONE : Z := 0.
Definition DATA_TYPE_INT32_SINGLE : Z := 1.
Definition DATA_TYPE_INT32 : Z := 2.
Definition DATA_TYPE_DOUBLE : Z := 4.
Definition DATA_TYPE_SINGLE : Z := 5.
Definition DATA_TYPE_BOOLEAN : Z := 6.
Definition DATA_TYPE_INT64_SINGLE : Z := 7.
Definition DATA_TYPE_INT64 : Z := 9.
Definition DATA_TYPE_GUID : Z := 16.
Definition DATA_TYPE_TEXT : Z := 17.
Definition DATA_TYPE_DICTIONARY_KEYS : Z := 32.
Definition DATA_TYPE_DICTIONARY : Z := 36.
Definition DATA_TYPE_GUID_LIST : Z := 42.
Definition DATA_TYPE_DATE_TIME : Z := 48.
Definition DATA_TYPE_DURATION : Z := 50.
Definition DATA_TYPE_BLOB_ARRAY : Z := 70.

(** The data type codes that [extractValue] has a [case] for. *)
Definition DATA_TYPES : list Z :=
  [DATA_TYPE_NONE; DATA_TYPE_INT32_SINGLE; DATA_TYPE_INT32; DATA_TYPE_DOUBLE;
   DATA_TYPE_SINGLE; DATA_TYPE_BOOLEAN; DATA_TYPE_INT64_SINGLE; DATA_TYPE_INT64;
   DATA_TYPE_GUID; DATA_TYPE_TEXT; DATA_TYPE_DICTIONARY_KEYS; DATA_TYPE_DICTIONARY;
   DATA_TYPE_GUID_LIST; DATA_TYPE_DATE_TIME; DATA_TYPE_DURATION;
   DATA_TYPE_BLOB_ARRAY].

(** What the query delivers for an INTEGER data column: a number, or a
    BigInt for an integer that is not a safe integer. *)
Inductive IntegerColumn : Type :=
  | ColumnNumber (n : number)
  | ColumnBigInt (z : Z).

(** The column as a value: [extractValue] returns it as it is. *)
Definition integerValue (column : IntegerColumn) : Value :=
  match column with
  | ColumnNumber n => VNumber n
  | ColumnBigInt z => VBigInt z
  end.

(** [RawDataRow]: every data column is nullable. *)
Record RawDataRow : Type := {
  parameterTreeNodeId : Z;
  row_parameterTypeId : Z;
  dataBlob : option (list Byte.byte);
  dataBoolean : option number;
  dataDouble : option number;
  dataInt32 : option IntegerColumn;
  dataInt64 : option IntegerColumn;
  dataSingle : option number;
  dataText : option string;
}.

(** [n !== 0] on numbers: both zeros are equal to [0], a NaN is not. *)
Definition number_nonzero (n : number) : bool :=
  match n with
  | S754_zero _ => false
  | _ => true
  end.

(** [a ?? b] *)
Definition nullish {A} (a b : option A) : option A :=
  match a with
  | Some x => Some x
  | None => b
  end.

Infix "??" := nullish (at level 45, right associativity).

(** [extractValue]: the [switch] on the data type, [None] for [undefined]. *)
Definition extractValue (dataType : Z) (row : RawDataRow) : outcome (option Value) :=
  if decide (dataType = DATA_TYPE_NONE ∨ dataType = DATA_TYPE_DICTIONARY) then
    Return None
  else if decide (dataType = DATA_TYPE_INT32_SINGLE ∨ dataType = DATA_TYPE_INT32) then
    Return (integerValue <$> (dataInt32 row ?? None))
  else if decide (dataType = DATA_TYPE_DOUBLE ∨ dataType = DATA_TYPE_SINGLE
                  ∨ dataType = DATA_TYPE_DURATION) then
    Return (VNumber <$> (dataDouble row ?? dataSingle row ?? None))
  else if decide (dataType = DATA_TYPE_BOOLEAN) then
    Return (match dataBoolean row with
            | Some b => Some (VBoolean (number_nonzero b))
            | None => None
            end)
  else if decide (dataType = DATA_TYPE_INT64_SINGLE) then
    Return (integerValue <$> (dataInt64 row ?? dataInt32 row ?? None))
  else if decide (dataType = DATA_TYPE_INT64) then
    Return (integerValue <$> (dataInt64 row ?? None))
  else if decide (dataType = DATA_TYPE_GUID ∨ dataType = DATA_TYPE_TEXT
                  ∨ dataType = DATA_TYPE_DICTIONARY_KEYS
                  ∨ dataType = DATA_TYPE_GUID_LIST
                  ∨ dataType = DATA_TYPE_DATE_TIME) then
    Return (VString <$> (dataText row ?? None))
  else if decide (dataType = DATA_TYPE_BLOB_ARRAY) then
    match dataBlob row with
    | Some blob => data ← DecodeBlob.decodeBlob blob; Return (Some (VFloat64Array data))
    | None => Return None
    end
  else Return None.

(** [convertNode]: name and urn, then the value of the node's data row, then
    the converted children when there are any. *)
Fixpoint convertNode (dataMap : gmap Z RawDataRow) (node : TreeNode)
    : outcome ZmesParameter :=
  let name := default "" (pt_friendlyName (tn_parameterType node)) in
  let urn := default "" (pt_urn (tn_parameterType node)) in
  value ← match dataMap !! id (tn_raw node) with
          | Some dataRow => extractValue (pt_dataType (tn_parameterType node)) dataRow
          | None => Return None
          end;
  children ← match tn_children node with
             | [] => Return None
             | _ :: _ => Some <$> mapO (convertNode dataMap) (tn_children node)
             end;
  Return {| name := name; urn := urn; value := value; children := children |}.

(** A row of the second SELECT of [loadDataMap]: a non-NULL blob and its
    node id. *)
Record BlobRow : Type := {
  blob_parameterTreeNodeId : Z;
  blob_dataBlob : list Byte.byte;
}.

(** What [loadDataMap] reads for a record id: the rows of the first SELECT,
    which has no blob column (their [dataBlob] is ignored), and the rows of
    the second. *)
Record DataSource : Type := {
  db_parameterData : Z → list RawDataRow;
  db_parameterBlobs : Z → list BlobRow;
}.

Definition loadDataMap (database : DataSource) (recordId : Z) : gmap Z RawDataRow :=
  let rows := db_parameterData database recordId in
  let blobRows := db_parameterBlobs database recordId in
  let blobMap : gmap Z (list Byte.byte) :=
    foldl (λ blobMap blobRow,
             <[blob_parameterTreeNodeId blobRow := blob_dataBlob blobRow]> blobMap)
          ∅ blobRows in
  foldl (λ dataMap raw,
           <[parameterTreeNodeId raw :=
               {| parameterTreeNodeId := parameterTreeNodeId raw;
                  row_parameterTypeId := row_parameterTypeId raw;
                  dataBlob := blobMap !! parameterTreeNodeId raw ?? None;
                  dataBoolean := dataBoolean raw;
                  dataDouble := dataDouble raw;
                  dataInt32 := dataInt32 raw;
                  dataInt64 := dataInt64 raw;
                  dataSingle := dataSingle raw;
                  dataText := dataText raw |}]> dataMap)
        ∅ rows.

Definition readParameterData (database : DataSource) (recordId : Z)
    (rootNode : TreeNode) : outcome ZmesParameter :=
  let dataByNodeId := loadDataMap database recordId in
  convertNode dataByNodeId rootNode.

End ReadParameterData.

(** ** findParameter.ts *)

Module FindParameter.

Import Types.

(** [children.find((child) => child.name === name)] *)
Definition findParameter (children : list ZmesParameter) (name : string)
    : option ZmesParameter :=
  List.find (λ child, bool_decide (Types.name child = name)) children.

(** [findParameterDeep]: the node itself, then the children in order, each
    with its whole subtree; the first [found] that is not [undefined] is
    returned. *)
Fixpoint findParameterDeep (parameter : ZmesParameter) (name : string)
    : option ZmesParameter :=
  if decide (Types.name parameter = name) then Some parameter
  else
    match children parameter with
    | Some children =>
        (fix loop (rest : list ZmesParameter) : option ZmesParameter :=
           match rest with
           | [] => None
           | child :: rest' =>
               match findParameterDeep child name with
               | Some found => Some found
               | None => loop rest'
               end
           end) children
    | None => None
    end.

(** The nodes of the tree below [parameter] in pre-order: the node itself,
    then the subtree of each child in order. *)
Fixpoint preOrder (parameter : ZmesParameter) : list ZmesParameter :=
  parameter ::
    match children parameter with
    | Some children => flat_map preOrder children
    | None => []
    end.

End FindParameter.

(** ** toMeasurementXY.ts *)

Module ToMeasurementXY.

Import Types FindParameter.

Record VariableDescriptor : Type := {
  parameterName : string;
  vd_symbol : string;
  vd_label : string;
  vd_units : string;
  vd_isDependent : bool;
}.

Definition VARIABLE_DESCRIPTORS : list VariableDescriptor := [
  {| parameterName := "Sizes"; vd_symbol := "x";
     vd_label := "Particle diameter"; vd_units := "nm"; vd_isDependent := false |};
  {| parameterName := "Particle Size Intensity Distribution"; vd_symbol := "y";
     vd_label := "Intensity"; vd_units := "%"; vd_isDependent := true |};
  {| parameterName := "Particle Size Volume Distribution (%)"; vd_symbol := "a";
     vd_label := "Volume"; vd_units := "%"; vd_isDependent := true |};
  {| parameterName := "Particle Size Number Distribution"; vd_symbol := "b";
     vd_label := "Number"; vd_units := "%"; vd_isDependent := true |};
  {| parameterName := "Molecular Weights"; vd_symbol := "c";
     vd_label := "Molecular weight"; vd_units := "Da"; vd_isDependent := true |};
  {| parameterName := "Diffusion Coefficients"; vd_symbol := "d";
     vd_label := "Diffusion coefficient"; vd_units := "µm²/s"; vd_isDependent := true |};
  {| parameterName := "Relaxation Times"; vd_symbol := "e";
     vd_label := "Relaxation time"; vd_units := "µs"; vd_isDependent := true |};
  {| parameterName := "Form Factor"; vd_symbol := "f";
     vd_label := "Form factor"; vd_units := ""; vd_isDependent := true |}
].

Record MeasurementVariable : Type := {
  symbol : string;
  label : string;
  units : string;
  data : list number;
  isDependent : bool;
}.

(** [MeasurementXYVariables]: [x] and [y] are required, the other letters
    are optional properties. *)
Record MeasurementXYVariables : Type := {
  var_x : MeasurementVariable;
  var_y : MeasurementVariable;
  var_others : gmap string MeasurementVariable;
}.

(** [parameter?.value instanceof Float64Array] *)
Definition float64ArrayValue (parameter : option ZmesParameter) : option (list number) :=
  match parameter with
  | Some p =>
      match value p with
      | Some (VFloat64Array data) => Some data
      | _ => None
      end
  | None => None
  end.

(** The first loop of [buildVariables]: one descriptor against [found]. *)
Definition addVariable (parameters : ZmesParameter)
    (found : gmap string MeasurementVariable) (descriptor : VariableDescriptor)
    : gmap string MeasurementVariable :=
  let parameter := findParameterDeep parameters (parameterName descriptor) in
  match float64ArrayValue parameter with
  | None => found
  | Some data =>
      <[vd_symbol descriptor :=
          {| symbol := vd_symbol descriptor;
             label := vd_label descriptor;
             units := vd_units descriptor;
             data := data;
             isDependent := vd_isDependent descriptor |}]> found
  end.

Definition buildVariables (parameters : ZmesParameter) : option MeasurementXYVariables :=
  let found := foldl (addVariable parameters) ∅ VARIABLE_DESCRIPTORS in
  match found !! "x", found !! "y" with
  | Some x, Some y =>
      Some {| var_x := x; var_y := y;
              var_others := filter (λ kv, kv.1 ≠ "x" ∧ kv.1 ≠ "y") found |}
  | _, _ => None
  end.

(** [typeof parameter?.value === 'string'] *)
Definition stringValue (parameter : option ZmesParameter) : option string :=
  match parameter with
  | Some p =>
      match value p with
      | Some (VString s) => Some s
      | _ => None
      end
  | None => None
  end.

(** [typeof parameter?.value === 'number'] *)
Definition numberValue (parameter : option ZmesParameter) : option number :=
  match parameter with
  | Some p =>
      match value p with
      | Some (VNumber n) => Some n
      | _ => None
      end
  | None => None
  end.

(** [parameter?.value], [None] for [undefined]. *)
Definition anyValue (parameter : option ZmesParameter) : option Value :=
  match parameter with
  | Some p => value p
  | None => None
  end.

Definition extractTitle (parameters : ZmesParameter) : string :=
  match findParameter (default [] (children parameters)) "Sample Settings" with
  | None => ""
  | Some sampleSettings =>
      default "" (stringValue (findParameterDeep sampleSettings "Sample Name"))
  end.

(** [if (parameter?.value !== undefined) meta[key] = parameter.value] *)
Definition setMeta (key : string) (parameter : option ZmesParameter)
    (meta : gmap string Value) : gmap string Value :=
  match anyValue parameter with
  | Some v => <[key := v]> meta
  | None => meta
  end.

Definition topLevelFields : list (string * string) := [
  ("Operator Name", "operatorName");
  ("Measurement Start Date And Time", "measurementStartDateTime");
  ("Measurement Completed Date And Time", "measurementCompletedDateTime");
  ("Repeat", "repeat");
  ("Number Of Repeats", "numberOfRepeats");
  ("Pause Between Repeats (s)", "pauseBetweenRepeats");
  ("Quality Indicator", "qualityIndicator");
  ("Result State", "resultState");
  ("Measurement Type", "measurementType")
].

Definition deepFields : list (string * string) := [
  ("Z-Average (nm)", "zAverage");
  ("Polydispersity Index (PI)", "polydispersityIndex");
  ("Derived Mean Count Rate (kcps)", "derivedMeanCountRate")
].

Definition extractMeta (parameters : ZmesParameter) : gmap string Value :=
  let children := default [] (children parameters) in
  let meta : gmap string Value := ∅ in
  let meta :=
    foldl (λ meta field, setMeta field.2 (findParameter children field.1) meta)
          meta topLevelFields in
  let meta :=
    foldl (λ meta field, setMeta field.2 (findParameterDeep parameters field.1) meta)
          meta deepFields in
  let meta :=
    match findParameterDeep parameters "Material Settings" with
    | Some materialSettings =>
        let materialRI := findParameterDeep materialSettings "Material RI" in
        let materialAbsorption :=
          findParameterDeep materialSettings "Material Absorption" in
        setMeta "materialAbsorption" materialAbsorption
          (setMeta "materialRI" materialRI meta)
    | None => meta
    end in
  let dispersantViscosity := findParameterDeep parameters "Dispersant Viscosity (cP)" in
  let dispersantRI := findParameterDeep parameters "Dispersant RI" in
  setMeta "dispersantRI" dispersantRI
    (setMeta "dispersantViscosity" dispersantViscosity meta).

Record Software : Type := {
  software_name : string;
  software_version : option string;
}.

Record Instrument : Type := {
  manufacturer : string;
  model : string;
  serialNumber : option string;
  software : Software;
}.

(** The settings object: [instrument] and the numeric properties. *)
Record Settings : Type := {
  instrument : Instrument;
  settings_numbers : gmap string number;
}.

Definition instrumentSettingsFields : list (string * string) := [
  ("Detector Angle (°)", "detectorAngle");
  ("Run Duration (s)", "runDuration");
  ("Number Of Runs", "numberOfRuns");
  ("Temperature (°C)", "temperature");
  ("Attenuator", "attenuator");
  ("Attenuation Factor", "attenuationFactor");
  ("Cuvette Position (mm)", "cuvettePosition");
  ("Laser Wavelength (nm)", "laserWavelength")
].

Definition extractSettings (parameters : ZmesParameter) : Settings :=
  let children := default [] (children parameters) in
  let softwareVersion := findParameter children "Software Version" in
  let instrumentSerialNumber := findParameterDeep parameters "Instrument Serial Number" in
  {| instrument :=
       {| manufacturer := "Malvern Panalytical";
          model := "Zetasizer";
          serialNumber := stringValue instrumentSerialNumber;
          software := {| software_name := "ZS XPLORER";
                         software_version := stringValue softwareVersion |} |};
     settings_numbers :=
       foldl (λ settings field,
                match numberValue (findParameterDeep parameters field.1) with
                | Some n => <[field.2 := n]> settings
                | None => settings
                end)
             ∅ instrumentSettingsFields |}.

Record MeasurementXY : Type := {
  measurement_id : string;
  title : string;
  dataType : string;
  meta : gmap string Value;
  settings : Settings;
  variables : MeasurementXYVariables;
}.

(** The body of the loop of [toMeasurementXY]: [continue] when
    [buildVariables] returns [undefined], one [push] otherwise. *)
Definition projectRecord (measurements : list MeasurementXY) (record : ZmesRecord)
    : list MeasurementXY :=
  let parameters := parameters record in
  match buildVariables parameters with
  | None => measurements
  | Some variables =>
      measurements ++ [
        {| measurement_id := guid record;
           title := extractTitle parameters;
           dataType := "Size measurement";
           meta := extractMeta parameters;
           settings := extractSettings parameters;
           variables := variables |}]
  end.

Definition toMeasurementXY (zmesFile : ZmesFile) : list MeasurementXY :=
  foldl projectRecord [] (records zmesFile).

End ToMeasurementXY.

(** ** parse.ts and readRecords.ts *)

Module Parse.

Import ReadParameterTree ReadParameterData Types.

Record RawRecord : Type := {
  raw_id : Z;
  raw_guid : string;
  raw_createdDateTime : string;
  raw_modifiedDateTime : string;
  rootParameterTypeId : Z;
  groupId : Z;
  groupGuid : string;
  groupName : option string;
}.

(** The opened database, as the queries of the parser see it. *)
Record Database : Type := {
  db_schemaVersion : option Z;
  db_storeMetadata : list (string * string);
  db_records : list RawRecord;
  db_tree : TreeSource;
  db_data : DataSource;
}.

Definition readSchemaVersion (database : Database) : Z :=
  default 0 (db_schemaVersion database).

(** [metadata[key] = value] on an object literal, for a string [value]: the
    own property [key] is written, except for the key [__proto__], which is
    the accessor of [Object.prototype]; its setter ignores a value that is
    neither an object nor null, and no own property is created. *)
Definition setProperty (key value : string) (object : gmap string string)
    : gmap string string :=
  if decide (key = "__proto__") then object else <[key := value]> object.

(** The own properties of the object that [readStoreMetadata] returns. *)
Definition readStoreMetadata (database : Database) : gmap string string :=
  foldl (λ metadata row, setProperty row.1 row.2 metadata) ∅ (db_storeMetadata database).

Definition readRecords (database : Database) : list RawRecord := db_records database.

(** The body of the loop of [buildRecords]. *)
Definition buildRecord (database : Database) (raw : RawRecord) : outcome ZmesRecord :=
  tree ← buildParameterTree (db_tree database) (rootParameterTypeId raw);
  parameters ← readParameterData (db_data database) (raw_id raw) tree;
  Return {| record_id := raw_id raw;
            guid := raw_guid raw;
            group := {| group_id := groupId raw;
                        group_guid := groupGuid raw;
                        group_name := groupName raw |};
            createdDateTime := raw_createdDateTime raw;
            modifiedDateTime := raw_modifiedDateTime raw;
            parameters := parameters |}.

Definition buildRecords (database : Database) : outcome (list ZmesRecord) :=
  let rawRecords := readRecords database in
  mapO (buildRecord database) rawRecords.

(** [parse], after [openDatabase]: the [try] block has a [finally] that
    closes the database and no [catch]. *)
Definition parse (database : Database) : outcome ZmesFile :=
  let schemaVersion := readSchemaVersion database in
  let metadata := readStoreMetadata database in
  records ← buildRecords database;
  Return {| schemaVersion := schemaVersion; metadata := metadata; records := records |}.

End Parse.

(** ** Invariants of the tree builder *)

Module TreeInvariants.

Import ReadParameterTree.

(** What holds of [nodeMap] while the rows of [all] are indexed with the
    registry [types]: the keys are distinct and are the keys of the objects,
    and the object at key [k] is a row of [all] with that id, its resolved
    type and no children yet. *)
Record indexed (types : gmap Z ParameterType) (all : list RawNode)
    (nodeMap : NodeMap) : Prop := {
  indexed_NoDup : NoDup (nm_keys nodeMap);
  indexed_keys k : k ∈ nm_keys nodeMap ↔ is_Some (nm_cells nodeMap !! k);
  indexed_cell k cell :
    nm_cells nodeMap !! k = Some cell →
    id (cell_raw cell) = k
    ∧ cell_children cell = []
    ∧ cell_raw cell ∈ all
    ∧ types !! parameterTypeId (cell_raw cell) = Some (cell_parameterType cell);
}.

(** The nodes of [nodes] whose parent id is [k], in order. *)
Definition childrenOf (k : Z) (nodes : list RawNode) : list RawNode :=
  filter (λ node, parentNodeId node = Some k) nodes.

(** The object [cell] at key [k] after the nodes of [nodes] were linked. *)
Definition withChildren (nodes : list RawNode) (k : Z) (cell : Cell) : Cell :=
  {| cell_raw := cell_raw cell;
     cell_parameterType := cell_parameterType cell;
     cell_children := cell_children cell ++ childrenOf k nodes |}.

(** The last node of [nodes] without a parent id. *)
Definition lastRoot (nodes : list RawNode) : option RawNode :=
  last (filter (λ node, parentNodeId node = None) nodes).

(** The nodes that the second loop visits. *)
Definition visited (nodeMap : NodeMap) : list RawNode :=
  cell_raw <$> nodeMap_values nodeMap.

(** The parent id of the object at key [k], when there is one. *)
Definition parentOf (cells : gmap Z Cell) (k : Z) : option (option Z) :=
  (λ cell, parentNodeId (cell_raw cell)) <$> cells !! k.

(** [path] lists the keys from a node up to a node without parent, each
    followed by its parent. *)
Fixpoint chain (cells : gmap Z Cell) (path : list Z) : Prop :=
  match path with
  | [] => True
  | k :: rest =>
      match rest with
      | [] => parentOf cells k = Some None
      | p :: _ => parentOf cells k = Some (Some p) ∧ chain cells rest
      end
  end.

(** What holds of the objects once all nodes are linked: the key of an
    object is its id, the keys are among [keys], and a reference in a
    [children] array points to an object of the map whose parent id is the
    key of the array's owner. *)
Record linked (keys : list Z) (cells : gmap Z Cell) : Prop := {
  linked_id k cell : cells !! k = Some cell → id (cell_raw cell) = k;
  linked_keys k : is_Some (cells !! k) → k ∈ keys;
  linked_child k cell child :
    cells !! k = Some cell → child ∈ cell_children cell →
    parentNodeId child = Some k
    ∧ ∃ cell', cells !! id child = Some cell' ∧ cell_raw cell' = child;
}.

(** The order of the sibling indices. *)
Definition siblingOrder (a b : RawNode) : Z := siblingIndex a - siblingIndex b.

(** The stable sort by a comparator that returns numbers. *)
Fixpoint insertStable {A} (compare : A → A → Z) (x : A) (l : list A) : list A :=
  match l with
  | [] => [x]
  | y :: l' =>
      if decide (compare x y ≤ 0) then x :: y :: l'
      else y :: insertStable compare x l'
  end.

Definition stableSort {A} (compare : A → A → Z) (l : list A) : list A :=
  foldr (insertStable compare) [] l.

(** The nodes of [nodes] can be sorted: their sibling indices are numbers,
    or there are fewer than two of them and nothing is compared. *)
Definition comparable (nodes : list RawNode) : Prop :=
  Forall (λ node, isSafeInteger (siblingIndex node)) nodes ∨ (length nodes ≤ 1)%nat.

(** [node] is the tree that hangs below the object with its id: same row
    and type, and the children are the trees below the sorted references. *)
Fixpoint hangs (cells : gmap Z Cell) (node : TreeNode) : Prop :=
  (∃ cell,
     cells !! id (tn_raw node) = Some cell
     ∧ cell_raw cell = tn_raw node
     ∧ cell_parameterType cell = tn_parameterType node
     ∧ tn_raw <$> tn_children node = stableSort siblingOrder (cell_children cell))
  ∧ (fix all (nodes : list TreeNode) : Prop :=
       match nodes with
       | [] => True
       | child :: nodes' => hangs cells child ∧ all nodes'
       end) (tn_children node).

End TreeInvariants.

(** ** Sample inputs *)

Module Examples.

Import Stdlib.Init.Byte DecodeBlob ReadParameterTree.

(** The blob of the test suite: ten bytes of header and the entries 1, 2.5
    and 100.75; three stray bytes follow. *)
Definition test_blob : list byte :=
  replicate 10 x00
  ++ ENTRY_MARKER ++ [x00; x00; x00; x00; x00; x00; xf0; x3f]
  ++ ENTRY_MARKER ++ [x00; x00; x00; x00; x00; x00; x04; x40]
  ++ ENTRY_MARKER ++ [x00; x00; x00; x00; x00; x30; x59; x40]
  ++ [x06; x01; x01].

Definition parameterType (i : Z) (friendlyName : string) (dataType : Z)
    : ParameterType :=
  {| pt_id := i; pt_guid := ""; pt_urn := Some ("urn:" +:+ friendlyName);
     pt_friendlyName := Some friendlyName; pt_dataType := dataType;
     pt_description := None; pt_dataUnitsUrn := None |}.

Definition rawNode (i type : Z) (parent : option Z) (sibling : Z) : RawNode :=
  {| id := i; parameterTypeId := type; parentNodeId := parent;
     siblingIndex := sibling |}.

Definition sample_types : list ParameterType :=
  [parameterType 1 "Record" 0; parameterType 2 "Sizes" 70;
   parameterType 3 "Temperature" 5; parameterType 4 "Settings" 36].

(** A root with three children loaded out of sibling order, one of them
    with a child of its own. *)
Definition sample_rows : list RawNode :=
  [rawNode 1 1 None 0; rawNode 2 2 (Some 1) 2; rawNode 3 4 (Some 1) 0;
   rawNode 4 3 (Some 3) 1; rawNode 5 3 (Some 3) 0; rawNode 6 3 (Some 1) 1].

Definition sample_database : TreeSource :=
  {| db_parameterTypes := sample_types; db_treeNodes := λ _, sample_rows |}.

(** Two children of the root with the same sibling index. *)
Definition tie_rows : list RawNode :=
  [rawNode 1 1 None 0; rawNode 2 2 (Some 1) 0; rawNode 3 3 (Some 1) 0].

Definition tie_database : TreeSource :=
  {| db_parameterTypes := sample_types; db_treeNodes := λ _, tie_rows |}.

(** Two rows without parent id. *)
Definition two_roots_rows : list RawNode :=
  [rawNode 1 1 None 0; rawNode 2 4 None 1; rawNode 3 3 (Some 1) 0].

Definition two_roots_database : TreeSource :=
  {| db_parameterTypes := sample_types; db_treeNodes := λ _, two_roots_rows |}.

(** Node 3 names a parent that is not loaded; node 4 hangs below node 3. *)
Definition orphan_rows : list RawNode :=
  [rawNode 1 1 None 0; rawNode 2 2 (Some 1) 0; rawNode 3 4 (Some 9) 0;
   rawNode 4 3 (Some 3) 0].

Definition orphan_database : TreeSource :=
  {| db_parameterTypes := sample_types; db_treeNodes := λ _, orphan_rows |}.

(** Node 2 refers to a parameter type that is not loaded. *)
Definition unknown_type_database : TreeSource :=
  {| db_parameterTypes := sample_types;
     db_treeNodes := λ _, [rawNode 1 1 None 0; rawNode 2 8 (Some 1) 0] |}.

(** Two rows with the id 1: the second replaces the object of the first in
    [nodeMap]. *)
Definition duplicate_id_database : TreeSource :=
  {| db_parameterTypes := sample_types;
     db_treeNodes := λ _, [rawNode 1 1 None 0; rawNode 1 1 (Some 1) 0] |}.

(** The sibling index of node 3 is not a safe integer and arrives as a
    BigInt. *)
Definition bigint_index_database : TreeSource :=
  {| db_parameterTypes := sample_types;
     db_treeNodes := λ _,
       [rawNode 1 1 None 0; rawNode 2 2 (Some 1) 0; rawNode 3 3 (Some 1) (2 ^ 53)] |}.

(** The first row with the id 3 names a parent that is not loaded and node
    4 hangs below it; a later row with the id 3 names the root. *)
Definition orphan_duplicate_rows : list RawNode :=
  [rawNode 1 1 None 0; rawNode 3 4 (Some 9) 0; rawNode 4 3 (Some 3) 0;
   rawNode 3 4 (Some 1) 0].

Definition orphan_duplicate_database : TreeSource :=
  {| db_parameterTypes := sample_types; db_treeNodes := λ _, orphan_duplicate_rows |}.

(** The rows of [sample_rows] in another order. *)
Definition shuffled_database : TreeSource :=
  {| db_parameterTypes := sample_types;
     db_treeNodes := λ _,
       [rawNode 6 3 (Some 1) 1; rawNode 5 3 (Some 3) 0; rawNode 1 1 None 0;
        rawNode 4 3 (Some 3) 1; rawNode 3 4 (Some 1) 0; rawNode 2 2 (Some 1) 2] |}.

(** A data row in which only the single column is populated, with 2.5. *)
Definition single_only_row : ReadParameterData.RawDataRow :=
  {| ReadParameterData.parameterTreeNodeId := 3;
     ReadParameterData.row_parameterTypeId := 3;
     ReadParameterData.dataBlob := None;
     ReadParameterData.dataBoolean := None;
     ReadParameterData.dataDouble := None;
     ReadParameterData.dataInt32 := None;
     ReadParameterData.dataInt64 := None;
     ReadParameterData.dataSingle := Some (S754_finite false 5629499534213120 (-51));
     ReadParameterData.dataText := None |}.

(** A data row for node 3 in which every column is populated. *)
Definition full_row : ReadParameterData.RawDataRow :=
  {| ReadParameterData.parameterTreeNodeId := 3;
     ReadParameterData.row_parameterTypeId := 4;
     ReadParameterData.dataBlob := Some test_blob;
     ReadParameterData.dataBoolean := Some (S754_finite false 4503599627370496 (-52));
     ReadParameterData.dataDouble := Some (S754_finite false 5629499534213120 (-51));
     ReadParameterData.dataInt32 :=
       Some (ReadParameterData.ColumnNumber (S754_finite false 4503599627370496 (-52)));
     ReadParameterData.dataInt64 := Some (ReadParameterData.ColumnBigInt (2 ^ 53 + 1));
     ReadParameterData.dataSingle := Some (S754_finite false 5629499534213120 (-51));
     ReadParameterData.dataText := Some "text" |}.

(** The subtree of node 3 of [sample_rows]: a dictionary node with two
    children, sorted. *)
Definition settings_node : TreeNode :=
  {| tn_raw := rawNode 3 4 (Some 1) 0;
     tn_parameterType := parameterType 4 "Settings" 36;
     tn_children :=
       [{| tn_raw := rawNode 5 3 (Some 3) 0;
           tn_parameterType := parameterType 3 "Temperature" 5;
           tn_children := [] |};
        {| tn_raw := rawNode 4 3 (Some 3) 1;
           tn_parameterType := parameterType 3 "Temperature" 5;
           tn_children := [] |}] |}.

(** A tree in which the detector angle is a number, the run duration is a
    string, and an operator name sits one level below the root only. *)
Definition settings_parameters : Types.ZmesParameter :=
  {| Types.name := "Record"; Types.urn := ""; Types.value := None;
     Types.children := Some [
       {| Types.name := "Actual Instrument Settings"; Types.urn := "";
          Types.value := None;
          Types.children := Some [
            {| Types.name := "Detector Angle (°)"; Types.urn := "";
               Types.value := Some (Types.VNumber (S754_finite false 6086975121367040 (-45)));
               Types.children := None |};
            {| Types.name := "Run Duration (s)"; Types.urn := "";
               Types.value := Some (Types.VString "1.68");
               Types.children := None |};
            {| Types.name := "Operator Name"; Types.urn := "";
               Types.value := Some (Types.VString "nested");
               Types.children := None |}] |};
       {| Types.name := "Repeat"; Types.urn := "";
          Types.value := Some (Types.VNumber (S754_finite false 4503599627370496 (-52)));
          Types.children := None |}] |}.

(** A record whose tree has the two mandatory arrays and nothing else. *)
Definition minimal_record : Types.ZmesRecord :=
  {| Types.record_id := 1;
     Types.guid := "1c90a5c0";
     Types.group := {| Types.group_id := 1; Types.group_guid := "g";
                       Types.group_name := None |};
     Types.createdDateTime := "";
     Types.modifiedDateTime := "";
     Types.parameters :=
       {| Types.name := "Record"; Types.urn := ""; Types.value := None;
          Types.children := Some [
            {| Types.name := "Result"; Types.urn := ""; Types.value := None;
               Types.children := Some [
                 {| Types.name := "Sizes"; Types.urn := "";
                    Types.value := Some (Types.VFloat64Array
                      [S754_finite false 4503599627370496 (-52)]);
                    Types.children := None |}] |};
            {| Types.name := "Particle Size Intensity Distribution";
               Types.urn := "";
               Types.value := Some (Types.VFloat64Array
                 [S754_finite false 5629499534213120 (-51)]);
               Types.children := None |}] |} |}.

(** A record whose first node named Sizes holds a number, not an array. *)
Definition scalar_sizes_record : Types.ZmesRecord :=
  {| Types.record_id := 2;
     Types.guid := "2d";
     Types.group := {| Types.group_id := 1; Types.group_guid := "g";
                       Types.group_name := None |};
     Types.createdDateTime := "";
     Types.modifiedDateTime := "";
     Types.parameters :=
       {| Types.name := "Record"; Types.urn := ""; Types.value := None;
          Types.children := Some [
            {| Types.name := "Sizes"; Types.urn := "";
               Types.value := Some (Types.VNumber (S754_finite false 4503599627370496 (-52)));
               Types.children := None |};
            {| Types.name := "Particle Size Intensity Distribution";
               Types.urn := "";
               Types.value := Some (Types.VFloat64Array
                 [S754_finite false 5629499534213120 (-51)]);
               Types.children := None |}] |} |}.

(** A file with one record: a root with a node named Sizes and a node
    named Particle Size Intensity Distribution, both with the test blob. *)
Definition sample_file : Parse.Database :=
  {| Parse.db_schemaVersion := None;
     Parse.db_storeMetadata := [("Software", "1"); ("Software", "2")];
     Parse.db_records :=
       [{| Parse.raw_id := 7; Parse.raw_guid := "1c90a5c0";
           Parse.raw_createdDateTime := "2026-02-20T13:18:16Z";
           Parse.raw_modifiedDateTime := "2026-02-20T13:18:16Z";
           Parse.rootParameterTypeId := 1;
           Parse.groupId := 1; Parse.groupGuid := "g";
           Parse.groupName := None |}];
     Parse.db_tree :=
       {| db_parameterTypes :=
            [parameterType 1 "Record" 0; parameterType 2 "Sizes" 70;
             parameterType 5 "Particle Size Intensity Distribution" 70];
          db_treeNodes := λ _,
            [rawNode 1 1 None 0; rawNode 3 5 (Some 1) 1; rawNode 2 2 (Some 1) 0] |};
     Parse.db_data :=
       {| ReadParameterData.db_parameterData := λ _,
            [{| ReadParameterData.parameterTreeNodeId := 2;
                ReadParameterData.row_parameterTypeId := 2;
                ReadParameterData.dataBlob := None;
                ReadParameterData.dataBoolean := None;
                ReadParameterData.dataDouble := None;
                ReadParameterData.dataInt32 := None;
                ReadParameterData.dataInt64 := None;
                ReadParameterData.dataSingle := None;
                ReadParameterData.dataText := None |};
             {| ReadParameterData.parameterTreeNodeId := 3;
                ReadParameterData.row_parameterTypeId := 5;
                ReadParameterData.dataBlob := None;
                ReadParameterData.dataBoolean := None;
                ReadParameterData.dataDouble := None;
                ReadParameterData.dataInt32 := None;
                ReadParameterData.dataInt64 := None;
                ReadParameterData.dataSingle := None;
                ReadParameterData.dataText := None |}];
          ReadParameterData.db_parameterBlobs := λ _,
            [{| ReadParameterData.blob_parameterTreeNodeId := 2;
                ReadParameterData.blob_dataBlob := test_blob |};
             {| ReadParameterData.blob_parameterTreeNodeId := 3;
                ReadParameterData.blob_dataBlob := test_blob |}] |} |}.

End Examples.

(** ** The nodes of a tree *)

Module TreeShape.

Import ReadParameterTree.

(** The nodes of a tree in pre-order, each with the tree below it. *)
Fixpoint subtrees (node : TreeNode) : list TreeNode :=
  node :: flat_map subtrees (tn_children node).

End TreeShape.

(** ** The variables of a measurement *)

Module ProjectionShape.

Import Types FindParameter ToMeasurementXY.



End ProjectionShape.

(** ** decodeBlob.test.ts *)

Module DecodeBlobTest.

Import Stdlib.Init.Byte DecodeBlob.

(** The loop of the test that builds a blob: for every value the marker is
    pushed, then the eight bytes of the value. *)
Definition encodeEntries (payloads : list (list byte)) : list byte :=
  flat_map (λ payload, ENTRY_MARKER ++ payload) payloads.

End DecodeBlobTest.

(** * Properties *)

(** ** The outcome monad *)

Section mapO_facts.
Context {A B : Type} (f : A → outcome B).

Lemma mapO_Return (g : A → B) (l : list A) :
  (∀ x, x ∈ l → f x = Return (g x)) → mapO f l = Return (g <$> l).
Proof.
  induction l as [|x l IH]; intros Hf; simpl; first done.
  rewrite (Hf x) by left.
  rewrite IH; first done.
  intros y Hy. apply Hf. by right.
Qed.

Lemma mapO_Return_inv (l : list A) (r : list B) :
  mapO f l = Return r → Forall2 (λ x y, f x = Return y) l r.
Proof.
  revert r. induction l as [|x l IH]; intros r; simpl.
  - intros [= <-]. constructor.
  - destruct (f x) as [y| |] eqn:Hx; try done.
    destruct (mapO f l) as [ys| |] eqn:Hl; try done.
    intros [= <-]. constructor; auto.
Qed.

Lemma mapO_all_Return (l : list A) :
  (∀ x, x ∈ l → ∃ y, f x = Return y) → ∃ r, mapO f l = Return r.
Proof.
  induction l as [|x l IH]; intros Hf; simpl; first by eexists.
  destruct (Hf x) as [y ->]; first by left.
  destruct IH as [r ->]; last by eexists.
  intros x' Hx'. apply Hf. by right.
Qed.

(** A loop whose body throws for some element and is never stuck throws, at
    the first element for which the body throws. *)
Lemma mapO_Throw (l : list A) x e :
  (∀ y, y ∈ l → f y ≠ Stuck) → x ∈ l → f x = Throw e →
  ∃ x' e', x' ∈ l ∧ f x' = Throw e' ∧ mapO f l = Throw e'.
Proof.
  induction l as [|y l IH]; intros Hstuck Hx Hthrow.
  - by apply elem_of_nil in Hx.
  - simpl. destruct (f y) as [b|e0|] eqn:Hy.
    + apply elem_of_cons in Hx as [->|Hx]; first congruence.
      destruct IH as (x' & e' & Hx' & Hfx' & ->); [|done|done|].
      * intros z Hz. apply Hstuck. by right.
      * exists x', e'. split; first by right. done.
    + exists y, e0. split; first by left. done.
    + destruct (Hstuck y); [by left | done].
Qed.

(** A loop whose body returns or throws [e] returns or throws [e]. *)
Lemma mapO_Return_or_Throw (l : list A) e (P : Prop) :
  (∀ x, x ∈ l → (∃ y, f x = Return y) ∨ (f x = Throw e ∧ P)) →
  (∃ r, mapO f l = Return r) ∨ (mapO f l = Throw e ∧ P).
Proof.
  induction l as [|x l IH]; intros Hf; simpl; first (left; by eexists).
  destruct (Hf x) as [[y ->]|[-> HP]]; [by left| |by right].
  destruct IH as [[r ->]|[-> HP]]; [|left; by eexists|by right].
  intros x' Hx'. apply Hf. by right.
Qed.

End mapO_facts.

(** ** decodeBlob.ts *)

Section decodeBlob_facts.
Import DecodeBlob.
Import Stdlib.Init.Byte.

Implicit Types (blob : list byte) (i j k : Z).

Lemma byteLength_nonneg blob : 0 ≤ byteLength blob.
Proof. unfold byteLength. lia. Qed.

(** The inner loop accepts exactly when the rest of the marker is read at
    [i + j]. *)
Lemma matchMarker_spec blob i j marker :
  0 ≤ i + j →
  matchMarker blob i j marker = true
  ↔ take (length marker) (drop (Z.to_nat (i + j)) blob) = marker.
Proof.
  revert j. induction marker as [|m marker IH]; intros j Hj; simpl.
  - by rewrite take_0.
  - unfold byteAt. destruct (decide (0 ≤ i + j)) as [_|]; last done.
    destruct (blob !! Z.to_nat (i + j)) as [b|] eqn:Hb.
    + rewrite (drop_S _ _ _ Hb). simpl.
      destruct (decide (Some b = Some m)) as [[= ->]|Hne].
      * rewrite IH by lia.
        replace (Z.to_nat (i + (j + 1))) with (S (Z.to_nat (i + j))) by lia.
        split; [by intros -> | by intros [= ->]].
      * split; [done | intros [= ->]; done].
    + destruct (decide (None = Some m)) as [?|_]; first done.
      rewrite drop_ge by (by apply lookup_ge_None).
      by rewrite take_nil.
Qed.

Lemma matchMarker_marker_at blob i :
  0 ≤ i → matchMarker blob i 0 ENTRY_MARKER = true ↔ marker_at blob i.
Proof.
  intros Hi. rewrite matchMarker_spec by lia.
  unfold marker_at. replace (i + 0) with i by lia. simpl. tauto.
Qed.

(** A marker at [i] lies inside the blob. *)
Lemma marker_at_bound blob i : marker_at blob i → 0 ≤ i ≤ byteLength blob - 6.
Proof.
  intros [Hi Hm].
  assert (length (take 6 (drop (Z.to_nat i) blob)) = 6%nat) as Hlen by by rewrite Hm.
  rewrite length_take, length_drop in Hlen.
  unfold byteLength. lia.
Qed.

Lemma findMarker_from_S n blob i :
  findMarker_from (S n) blob i
  = if matchMarker blob i 0 ENTRY_MARKER then i else findMarker_from n blob (i + 1).
Proof. reflexivity. Qed.

(** The outer loop returns the least offset of a marker in its range. *)
Lemma findMarker_from_spec n blob i :
  0 ≤ i →
  (findMarker_from n blob i = -1 ∧ ∀ k, i ≤ k < i + Z.of_nat n → ¬ marker_at blob k)
  ∨ (i ≤ findMarker_from n blob i < i + Z.of_nat n
     ∧ marker_at blob (findMarker_from n blob i)
     ∧ ∀ k, i ≤ k < findMarker_from n blob i → ¬ marker_at blob k).
Proof.
  revert i. induction n as [|n IH]; intros i Hi.
  - left. split; [done | lia].
  - rewrite findMarker_from_S.
    destruct (matchMarker blob i 0 ENTRY_MARKER) eqn:Hm.
    + right. apply matchMarker_marker_at in Hm; last done.
      split; first lia. split; first done. intros k ?. lia.
    + assert (¬ marker_at blob i) as Hni.
      { intros H%matchMarker_marker_at; [congruence | done]. }
      destruct (IH (i + 1)) as [[-> Hno]|(Hr & Hat & Hno)]; first lia.
      * left. split; first done.
        intros k Hk. destruct (decide (k = i)) as [->|]; first done.
        apply Hno. lia.
      * right. split; first lia. split; first done.
        intros k Hk. destruct (decide (k = i)) as [->|]; first done.
        apply Hno. lia.
Qed.

Lemma findMarker_spec blob :
  (findMarker blob = -1 ∧ ∀ k, ¬ marker_at blob k)
  ∨ (marker_at blob (findMarker blob)
     ∧ ∀ k, marker_at blob k → findMarker blob ≤ k).
Proof.
  unfold findMarker.
  set (n := Z.to_nat (byteLength blob - Z.of_nat (length ENTRY_MARKER) + 1)).
  destruct (findMarker_from_spec n blob 0) as [[-> Hno]|(Hr & Hat & Hno)]; first done.
  - left. split; first done.
    intros k Hk. pose proof (marker_at_bound _ _ Hk) as Hb.
    apply (Hno k); last done. subst n. simpl length. lia.
  - right. split; first done.
    intros k Hk. pose proof (marker_at_bound _ _ Hk) as Hb.
    destruct (decide (findMarker_from n blob 0 ≤ k)); first done.
    exfalso. apply (Hno k); [lia | done].
Qed.

(** The first marker decides the result of [findMarker]. *)
Lemma findMarker_first blob off :
  marker_at blob off → (∀ k, marker_at blob k → off ≤ k) → findMarker blob = off.
Proof.
  intros Hat Hmin.
  destruct (findMarker_spec blob) as [[_ Hno]|[Hat' Hmin']].
  - by destruct (Hno off).
  - specialize (Hmin _ Hat'). specialize (Hmin' _ Hat). lia.
Qed.

Lemma decodeBlob_found blob :
  marker_at blob (findMarker blob) →
  decodeBlob blob = Return (entries blob (findMarker blob)).
Proof.
  intros Hat. pose proof (marker_at_bound _ _ Hat) as Hb.
  unfold decodeBlob, entries. cbv zeta.
  set (off := findMarker blob) in *.
  rewrite decide_False by lia.
  assert (0 ≤ (byteLength blob - off) `div` ENTRY_SIZE) as Hc.
  { apply Z.div_pos; unfold ENTRY_SIZE; lia. }
  rewrite decide_False by lia.
  apply mapO_Return. intros i Hi%elem_of_seqZ.
  unfold getFloat64. rewrite decide_True; first done.
  pose proof (Z.mul_div_le (byteLength blob - off) ENTRY_SIZE) as Hle.
  unfold ENTRY_SIZE in *. nia.
Qed.

(** The two ways in which [decodeBlob] ends. *)
Lemma decodeBlob_outcome blob :
  ((∀ k, ¬ marker_at blob k) ∧ decodeBlob blob = Return [])
  ∨ (marker_at blob (findMarker blob)
     ∧ decodeBlob blob = Return (entries blob (findMarker blob))).
Proof.
  destruct (findMarker_spec blob) as [[Hf Hno]|[Hat Hmin]].
  - left. split; first done.
    unfold decodeBlob. cbv zeta. by rewrite Hf, decide_True.
  - right. split; first done. by apply decodeBlob_found.
Qed.

End decodeBlob_facts.

Section decodeBlob_claims.
Import DecodeBlob Examples.
Import Stdlib.Init.Byte.

Implicit Types (blob tail : list byte) (i j k : Z).

Lemma byteLength_app blob tail :
  byteLength (blob ++ tail) = byteLength blob + byteLength tail.
Proof. unfold byteLength. rewrite length_app. lia. Qed.

(** Bytes appended to the blob do not change what is read inside it. *)
Lemma window_app blob tail n i :
  0 ≤ i → i + Z.of_nat n ≤ byteLength blob →
  take n (drop (Z.to_nat i) (blob ++ tail)) = take n (drop (Z.to_nat i) blob).
Proof.
  unfold byteLength. intros Hi Hn.
  rewrite drop_app_le by lia.
  apply take_app_le. rewrite length_drop. lia.
Qed.

Lemma marker_at_app blob tail i :
  i + 6 ≤ byteLength blob → marker_at (blob ++ tail) i ↔ marker_at blob i.
Proof.
  intros Hi. unfold marker_at.
  split; intros [H0 Hm]; (split; first done).
  - by rewrite window_app in Hm by (done || lia).
  - by rewrite window_app by (done || lia).
Qed.

Lemma findMarker_app blob tail :
  marker_at blob (findMarker blob) → findMarker (blob ++ tail) = findMarker blob.
Proof.
  intros Hat. pose proof (marker_at_bound _ _ Hat) as Hb.
  destruct (findMarker_spec blob) as [[_ Hno]|[_ Hmin]]; first by destruct (Hno _ Hat).
  apply findMarker_first.
  - apply marker_at_app; [lia | done].
  - intros k Hk. destruct (decide (findMarker blob ≤ k)); first done.
    apply Hmin. apply (marker_at_app blob tail k); [lia | done].
Qed.

Lemma entries_app blob tail off :
  0 ≤ off ≤ byteLength blob →
  (byteLength blob - off) `mod` ENTRY_SIZE + byteLength tail < ENTRY_SIZE →
  entries (blob ++ tail) off = entries blob off.
Proof.
  intros Hoff Htail. unfold entries.
  pose proof (byteLength_nonneg tail) as Ht.
  assert ((byteLength (blob ++ tail) - off) `div` ENTRY_SIZE
          = (byteLength blob - off) `div` ENTRY_SIZE) as ->.
  { rewrite byteLength_app. unfold ENTRY_SIZE in *.
    pose proof (Z.div_mod (byteLength blob - off) 14 ltac:(lia)) as Hdm.
    pose proof (Z.mod_pos_bound (byteLength blob - off) 14 ltac:(lia)) as Hm.
    symmetry. apply (Z.div_unique _ _ _
      ((byteLength blob - off) `mod` 14 + byteLength tail)); lia. }
  apply list_fmap_ext. intros n i Hi%lookup_seqZ.
  do 2 f_equal. unfold float64_bytes.
  apply window_app; first (unfold ENTRY_SIZE; lia).
  pose proof (Z.mul_div_le (byteLength blob - off) ENTRY_SIZE) as Hle.
  unfold ENTRY_SIZE in *. nia.
Qed.

(** C1: when the marker occurs in the blob, [decodeBlob] returns
    [floor ((byteLength - off) / 14)] doubles, [off] being the offset that
    [findMarker] returns, which is the first offset at which the marker
    occurs; element [i] is the little-endian double in the eight bytes at
    [off + i * 14 + 6]; bytes after the last complete stride of 14 do not
    change the result. *)
Theorem decodeBlob_entries blob k :
  marker_at blob k →
  ∃ off result,
    findMarker blob = off
    ∧ marker_at blob off ∧ (∀ j, marker_at blob j → off ≤ j)
    ∧ decodeBlob blob = Return result
    ∧ Z.of_nat (length result) = (byteLength blob - off) `div` 14
    ∧ (∀ i, 0 ≤ i < (byteLength blob - off) `div` 14 →
         result !! Z.to_nat i
         = Some (float64_of_bits (le_bits (float64_bytes blob (off + i * 14 + 6)))))
    ∧ (∀ tail, (byteLength blob - off) `mod` 14 + byteLength tail < 14 →
         decodeBlob (blob ++ tail) = Return result).
Proof.
  intros Hk.
  destruct (findMarker_spec blob) as [[_ Hno]|[Hat Hmin]]; first by destruct (Hno k).
  pose proof (marker_at_bound _ _ Hat) as Hb.
  exists (findMarker blob), (entries blob (findMarker blob)).
  split; first done. split; first done. split; first done.
  split; first by apply decodeBlob_found.
  assert (0 ≤ (byteLength blob - findMarker blob) `div` 14) as Hc.
  { apply Z.div_pos; lia. }
  split; [|split].
  - unfold entries, ENTRY_SIZE. rewrite length_fmap, length_seqZ. lia.
  - intros i Hi. unfold entries, ENTRY_SIZE.
    rewrite list_lookup_fmap, lookup_seqZ_lt by lia. simpl.
    do 5 f_equal. lia.
  - intros tail Htail.
    rewrite <- (entries_app blob tail) by (done || lia).
    rewrite <- (findMarker_app blob tail) by done.
    apply decodeBlob_found.
    rewrite findMarker_app by done.
    apply marker_at_app; [lia | done].
Qed.

Lemma decodeBlob_entries_witness :
  ∃ off result,
    findMarker test_blob = off
    ∧ marker_at test_blob off ∧ (∀ j, marker_at test_blob j → off ≤ j)
    ∧ decodeBlob test_blob = Return result
    ∧ Z.of_nat (length result) = (byteLength test_blob - off) `div` 14
    ∧ (∀ i, 0 ≤ i < (byteLength test_blob - off) `div` 14 →
         result !! Z.to_nat i
         = Some (float64_of_bits
                   (le_bits (float64_bytes test_blob (off + i * 14 + 6)))))
    ∧ (∀ tail, (byteLength test_blob - off) `mod` 14 + byteLength tail < 14 →
         decodeBlob (test_blob ++ tail) = Return result).
Proof.
  apply (decodeBlob_entries test_blob 10).
  split; [lia | reflexivity].
Defined.

(** The three entries of the test blob are 1, 2.5 and 100.75. *)
Example decodeBlob_test_blob :
  decodeBlob test_blob
  = Return [S754_finite false 4503599627370496 (-52);
            S754_finite false 5629499534213120 (-51);
            S754_finite false 7089650975899648 (-46)].
Proof. vm_compute. reflexivity. Qed.

(** C7: [decodeBlob] returns for every blob, and what it returns is the
    empty array when the blob is empty and when the marker occurs nowhere
    in it. *)
Theorem decodeBlob_returns blob :
  ∃ result,
    decodeBlob blob = Return result
    ∧ (blob = [] ∨ (∀ k, ¬ marker_at blob k) → result = []).
Proof.
  destruct (decodeBlob_outcome blob) as [[Hno ->]|[Hat ->]].
  - by exists [].
  - exists (entries blob (findMarker blob)). split; first done.
    intros [->|Hno]; [|by destruct (Hno _ Hat)].
    apply marker_at_bound in Hat. unfold byteLength in Hat. simpl in Hat. lia.
Qed.

Lemma decodeBlob_returns_witness :
  ∃ result,
    decodeBlob [x00; x01; x02; x03] = Return result
    ∧ ([x00; x01; x02; x03] = [] ∨ (∀ k, ¬ marker_at [x00; x01; x02; x03] k) →
       result = []).
Proof. apply (decodeBlob_returns [x00; x01; x02; x03]). Defined.

(** The two blobs of the test suite without marker. *)
Example decodeBlob_no_marker :
  decodeBlob [] = Return [] ∧ decodeBlob [x00; x01; x02; x03] = Return [].
Proof. split; vm_compute; reflexivity. Qed.

End decodeBlob_claims.

(** ** readParameterTree.ts *)

Section stableSort_facts.
Import ReadParameterTree TreeInvariants.
Context {A : Type} (compare : A → A → Z).

Lemma insertStable_Permutation x (l : list A) : insertStable compare x l ≡ₚ x :: l.
Proof.
  induction l as [|y l IH]; simpl; first done.
  case_decide; first done.
  rewrite IH. apply Permutation_swap.
Qed.

Lemma stableSort_Permutation (l : list A) : stableSort compare l ≡ₚ l.
Proof.
  induction l as [|x l IH]; simpl; first done.
  fold (stableSort compare l). rewrite insertStable_Permutation. by rewrite IH.
Qed.

Lemma elem_of_stableSort x (l : list A) : x ∈ stableSort compare l ↔ x ∈ l.
Proof. by rewrite stableSort_Permutation. Qed.

(** A comparator that is the difference of a key sorts by that key. *)
Context (key : A → Z) (Hcompare : ∀ a b, compare a b = key a - key b).

Lemma insertStable_sorted x (l : list A) :
  StronglySorted (λ a b, key a ≤ key b) l →
  StronglySorted (λ a b, key a ≤ key b) (insertStable compare x l).
Proof.
  induction 1 as [|y l Hl IH Hy]; simpl.
  - repeat constructor.
  - rewrite Hcompare. case_decide as Hc.
    + constructor; first by constructor.
      constructor; first lia.
      eapply Forall_impl; first exact Hy.
      intros z Hz. simpl in *. lia.
    + constructor; first done.
      rewrite insertStable_Permutation. constructor; last done. lia.
Qed.

Lemma stableSort_sorted (l : list A) :
  StronglySorted (λ a b, key a ≤ key b) (stableSort compare l).
Proof.
  induction l as [|x l IH]; simpl; first constructor.
  by apply insertStable_sorted.
Qed.

End stableSort_facts.

(** A list of integers that ascends and has no duplicates ascends strictly. *)
Lemma StronglySorted_le_lt (l : list Z) :
  StronglySorted Z.le l → NoDup l → StronglySorted Z.lt l.
Proof.
  induction 1 as [|x l Hl IH Hx]; intros Hnd; first constructor.
  apply NoDup_cons in Hnd as [Hx' Hnd].
  constructor; first by apply IH.
  apply Forall_forall. intros y Hy.
  rewrite Forall_forall in Hx. specialize (Hx y Hy).
  assert (x ≠ y) by (intros ->; done). lia.
Qed.

(** [toSorted] with the comparator of [sortChildren]: the stable sort by
    sibling index when the nodes can be compared, and a TypeError as soon as
    two or more nodes are sorted and one of the indices is a BigInt. *)
Section toSorted_compareSiblings.
Import ReadParameterTree TreeInvariants.

Implicit Types (a b x : RawNode) (l : list RawNode).

Lemma compareSiblings_toNumber a b :
  compareSiblings a b ≫= toNumber
  = if decide (isSafeInteger (siblingIndex a) ∧ isSafeInteger (siblingIndex b))
    then Return (siblingOrder a b) else Throw TypeError.
Proof.
  unfold compareSiblings, columnInteger, siblingOrder.
  destruct (decide (isSafeInteger (siblingIndex a)));
    destruct (decide (isSafeInteger (siblingIndex b)));
    simpl; case_decide; tauto || done.
Qed.

Lemma insertSorted_safe x l :
  isSafeInteger (siblingIndex x) →
  Forall (λ node, isSafeInteger (siblingIndex node)) l →
  insertSorted compareSiblings x l = Return (insertStable siblingOrder x l).
Proof.
  intros Hx. induction 1 as [|y l Hy Hl IH]; first done.
  cbn [insertSorted insertStable]. rewrite compareSiblings_toNumber.
  rewrite decide_True by done. simpl.
  case_decide; first done. by rewrite IH.
Qed.

Lemma insertSorted_unsafe x y l :
  ¬ (isSafeInteger (siblingIndex x) ∧ isSafeInteger (siblingIndex y)) →
  insertSorted compareSiblings x (y :: l) = Throw TypeError.
Proof.
  intros Hxy. cbn [insertSorted]. rewrite compareSiblings_toNumber.
  by rewrite decide_False by done.
Qed.

#[global] Instance comparable_dec l : Decision (comparable l).
Proof. unfold comparable. apply _. Defined.

Lemma comparable_Permutation l l' : l ≡ₚ l' → comparable l → comparable l'.
Proof. intros Hperm. unfold comparable. by rewrite Hperm. Qed.

Lemma toSorted_compareSiblings l :
  toSorted compareSiblings l
  = if decide (comparable l) then Return (stableSort siblingOrder l)
    else Throw TypeError.
Proof.
  induction l as [|x l IH]; first done.
  cbn [toSorted]. rewrite IH. clear IH.
  destruct (decide (comparable l)) as [[Hsafe|Hshort]|Hno]; simpl.
  - fold (stableSort siblingOrder l).
    destruct l as [|y l].
    { rewrite decide_True; first done. right. simpl. lia. }
    destruct (decide (isSafeInteger (siblingIndex x))) as [Hx|Hx].
    + rewrite decide_True by (left; by constructor).
      apply insertSorted_safe; first done.
      by rewrite (stableSort_Permutation siblingOrder (y :: l)).
    + rewrite decide_False.
      * destruct (stableSort siblingOrder (y :: l)) as [|z sorted] eqn:Hsorted.
        { pose proof (stableSort_Permutation siblingOrder (y :: l)) as Hperm.
          rewrite Hsorted in Hperm. by apply Permutation_nil_cons in Hperm. }
        apply insertSorted_unsafe. tauto.
      * intros [Hall|Hlen]; last (simpl in Hlen; lia).
        by apply Forall_cons in Hall as [? _].
  - destruct l as [|y [|z l]]; [|clear Hshort|simpl in Hshort; lia].
    { rewrite decide_True; first done. right. simpl. lia. }
    simpl. rewrite compareSiblings_toNumber.
    destruct (decide (isSafeInteger (siblingIndex x) ∧ isSafeInteger (siblingIndex y)))
      as [[Hx Hy]|Hxy].
    + rewrite decide_True by (left; rewrite !Forall_cons, Forall_nil; tauto). simpl.
      by case_decide.
    + rewrite decide_False; first done.
      intros [Hall|Hlen]; last (simpl in Hlen; lia).
      apply Forall_cons in Hall as [? [? _]%Forall_cons]. tauto.
  - rewrite decide_False; first done.
    intros [Hall|Hlen]; apply Hno.
    + left. by apply Forall_cons in Hall as [_ ?].
    + right. simpl in Hlen. lia.
Qed.

Lemma toSorted_Return l sorted :
  toSorted compareSiblings l = Return sorted →
  comparable l ∧ sorted = stableSort siblingOrder l.
Proof.
  rewrite toSorted_compareSiblings. case_decide; last done.
  by intros [= <-].
Qed.

Lemma toSorted_outcome l :
  comparable l ∨ (toSorted compareSiblings l = Throw TypeError
                  ∧ ∃ node, node ∈ l ∧ ¬ isSafeInteger (siblingIndex node)).
Proof.
  rewrite toSorted_compareSiblings.
  destruct (decide (comparable l)) as [?|Hno]; first by left.
  right. split; first done.
  destruct (decide (Forall (λ node, isSafeInteger (siblingIndex node)) l)) as [?|Hex].
  - destruct Hno. by left.
  - apply not_Forall_Exists in Hex; last apply _.
    apply Exists_exists in Hex as (node & ? & ?). by exists node.
Qed.

End toSorted_compareSiblings.

Section index_facts.
Import ReadParameterTree TreeInvariants.
Context (types : gmap Z ParameterType).

Implicit Types (rows all : list RawNode) (nodeMap : NodeMap).

Lemma indexed_empty all : indexed types all nodeMap_empty.
Proof.
  split; simpl.
  - constructor.
  - intros k. rewrite lookup_empty. split; [by intros ?%elem_of_nil | by intros [? ?]].
  - intros k cell. by rewrite lookup_empty.
Qed.

Lemma indexed_set all nodeMap rawNode parameterType :
  indexed types all nodeMap →
  rawNode ∈ all →
  types !! parameterTypeId rawNode = Some parameterType →
  indexed types all
    (nodeMap_set (id rawNode)
       {| cell_raw := rawNode; cell_parameterType := parameterType;
          cell_children := [] |} nodeMap).
Proof.
  intros [Hnd Hkeys Hcell] Hin Hty. split; simpl.
  - destruct (nm_cells nodeMap !! id rawNode) eqn:Hl; first done.
    apply NoDup_app. split; first done. split; last apply NoDup_singleton.
    intros k Hk ->%list_elem_of_singleton.
    apply Hkeys in Hk as [? ?]. congruence.
  - intros k. rewrite lookup_insert.
    destruct (decide (id rawNode = k)) as [<-|Hne].
    + split; first by eauto.
      intros _. destruct (nm_cells nodeMap !! id rawNode) eqn:Hl.
      * apply Hkeys. by rewrite Hl.
      * apply elem_of_app. right. by apply list_elem_of_singleton.
    + rewrite <- Hkeys.
      destruct (nm_cells nodeMap !! id rawNode); first done.
      rewrite elem_of_app, list_elem_of_singleton. naive_solver.
  - intros k cell. rewrite lookup_insert.
    destruct (decide (id rawNode = k)) as [<-|Hne].
    + by intros [= <-].
    + apply Hcell.
Qed.

Lemma indexNodes_indexed all rows nodeMap nodeMap' :
  indexNodes types rows nodeMap = Return nodeMap' →
  (∀ r, r ∈ rows → r ∈ all) →
  indexed types all nodeMap → indexed types all nodeMap'.
Proof.
  revert nodeMap. induction rows as [|r rows IH]; intros nodeMap; simpl.
  - by intros [= <-].
  - destruct (types !! parameterTypeId r) as [ty|] eqn:Hty; last done.
    intros Hidx Hall Hinv. eapply IH; first done.
    + intros r' Hr'. apply Hall. by right.
    + apply indexed_set; [done | apply Hall; by left | done].
Qed.

(** The first loop returns when every row resolves its type, and throws at
    the first row that does not. *)
Lemma indexNodes_Return rows nodeMap :
  (∀ r, r ∈ rows → is_Some (types !! parameterTypeId r)) →
  ∃ nodeMap', indexNodes types rows nodeMap = Return nodeMap'.
Proof.
  revert nodeMap. induction rows as [|r rows IH]; intros nodeMap Hall; simpl.
  - by eexists.
  - destruct (Hall r) as [ty ->]; first by left.
    apply IH. intros r' Hr'. apply Hall. by right.
Qed.

Lemma indexNodes_Throw rows nodeMap r :
  r ∈ rows → types !! parameterTypeId r = None →
  ∃ r', r' ∈ rows ∧ types !! parameterTypeId r' = None
        ∧ indexNodes types rows nodeMap
          = Throw (UnknownTypeError (parameterTypeId r') (id r')).
Proof.
  revert nodeMap. induction rows as [|r0 rows IH]; intros nodeMap Hin Hr.
  - by apply elem_of_nil in Hin.
  - simpl. destruct (types !! parameterTypeId r0) as [ty|] eqn:Hty.
    + apply elem_of_cons in Hin as [->|Hin]; first congruence.
      destruct (IH (nodeMap_set (id r0)
                      {| cell_raw := r0; cell_parameterType := ty;
                         cell_children := [] |} nodeMap) Hin Hr)
        as (r' & Hr' & Hnone & Heq).
      exists r'. split; first by right. done.
    + exists r0. split; first by left. done.
Qed.

Lemma indexNodes_Throw_inv rows nodeMap e :
  indexNodes types rows nodeMap = Throw e →
  ∃ r, r ∈ rows ∧ types !! parameterTypeId r = None
       ∧ e = UnknownTypeError (parameterTypeId r) (id r).
Proof.
  revert nodeMap. induction rows as [|r0 rows IH]; intros nodeMap; simpl; first done.
  destruct (types !! parameterTypeId r0) as [ty|] eqn:Hty.
  - intros (r & Hr & Hnone & ->)%IH. exists r. split; first by right. done.
  - intros [= <-]. exists r0. split; first by left. done.
Qed.

Lemma indexNodes_not_Stuck rows nodeMap : indexNodes types rows nodeMap ≠ Stuck.
Proof.
  revert nodeMap. induction rows as [|r rows IH]; intros nodeMap; simpl; first done.
  destruct (types !! parameterTypeId r); [apply IH | done].
Qed.

Lemma indexNodes_Return_types rows nodeMap nodeMap' :
  indexNodes types rows nodeMap = Return nodeMap' →
  ∀ r, r ∈ rows → is_Some (types !! parameterTypeId r).
Proof.
  intros Hidx r Hr.
  destruct (types !! parameterTypeId r) eqn:Hty; first by eauto.
  destruct (indexNodes_Throw rows nodeMap r Hr Hty) as (? & _ & _ & Heq).
  congruence.
Qed.

(** With distinct ids the keys are the ids of the rows in row order, and the
    object of a row is found at its id. *)
Lemma indexNodes_distinct rows nodeMap nodeMap' :
  indexNodes types rows nodeMap = Return nodeMap' →
  NoDup (id <$> rows) →
  (∀ r, r ∈ rows → nm_cells nodeMap !! id r = None) →
  nm_keys nodeMap' = nm_keys nodeMap ++ (id <$> rows)
  ∧ (∀ r, r ∈ rows →
       ∃ cell, nm_cells nodeMap' !! id r = Some cell ∧ cell_raw cell = r)
  ∧ (∀ k, k ∉ id <$> rows → nm_cells nodeMap' !! k = nm_cells nodeMap !! k).
Proof.
  revert nodeMap. induction rows as [|r rows IH]; intros nodeMap; simpl.
  - intros [= <-] _ _. rewrite app_nil_r. split; first done.
    split; last done. by intros r ?%elem_of_nil.
  - destruct (types !! parameterTypeId r) as [ty|] eqn:Hty; last done.
    intros Hidx [Hr Hnd]%NoDup_cons Hfresh.
    set (cell := {| cell_raw := r; cell_parameterType := ty; cell_children := [] |}) in *.
    destruct (IH _ Hidx Hnd) as (Hkeys & Hcells & Hother).
    { intros r' Hr'. simpl. rewrite lookup_insert_ne; first (apply Hfresh; by right).
      intros Heq. apply Hr. rewrite Heq. by apply list_elem_of_fmap_2. }
    split; [|split].
    + rewrite Hkeys. simpl. rewrite (Hfresh r) by left. by rewrite <- app_assoc.
    + intros r' [->|Hr']%elem_of_cons; last by apply Hcells.
      exists cell. split; last done.
      rewrite Hother by done. simpl. by rewrite lookup_insert_eq.
    + intros k Hk. apply not_elem_of_cons in Hk as [Hne Hk].
      rewrite Hother by done. simpl. by rewrite lookup_insert_ne.
Qed.

End index_facts.

Section link_facts.
Import ReadParameterTree TreeInvariants.

Implicit Types (nodes : list RawNode) (cells : gmap Z Cell) (nodeMap : NodeMap).

Lemma lastRoot_cons node nodes :
  lastRoot (node :: nodes)
  = match lastRoot nodes with
    | Some root => Some root
    | None => if decide (parentNodeId node = None) then Some node else None
    end.
Proof.
  unfold lastRoot. rewrite filter_cons.
  destruct (decide (parentNodeId node = None)).
  - by rewrite last_cons.
  - by destruct (last _).
Qed.

Lemma withChildren_nil k cell : withChildren [] k cell = cell.
Proof. destruct cell. unfold withChildren, childrenOf. simpl. by rewrite app_nil_r. Qed.

(** The second loop from any state: [root] is the last node without parent
    id when there is one, and every object has got the nodes that name its
    key as parent, in order, at the end of its [children]. *)
Lemma foldl_linkNode nodes root cells :
  (foldl linkNode (root, cells) nodes).1
  = match lastRoot nodes with Some node => Some node | None => root end
  ∧ ∀ k, (foldl linkNode (root, cells) nodes).2 !! k
         = withChildren nodes k <$> cells !! k.
Proof.
  revert root cells. induction nodes as [|node nodes IH]; intros root cells.
  - simpl. split; first done.
    intros k. destruct (cells !! k) as [cell|]; simpl; last done.
    by rewrite withChildren_nil.
  - simpl foldl. rewrite lastRoot_cons. unfold linkNode at 2 4. simpl.
    destruct (parentNodeId node) as [parentId|] eqn:Hp.
    + destruct (cells !! parentId) as [parent|] eqn:Hparent.
      * destruct (IH root (<[parentId := pushChild node parent]> cells)) as [-> Hc].
        split.
        { destruct (lastRoot nodes); first done. by rewrite decide_False. }
        intros k. rewrite Hc, lookup_insert.
        destruct (decide (parentId = k)) as [<-|Hne].
        -- rewrite Hparent. simpl. f_equal.
           unfold withChildren, childrenOf, pushChild. simpl.
           rewrite filter_cons_True by done. by rewrite <- app_assoc.
        -- destruct (cells !! k) as [cell|]; simpl; last done.
           f_equal. unfold withChildren, childrenOf.
           rewrite filter_cons_False; first done. congruence.
      * destruct (IH root cells) as [-> Hc].
        split.
        { destruct (lastRoot nodes); first done. by rewrite decide_False. }
        intros k. rewrite Hc.
        destruct (cells !! k) as [cell|] eqn:Hk; simpl; last done.
        f_equal. unfold withChildren, childrenOf.
        rewrite filter_cons_False; first done. congruence.
    + destruct (IH (Some node) cells) as [-> Hc].
      split.
      { destruct (lastRoot nodes); first done. by rewrite decide_True. }
      intros k. rewrite Hc.
      destruct (cells !! k) as [cell|]; simpl; last done.
      f_equal. unfold withChildren, childrenOf.
      rewrite filter_cons_False; first done. congruence.
Qed.

Lemma linkNodes_spec nodeMap :
  (linkNodes nodeMap).1 = lastRoot (visited nodeMap)
  ∧ ∀ k, (linkNodes nodeMap).2 !! k
         = withChildren (visited nodeMap) k <$> nm_cells nodeMap !! k.
Proof.
  unfold linkNodes. fold (visited nodeMap).
  destruct (foldl_linkNode (visited nodeMap) None (nm_cells nodeMap)) as [-> Hc].
  split; last done. by destruct (lastRoot _).
Qed.

Section with_index.
Context (types : gmap Z ParameterType) (all : list RawNode) (nodeMap : NodeMap).
Context (Hindexed : indexed types all nodeMap).

Lemma visited_ids : id <$> visited nodeMap = nm_keys nodeMap.
Proof.
  unfold visited, nodeMap_values.
  assert (∀ k, k ∈ nm_keys nodeMap →
               ∃ cell, nm_cells nodeMap !! k = Some cell ∧ id (cell_raw cell) = k) as Hk.
  { intros k [cell Hcell]%(indexed_keys _ _ _ Hindexed).
    exists cell. split; first done. by apply (indexed_cell _ _ _ Hindexed). }
  induction (nm_keys nodeMap) as [|k ks IH]; first done.
  simpl. destruct (Hk k) as (cell & -> & Hid); first by left.
  simpl. rewrite Hid. f_equal. apply IH. intros k' Hk'. apply Hk. by right.
Qed.

Lemma visited_cell node :
  node ∈ visited nodeMap ↔
  ∃ cell, nm_cells nodeMap !! id node = Some cell ∧ cell_raw cell = node.
Proof.
  unfold visited, nodeMap_values. rewrite list_elem_of_fmap. split.
  - intros (cell & -> & (k & Hk & Hcell)%list_elem_of_omap).
    exists cell. split; last done.
    apply (indexed_cell _ _ _ Hindexed) in Hcell as Hid.
    destruct Hid as [-> _]. done.
  - intros (cell & Hcell & <-). exists cell. split; first done.
    apply list_elem_of_omap. exists (id (cell_raw cell)). split; last done.
    apply (indexed_keys _ _ _ Hindexed). by rewrite Hcell.
Qed.

Lemma visited_all node : node ∈ visited nodeMap → node ∈ all.
Proof.
  intros (cell & Hcell & <-)%visited_cell.
  by apply (indexed_cell _ _ _ Hindexed) in Hcell as (_ & _ & ? & _).
Qed.

Lemma visited_NoDup : NoDup (visited nodeMap).
Proof.
  apply (NoDup_fmap_1 id). rewrite visited_ids. apply (indexed_NoDup _ _ _ Hindexed).
Qed.

(** An object after the second loop: the object of the first loop with the
    visited nodes that name it as parent for children. *)
Lemma linked_lookup k cell :
  (linkNodes nodeMap).2 !! k = Some cell ↔
  ∃ cell0, nm_cells nodeMap !! k = Some cell0
           ∧ cell_raw cell = cell_raw cell0
           ∧ cell_parameterType cell = cell_parameterType cell0
           ∧ cell_children cell = childrenOf k (visited nodeMap).
Proof.
  destruct (linkNodes_spec nodeMap) as [_ ->].
  destruct (nm_cells nodeMap !! k) as [cell0|] eqn:Hcell0; simpl.
  - apply (indexed_cell _ _ _ Hindexed) in Hcell0 as (_ & Hnil & _).
    split.
    + intros [= <-]. exists cell0. simpl. by rewrite Hnil.
    + intros (? & [= <-] & Hraw & Hty & Hch). f_equal.
      destruct cell, cell0. unfold withChildren. simpl in *. by subst.
  - split; first done. by intros (? & ? & _).
Qed.

Lemma linkNodes_linked : linked (nm_keys nodeMap) (linkNodes nodeMap).2.
Proof.
  split.
  - intros k cell (cell0 & Hcell0 & Hraw & _)%linked_lookup.
    rewrite Hraw. by apply (indexed_cell _ _ _ Hindexed) in Hcell0 as [? _].
  - intros k [cell (cell0 & Hcell0 & _)%linked_lookup].
    apply (indexed_keys _ _ _ Hindexed). by rewrite Hcell0.
  - intros k cell child (cell0 & Hcell0 & _ & _ & ->)%linked_lookup.
    intros [Hp Hv]%list_elem_of_filter. split; first done.
    apply visited_cell in Hv as (cell' & Hcell' & Hraw').
    exists (withChildren (visited nodeMap) (id child) cell').
    split; last done.
    destruct (linkNodes_spec nodeMap) as [_ ->]. by rewrite Hcell'.
Qed.

End with_index.

End link_facts.

Section sortChildren_facts.
Import ReadParameterTree TreeInvariants.

Implicit Types (cells : gmap Z Cell) (node child : RawNode) (t : TreeNode).

Lemma TreeNode_induction (P : TreeNode → Prop) :
  (∀ raw ty kids, Forall P kids → P (mkTreeNode raw ty kids)) → ∀ t, P t.
Proof.
  intros H. fix IH 1. intros [raw ty kids]. apply H.
  induction kids as [|kid kids IHkids]; constructor; [apply IH | apply IHkids].
Qed.

Lemma hangs_unfold cells t :
  hangs cells t ↔
  (∃ cell,
     cells !! id (tn_raw t) = Some cell
     ∧ cell_raw cell = tn_raw t
     ∧ cell_parameterType cell = tn_parameterType t
     ∧ tn_raw <$> tn_children t = stableSort siblingOrder (cell_children cell))
  ∧ Forall (hangs cells) (tn_children t).
Proof.
  destruct t as [raw ty kids]. simpl.
  apply and_iff_compat_l.
  induction kids as [|kid kids IH]; first by rewrite Forall_nil.
  rewrite Forall_cons. by rewrite IH.
Qed.

Lemma childrenOrdered_unfold R t :
  childrenOrdered R t ↔
  StronglySorted R (childIndices t) ∧ Forall (childrenOrdered R) (tn_children t).
Proof.
  destruct t as [raw ty kids]. simpl.
  apply and_iff_compat_l.
  induction kids as [|kid kids IH]; first by rewrite Forall_nil.
  rewrite Forall_cons. by rewrite IH.
Qed.

Lemma sortChildren_S fuel cells node :
  sortChildren (S fuel) cells node
  = match cells !! id node with
    | None => Stuck
    | Some cell =>
        match toSorted compareSiblings (cell_children cell) with
        | Return sorted =>
            match mapO (sortChildren fuel cells) sorted with
            | Return children =>
                Return {| tn_raw := cell_raw cell;
                          tn_parameterType := cell_parameterType cell;
                          tn_children := children |}
            | Throw e => Throw e
            | Stuck => Stuck
            end
        | Throw e => Throw e
        | Stuck => Stuck
        end
    end.
Proof. reflexivity. Qed.

Lemma elem_of_sorted_children child (l : list RawNode) :
  child ∈ stableSort siblingOrder l ↔ child ∈ l.
Proof. apply elem_of_stableSort. Qed.

Section with_linked.
Context (keys : list Z) (cells : gmap Z Cell) (Hlinked : linked keys cells).

(** What [sortChildren] returns hangs below the object it was called on. *)
Lemma sortChildren_hangs fuel node t :
  (∃ cell, cells !! id node = Some cell ∧ cell_raw cell = node) →
  sortChildren fuel cells node = Return t →
  hangs cells t ∧ tn_raw t = node.
Proof.
  revert node t. induction fuel as [|fuel IH]; intros node t Hnode; first done.
  rewrite sortChildren_S. destruct Hnode as (cell & Hcell & Hraw). rewrite Hcell.
  destruct (toSorted compareSiblings (cell_children cell)) as [sorted| |] eqn:Hsorted;
    try done.
  apply toSorted_Return in Hsorted as [_ ->].
  destruct (mapO _ _) as [kids| |] eqn:Hkids; try done.
  intros [= <-]. split; last done.
  apply mapO_Return_inv in Hkids.
  assert (Forall (hangs cells) kids
          ∧ tn_raw <$> kids = stableSort siblingOrder (cell_children cell)) as [Hall Hraws].
  { assert (∀ child, child ∈ stableSort siblingOrder (cell_children cell) →
              ∃ cell', cells !! id child = Some cell' ∧ cell_raw cell' = child) as Hrefs.
    { intros child Hchild. rewrite elem_of_sorted_children in Hchild.
      by apply (linked_child _ _ Hlinked _ _ _ Hcell) in Hchild as [_ ?]. }
    induction Hkids as [|child kid sorted kids Hkid _ IHkids]; first done.
    destruct (IH child kid) as [Hh Hr]; [apply Hrefs; by left | done |].
    destruct IHkids as [Hall Hraws].
    { intros child' Hchild'. apply Hrefs. by right. }
    split; first by constructor. rewrite fmap_cons. by rewrite Hr, Hraws. }
  apply hangs_unfold. split; last done.
  exists cell. simpl. by rewrite Hraw.
Qed.

(** A node whose parent is the head of a chain without repetition does not
    lie on the chain. *)
Lemma chain_split path c k :
  chain cells path → c ∈ path → parentOf cells c = Some (Some k) →
  ∃ l1 l2, path = l1 ++ c :: k :: l2.
Proof.
  induction path as [|x rest IH]; intros Hchain Hc Hp.
  - by apply elem_of_nil in Hc.
  - destruct (decide (c = x)) as [->|Hne].
    + simpl in Hchain. destruct rest as [|p rest'].
      * congruence.
      * destruct Hchain as [Hx _]. rewrite Hx in Hp. injection Hp as ->.
        by exists [], rest'.
    + apply elem_of_cons in Hc as [?|Hc]; first done.
      destruct rest as [|p rest']; first by apply elem_of_nil in Hc.
      destruct Hchain as [_ Hchain].
      destruct (IH Hchain Hc Hp) as (l1 & l2 & ->).
      by exists (x :: l1), l2.
Qed.

Lemma chain_fresh k rest c :
  chain cells (k :: rest) → NoDup (k :: rest) →
  parentOf cells c = Some (Some k) → c ∉ k :: rest.
Proof.
  intros Hchain Hnd Hp Hc.
  destruct (chain_split _ _ _ Hchain Hc Hp) as (l1 & l2 & Heq).
  apply NoDup_cons in Hnd as [Hk _]. apply Hk.
  destruct l1 as [|k' l1]; simpl in Heq; injection Heq as -> ->.
  - by left.
  - apply elem_of_app. right. right. by left.
Qed.

(** [sortChildren] returns or throws the TypeError of a comparison: the
    path from the node up to the root has no repetition and lies within the
    keys, so the recursion is no deeper than the number of keys; the
    TypeError needs a child whose sibling index is not a safe integer. *)
Lemma sortChildren_outcome fuel node rest :
  (∃ cell, cells !! id node = Some cell ∧ cell_raw cell = node) →
  chain cells (id node :: rest) →
  NoDup (id node :: rest) →
  (∀ k, k ∈ rest → k ∈ keys) →
  (length keys ≤ length rest + fuel)%nat →
  (∃ t, sortChildren fuel cells node = Return t)
  ∨ (sortChildren fuel cells node = Throw TypeError
     ∧ ∃ k cell child, cells !! k = Some cell ∧ child ∈ cell_children cell
                       ∧ ¬ isSafeInteger (siblingIndex child)).
Proof.
  revert node rest. induction fuel as [|fuel IH]; intros node rest Hnode Hchain Hnd Hin Hlen.
  - exfalso.
    assert (id node :: rest ⊆+ keys) as Hsub%submseteq_length.
    { apply NoDup_submseteq; first done.
      intros k [->|Hk]%elem_of_cons; last by apply Hin.
      destruct Hnode as (cell & Hcell & _).
      apply (linked_keys _ _ Hlinked). by rewrite Hcell. }
    simpl in Hsub. lia.
  - rewrite sortChildren_S. destruct Hnode as (cell & Hcell & Hraw). rewrite Hcell.
    destruct (toSorted_outcome (cell_children cell))
      as [Hcomparable|[-> (child & Hchild & Hunsafe)]];
      last (right; split; [done | by exists (id node), cell, child]).
    rewrite toSorted_compareSiblings, decide_True by done.
    destruct (mapO_Return_or_Throw (sortChildren fuel cells)
                (stableSort siblingOrder (cell_children cell)) TypeError
                (∃ k cell child, cells !! k = Some cell ∧ child ∈ cell_children cell
                                 ∧ ¬ isSafeInteger (siblingIndex child)))
      as [[kids ->]|[-> ?]]; [|left; by eexists|by right].
    intros child Hchild. rewrite elem_of_sorted_children in Hchild.
    apply (linked_child _ _ Hlinked _ _ _ Hcell) in Hchild as [Hp (cell' & Hcell' & Hraw')].
    assert (parentOf cells (id child) = Some (Some (id node))) as Hpc.
    { unfold parentOf. rewrite Hcell'. simpl. by rewrite Hraw', Hp. }
    apply (IH child (id node :: rest)).
    + by exists cell'.
    + simpl. done.
    + apply NoDup_cons. split; last done. by apply chain_fresh.
    + intros k [->|Hk]%elem_of_cons; last by apply Hin.
      apply (linked_keys _ _ Hlinked). by rewrite Hcell.
    + simpl. lia.
Qed.

(** The tree that hangs below an object whose nodes can all be sorted is
    what [sortChildren] returns for the object, when it returns. *)
Lemma hangs_sortChildren fuel t :
  hangs cells t →
  Forall (λ n, comparable (tn_raw <$> tn_children n)) (TreeShape.subtrees t) →
  sortChildren fuel cells (tn_raw t) = Return t
  ∨ sortChildren fuel cells (tn_raw t) = Stuck.
Proof.
  revert t. induction fuel as [|fuel IH]; intros t Hhangs Hsortable; first by right.
  rewrite sortChildren_S.
  apply hangs_unfold in Hhangs as [(cell & Hcell & Hraw & Hty & Hkids) Hall].
  rewrite Hcell.
  destruct t as [raw ty kids]. simpl in *.
  apply Forall_cons in Hsortable as [Hhere Hbelow]. simpl in Hhere.
  rewrite toSorted_compareSiblings, decide_True.
  2:{ eapply comparable_Permutation; last exact Hhere.
      rewrite Hkids. apply stableSort_Permutation. }
  rewrite <- Hkids, Hraw, Hty. clear Hkids Hhere Hcell.
  assert (mapO (sortChildren fuel cells) (tn_raw <$> kids) = Return kids
          ∨ mapO (sortChildren fuel cells) (tn_raw <$> kids) = Stuck) as [->| ->];
    [|by left|by right].
  induction kids as [|kid kids IHkids]; first by left.
  apply Forall_cons in Hall as [Hkid Hall].
  simpl in Hbelow. apply Forall_app in Hbelow as [Hbkid Hbelow].
  rewrite fmap_cons. cbn [mapO].
  destruct (IH kid Hkid Hbkid) as [->| ->]; last by right.
  destruct (IHkids Hall Hbelow) as [->| ->]; [by left | by right].
Qed.

End with_linked.

End sortChildren_facts.

Section buildParameterTree_facts.
Import ReadParameterTree TreeInvariants.

Implicit Types (database : TreeSource) (rows : list RawNode) (t : TreeNode).

Lemma loadParameterTypes_None (typeRows : list ParameterType) (k : Z) :
  loadParameterTypes typeRows !! k = None ↔ k ∉ pt_id <$> typeRows.
Proof.
  unfold loadParameterTypes.
  assert (∀ types : gmap Z ParameterType,
            foldl (λ types parameterType, <[pt_id parameterType := parameterType]> types)
                  types typeRows !! k = None
            ↔ types !! k = None ∧ k ∉ pt_id <$> typeRows) as Hgen.
  { induction typeRows as [|ty typeRows IH]; intros types; simpl.
    - split; [intros ?; split; [done | apply not_elem_of_nil] | by intros [? _]].
    - rewrite IH, lookup_insert_None, not_elem_of_cons. naive_solver. }
  rewrite Hgen, lookup_empty. naive_solver.
Qed.

Lemma lastRoot_Some nodes root :
  lastRoot nodes = Some root → root ∈ nodes ∧ parentNodeId root = None.
Proof.
  unfold lastRoot. intros Hlast%last_Some_elem_of.
  apply list_elem_of_filter in Hlast. tauto.
Qed.

Lemma lastRoot_None nodes :
  lastRoot nodes = None ↔ ∀ node, node ∈ nodes → parentNodeId node ≠ None.
Proof.
  unfold lastRoot. rewrite last_None. split.
  - intros Hnil node Hnode Hp.
    assert (node ∈ filter (λ node, parentNodeId node = None) nodes) as Hin
      by by apply list_elem_of_filter.
    rewrite Hnil in Hin. by apply elem_of_nil in Hin.
  - intros Hall. destruct (filter _ nodes) as [|node l] eqn:Hf; first done.
    assert (node ∈ filter (λ node, parentNodeId node = None) nodes) as Hin
      by (rewrite Hf; left).
    apply list_elem_of_filter in Hin as [Hp Hin]. by destruct (Hall node).
Qed.

(** After the two loops [buildParameterTree] is [sortChildren] at the
    root. *)
Lemma buildParameterTree_sortChildren database rootParameterTypeId nodeMap root :
  indexNodes (loadParameterTypes (db_parameterTypes database))
             (db_treeNodes database rootParameterTypeId) nodeMap_empty
  = Return nodeMap →
  lastRoot (visited nodeMap) = Some root →
  buildParameterTree database rootParameterTypeId
  = sortChildren (length (nm_keys nodeMap)) (linkNodes nodeMap).2 root.
Proof.
  intros Hidx Hlast. unfold buildParameterTree. rewrite Hidx. simpl.
  destruct (linkNodes_spec nodeMap) as [Hroot _].
  destruct (linkNodes nodeMap) as [root' cells]. simpl in *.
  by rewrite Hroot, Hlast.
Qed.

(** The four ways in which [buildParameterTree] ends. *)
Lemma buildParameterTree_spec database rootParameterTypeId :
  let types := loadParameterTypes (db_parameterTypes database) in
  let rows := db_treeNodes database rootParameterTypeId in
  (∃ r, r ∈ rows ∧ types !! parameterTypeId r = None
        ∧ buildParameterTree database rootParameterTypeId
          = Throw (UnknownTypeError (parameterTypeId r) (id r)))
  ∨ (∃ nodeMap,
       indexNodes types rows nodeMap_empty = Return nodeMap
       ∧ indexed types rows nodeMap
       ∧ ((lastRoot (visited nodeMap) = None
           ∧ buildParameterTree database rootParameterTypeId
             = Throw (NoRootError rootParameterTypeId))
          ∨ (∃ root t,
               lastRoot (visited nodeMap) = Some root
               ∧ buildParameterTree database rootParameterTypeId = Return t
               ∧ hangs (linkNodes nodeMap).2 t
               ∧ tn_raw t = root)
          ∨ (∃ root r,
               lastRoot (visited nodeMap) = Some root
               ∧ buildParameterTree database rootParameterTypeId = Throw TypeError
               ∧ r ∈ visited nodeMap
               ∧ ¬ isSafeInteger (siblingIndex r)))).
Proof.
  intros types rows.
  destruct (indexNodes types rows nodeMap_empty) as [nodeMap|e|] eqn:Hidx.
  - right. exists nodeMap. split; first done.
    assert (indexed types rows nodeMap) as Hindexed.
    { eapply indexNodes_indexed; [done | done | apply indexed_empty]. }
    split; first done.
    pose proof (linkNodes_linked _ _ _ Hindexed) as Hlinked.
    destruct (lastRoot (visited nodeMap)) as [root'|] eqn:Hlast.
    + right. rewrite (buildParameterTree_sortChildren _ _ _ _ Hidx Hlast).
      destruct (linkNodes_spec nodeMap) as [_ Hcells].
      apply lastRoot_Some in Hlast as [Hvisited Hp].
      apply (visited_cell _ _ _ Hindexed) in Hvisited as (cell0 & Hcell0 & Hraw0).
      assert (∃ cell, (linkNodes nodeMap).2 !! id root' = Some cell
                      ∧ cell_raw cell = root') as Hcell.
      { rewrite Hcells, Hcell0. by eexists. }
      destruct (sortChildren_outcome _ _ Hlinked (length (nm_keys nodeMap)) root' [])
        as [[t Ht]|[Ht (k & cell & child & Hk & Hchild & Hunsafe)]]; [done | | | | | |].
      * simpl. destruct Hcell as (cell & Hcell & Hraw).
        unfold parentOf. rewrite Hcell. simpl. by rewrite Hraw, Hp.
      * apply NoDup_singleton.
      * by intros k ?%elem_of_nil.
      * simpl. lia.
      * left. exists root', t. split; first done. split; first done.
        by apply (sortChildren_hangs _ _ Hlinked) in Ht.
      * right. exists root', child. split; first done. split; first done.
        split; last done.
        apply (linked_lookup _ _ _ Hindexed) in Hk as (_ & _ & _ & _ & Hchildren).
        rewrite Hchildren in Hchild. unfold childrenOf in Hchild.
        by apply list_elem_of_filter in Hchild as [_ ?].
    + left. split; first done.
      unfold buildParameterTree. fold types rows. rewrite Hidx. simpl.
      destruct (linkNodes_spec nodeMap) as [Hroot _].
      destruct (linkNodes nodeMap) as [root cells]. simpl in *.
      by rewrite Hroot, Hlast.
  - left. destruct (indexNodes_Throw_inv _ _ _ _ Hidx) as (r & Hr & Hnone & ->).
    exists r. split; first done. split; first done.
    unfold buildParameterTree. fold types rows. by rewrite Hidx.
  - by destruct (indexNodes_not_Stuck types rows nodeMap_empty).
Qed.

End buildParameterTree_facts.

Section tree_shape.
Import ReadParameterTree TreeInvariants.

Implicit Types (database : TreeSource) (rows : list RawNode) (t : TreeNode).

Lemma elem_of_flat_map {A B} (f : A → list B) (l : list A) (y : B) :
  y ∈ flat_map f l ↔ ∃ x, x ∈ l ∧ y ∈ f x.
Proof.
  rewrite list_elem_of_In, in_flat_map.
  split; intros (x & Hx & Hy); exists x; by rewrite ?list_elem_of_In in *.
Qed.

Lemma nodesOf_unfold t : nodesOf t = tn_raw t :: flat_map nodesOf (tn_children t).
Proof. by destruct t. Qed.

Lemma NoDup_fmap_eq {A B} (f : A → B) (l : list A) x y :
  NoDup (f <$> l) → x ∈ l → y ∈ l → f x = f y → x = y.
Proof.
  induction l as [|z l IH]; intros Hnd Hx Hy Hf.
  - by apply elem_of_nil in Hx.
  - rewrite fmap_cons in Hnd. apply NoDup_cons in Hnd as [Hz Hnd].
    apply elem_of_cons in Hx as [->|Hx]; apply elem_of_cons in Hy as [->|Hy].
    + done.
    + destruct Hz. rewrite Hf. by apply list_elem_of_fmap_2.
    + destruct Hz. rewrite <- Hf. by apply list_elem_of_fmap_2.
    + by apply IH.
Qed.

(** With distinct ids the second loop visits the rows in row order. *)
Lemma visited_rows types rows nodeMap :
  indexNodes types rows nodeMap_empty = Return nodeMap →
  NoDup (id <$> rows) →
  visited nodeMap = rows.
Proof.
  intros Hidx Hnd.
  destruct (indexNodes_distinct types rows nodeMap_empty nodeMap Hidx Hnd)
    as (Hkeys & Hcells & _).
  { intros r _. apply lookup_empty. }
  unfold visited, nodeMap_values. rewrite Hkeys. simpl.
  clear Hkeys Hidx Hnd. induction rows as [|r rows IH]; first done.
  simpl. destruct (Hcells r) as (cell & -> & Hraw); first by left.
  simpl. rewrite Hraw. f_equal. apply IH. intros r' Hr'. apply Hcells. by right.
Qed.

Section with_linked.
Context (keys : list Z) (cells : gmap Z Cell) (Hlinked : linked keys cells).

Lemma hangs_ordered_le t : hangs cells t → childrenOrdered Z.le t.
Proof.
  induction t as [raw ty kids IH] using TreeNode_induction.
  rewrite hangs_unfold, childrenOrdered_unfold. simpl.
  intros [(cell & _ & _ & _ & Hkids) Hall]. split.
  - unfold childIndices. simpl.
    rewrite (list_fmap_compose tn_raw siblingIndex), Hkids.
    eapply StronglySorted_fmap;
      last by apply (stableSort_sorted siblingOrder siblingIndex).
    done.
  - rewrite Forall_forall in IH, Hall. apply Forall_forall.
    intros kid Hkid. by apply IH, Hall.
Qed.

Lemma hangs_ordered_lt t :
  (∀ k cell, cells !! k = Some cell → NoDup (siblingIndex <$> cell_children cell)) →
  hangs cells t → childrenOrdered Z.lt t.
Proof.
  intros Hdistinct.
  induction t as [raw ty kids IH] using TreeNode_induction.
  rewrite hangs_unfold, childrenOrdered_unfold. simpl.
  intros [(cell & Hcell & _ & _ & Hkids) Hall]. split.
  - apply StronglySorted_le_lt.
    + unfold childIndices. simpl.
      rewrite (list_fmap_compose tn_raw siblingIndex), Hkids.
      eapply StronglySorted_fmap;
        last by apply (stableSort_sorted siblingOrder siblingIndex).
      done.
    + unfold childIndices. simpl.
      rewrite (list_fmap_compose tn_raw siblingIndex), Hkids.
      rewrite stableSort_Permutation. by eapply Hdistinct.
  - rewrite Forall_forall in IH, Hall. apply Forall_forall.
    intros kid Hkid. by apply IH, Hall.
Qed.

(** Every node of the tree is an object of the map, and it is the root of
    the tree or names another node of the tree as its parent. *)
Lemma hangs_nodes t node :
  hangs cells t → node ∈ nodesOf t →
  (∃ cell, cells !! id node = Some cell ∧ cell_raw cell = node)
  ∧ (node = tn_raw t
     ∨ ∃ parent, parent ∈ nodesOf t ∧ parentNodeId node = Some (id parent)).
Proof.
  revert node. induction t as [raw ty kids IH] using TreeNode_induction.
  intros node. rewrite hangs_unfold, nodesOf_unfold. simpl.
  intros [(cell & Hcell & Hraw & _ & Hkids) Hall] [->|Hnode]%elem_of_cons.
  - split; [by exists cell | by left].
  - apply elem_of_flat_map in Hnode as (kid & Hkid & Hnode).
    rewrite Forall_forall in IH, Hall.
    destruct (IH kid Hkid node (Hall kid Hkid) Hnode) as [Hobj Hup].
    split; first done. right. destruct Hup as [->|(parent & Hparent & Hp)].
    + exists raw. split; first by left.
      assert (tn_raw kid ∈ cell_children cell) as Hchild.
      { apply elem_of_sorted_children. rewrite <- Hkids.
        by apply list_elem_of_fmap_2. }
      by apply (linked_child _ _ Hlinked _ _ _ Hcell) in Hchild as [? _].
    + exists parent. split; last done.
      right. apply elem_of_flat_map. by exists kid.
Qed.

End with_linked.

End tree_shape.

Section tree_claims.
Import ReadParameterTree TreeInvariants Examples.

Implicit Types (database : TreeSource) (rows : list RawNode) (t : TreeNode).

Lemma tie_rows_singleTree : singleTree tie_rows.
Proof.
  split.
  - apply (bool_decide_unpack _). vm_compute. exact I.
  - exists (rawNode 1 1 None 0). split; first by left. split; first done.
    split.
    + intros r Hr Hp. unfold tie_rows in Hr.
      repeat (apply elem_of_cons in Hr as [->|Hr]; try done).
      by apply elem_of_nil in Hr.
    + intros r Hr. unfold tie_rows in Hr.
      apply elem_of_cons in Hr as [->|Hr]; first constructor.
      assert (parentNodeId r = Some 1 ∧ r ∈ tie_rows) as [Hp Hin].
      { unfold tie_rows.
        repeat (apply elem_of_cons in Hr as [->|Hr];
                first (split; [done | by repeat constructor])).
        by apply elem_of_nil in Hr. }
      apply (under_child _ _ r 1); [done | done | constructor].
Qed.

(** C2 as stated fails: the rows of [tie_rows] form a single tree with one
    node without parent, and the two children of the root of the returned
    tree have the same sibling index. *)
Lemma children_not_strictly_ascending :
  ¬ (∀ database rootParameterTypeId t,
       singleTree (db_treeNodes database rootParameterTypeId) →
       buildParameterTree database rootParameterTypeId = Return t →
       childrenOrdered Z.lt t).
Proof.
  intros Hclaim.
  assert (∃ t, buildParameterTree tie_database 1 = Return t
               ∧ childIndices t = [0; 0]) as (t & Ht & Hindices).
  { eexists. split; vm_compute; reflexivity. }
  specialize (Hclaim tie_database 1 t tie_rows_singleTree Ht).
  apply childrenOrdered_unfold in Hclaim as [Hsorted _].
  rewrite Hindices in Hsorted.
  apply StronglySorted_inv in Hsorted as [_ Hlt].
  apply Forall_cons in Hlt as [Hlt _]. lia.
Qed.

End tree_claims.

Section tree_distinct_ids.
Import ReadParameterTree TreeInvariants Examples.

Implicit Types (database : TreeSource) (rows : list RawNode) (t : TreeNode).

(** The four ways in which [buildParameterTree] ends, for rows with
    distinct ids. *)
Lemma buildParameterTree_distinct database rootParameterTypeId :
  let types := loadParameterTypes (db_parameterTypes database) in
  let rows := db_treeNodes database rootParameterTypeId in
  NoDup (id <$> rows) →
  (∃ r, r ∈ rows ∧ types !! parameterTypeId r = None
        ∧ buildParameterTree database rootParameterTypeId
          = Throw (UnknownTypeError (parameterTypeId r) (id r)))
  ∨ ((∀ r, r ∈ rows → is_Some (types !! parameterTypeId r))
     ∧ ((lastRoot rows = None
         ∧ buildParameterTree database rootParameterTypeId
           = Throw (NoRootError rootParameterTypeId))
        ∨ (∃ root t keys cells,
             lastRoot rows = Some root
             ∧ buildParameterTree database rootParameterTypeId = Return t
             ∧ tn_raw t = root
             ∧ linked keys cells
             ∧ hangs cells t
             ∧ (∀ k cell, cells !! k = Some cell → cell_raw cell ∈ rows))
        ∨ (∃ root r,
             lastRoot rows = Some root
             ∧ buildParameterTree database rootParameterTypeId = Throw TypeError
             ∧ r ∈ rows
             ∧ ¬ isSafeInteger (siblingIndex r)))).
Proof.
  intros types rows Hnd.
  destruct (buildParameterTree_spec database rootParameterTypeId)
    as [Hthrow|(nodeMap & Hidx & Hindexed & Hrest)]; first by left.
  fold types rows in Hidx, Hindexed.
  right. split; first by eapply indexNodes_Return_types.
  rewrite (visited_rows _ _ _ Hidx Hnd) in Hrest.
  destruct Hrest as [?|[(root & t & Hlast & Hbuild & Hhangs & Hroot)|?]];
    [by left| |by right; right].
  right. left. exists root, t, (nm_keys nodeMap), (linkNodes nodeMap).2.
  split; first done. split; first done. split; first done.
  split; first by eapply linkNodes_linked. split; first done.
  intros k cell (cell0 & Hcell0 & -> & _)%(linked_lookup _ _ _ Hindexed).
  by apply (indexed_cell _ _ _ Hindexed) in Hcell0 as (_ & _ & ? & _).
Qed.

(** C2, as amended: [buildParameterTree] returns a tree when the row ids
    are distinct, every row refers to a loaded parameter type, some row has
    no parent id and the sibling indices are safe integers; in every tree
    that it returns, the children of every node, at every depth, are in
    ascending order of sibling index, and in strictly ascending order when
    no two rows with the same parent id share a sibling index. *)
Theorem buildParameterTree_children_ordered database rootParameterTypeId :
  let rows := db_treeNodes database rootParameterTypeId in
  (NoDup (id <$> rows) →
   (∀ r, r ∈ rows → parameterTypeId r ∈ pt_id <$> db_parameterTypes database) →
   (∃ r, r ∈ rows ∧ parentNodeId r = None) →
   (∀ r, r ∈ rows → isSafeInteger (siblingIndex r)) →
   ∃ t, buildParameterTree database rootParameterTypeId = Return t)
  ∧ ∀ t, buildParameterTree database rootParameterTypeId = Return t →
         childrenOrdered Z.le t
         ∧ ((∀ a b, a ∈ rows → b ∈ rows →
                    parentNodeId a = parentNodeId b →
                    siblingIndex a = siblingIndex b → a = b) →
            childrenOrdered Z.lt t).
Proof.
  intros rows. split.
  - intros Hnd Htypes (r0 & Hr0 & Hp0) Hsafe.
    destruct (buildParameterTree_distinct database rootParameterTypeId Hnd)
      as [(r & Hr & Hnone & _)
         |[_ [[Hnone _]|[(root & t & _ & _ & _ & Hbuild & _)|(_ & r & _ & _ & Hr & Hbig)]]]].
    + apply loadParameterTypes_None in Hnone. by destruct Hnone; apply Htypes.
    + rewrite lastRoot_None in Hnone. by destruct (Hnone r0).
    + by exists t.
    + by destruct Hbig; apply Hsafe.
  - intros t Hbuild.
    destruct (buildParameterTree_spec database rootParameterTypeId)
      as [(r & _ & _ & Heq)
         |(nodeMap & Hidx & Hindexed
           & [[_ Heq]|[(root & t' & _ & Heq & Hhangs & _)|(_ & _ & _ & Heq & _)]])];
      try congruence.
    assert (t' = t) as -> by congruence.
    pose proof (linkNodes_linked _ _ _ Hindexed) as Hlinked.
    split; first by eapply hangs_ordered_le.
    intros Hdistinct. eapply hangs_ordered_lt; last done.
    intros k cell (_ & _ & _ & _ & ->)%(linked_lookup _ _ _ Hindexed).
    unfold childrenOf. apply NoDup_fmap_2_strong.
    + intros a b [Ha Hva]%list_elem_of_filter [Hb Hvb]%list_elem_of_filter Hs.
      apply Hdistinct; [by eapply visited_all | by eapply visited_all | congruence | done].
    + apply NoDup_filter. by eapply visited_NoDup.
Qed.

Lemma buildParameterTree_children_ordered_witness :
  ∃ t, buildParameterTree sample_database 1 = Return t
       ∧ childrenOrdered Z.le t ∧ childrenOrdered Z.lt t.
Proof.
  destruct (buildParameterTree_children_ordered sample_database 1) as [Hreturns Hordered].
  destruct Hreturns as [t Ht].
  - apply (bool_decide_unpack _). vm_compute. exact I.
  - intros r Hr. apply (bool_decide_unpack _). simpl in Hr. unfold sample_rows in Hr.
    repeat (apply elem_of_cons in Hr as [->|Hr]; first (vm_compute; exact I)).
    by apply elem_of_nil in Hr.
  - exists (rawNode 1 1 None 0). split; [by left | done].
  - intros r Hr. apply (bool_decide_unpack _). simpl in Hr. unfold sample_rows in Hr.
    repeat (apply elem_of_cons in Hr as [->|Hr]; first (vm_compute; exact I)).
    by apply elem_of_nil in Hr.
  - exists t. split; first done.
    destruct (Hordered t Ht) as [Hle Hlt]. split; first done.
    apply Hlt. intros a b Ha Hb. simpl in Ha, Hb. unfold sample_rows in Ha, Hb.
    repeat (apply elem_of_cons in Ha as [->|Ha]);
      try (by apply elem_of_nil in Ha);
      repeat (apply elem_of_cons in Hb as [->|Hb]);
      try (by apply elem_of_nil in Hb);
      vm_compute; congruence.
Defined.

(** The sample rows, loaded out of order, give the children of the root in
    the order 3, 6, 2 and those of node 3 in the order 5, 4. *)
Example sample_tree_order :
  (λ t, (id <$> nodesOf t, childIndices t))
    <$> buildParameterTree sample_database 1
  = Return ([1; 3; 5; 4; 6; 2], [0; 1; 2]).
Proof. vm_compute. reflexivity. Qed.

Lemma lastRoot_split before root after :
  parentNodeId root = None →
  (∀ r, r ∈ after → parentNodeId r ≠ None) →
  lastRoot (before ++ root :: after) = Some root.
Proof.
  intros Hroot Hafter. unfold lastRoot.
  rewrite filter_app, filter_cons_True by done.
  assert (filter (λ node, parentNodeId node = None) after = []) as ->.
  { apply last_None. by apply lastRoot_None. }
  apply last_snoc.
Qed.

(** C4, as amended: when the row ids are distinct, every row refers to a
    loaded parameter type, the sibling indices are safe integers and at
    least one row has no parent id, [buildParameterTree] returns, also when
    several rows have no parent id, and the root of the returned tree is
    the last row without parent id in row order. *)
Theorem buildParameterTree_last_root database rootParameterTypeId before root after :
  db_treeNodes database rootParameterTypeId = before ++ root :: after →
  NoDup (id <$> before ++ root :: after) →
  (∀ r, r ∈ before ++ root :: after →
        parameterTypeId r ∈ pt_id <$> db_parameterTypes database) →
  (∀ r, r ∈ before ++ root :: after → isSafeInteger (siblingIndex r)) →
  parentNodeId root = None →
  (∀ r, r ∈ after → parentNodeId r ≠ None) →
  ∃ t, buildParameterTree database rootParameterTypeId = Return t ∧ tn_raw t = root.
Proof.
  intros Hrows Hnd Htypes Hsafe Hroot Hafter.
  pose proof (lastRoot_split before root after Hroot Hafter) as Hlast.
  destruct (buildParameterTree_distinct database rootParameterTypeId)
    as [(r & Hr & Hnone & _)
       |[_ [[Hnone _]|[(root' & t & _ & _ & Hlast' & Hbuild & Hraw & _)
                      |(_ & r & _ & _ & Hr & Hbig)]]]];
    rewrite ?Hrows in *; try done.
  - apply loadParameterTypes_None in Hnone. by destruct Hnone; apply Htypes.
  - congruence.
  - exists t. split; first done. congruence.
  - by destruct Hbig; apply Hsafe.
Qed.

Lemma buildParameterTree_last_root_witness :
  ∃ t, buildParameterTree two_roots_database 1 = Return t
       ∧ tn_raw t = rawNode 2 4 None 1.
Proof.
  apply (buildParameterTree_last_root two_roots_database 1
           [rawNode 1 1 None 0] (rawNode 2 4 None 1) [rawNode 3 3 (Some 1) 0]).
  - reflexivity.
  - apply (bool_decide_unpack _). vm_compute. exact I.
  - intros r Hr. apply (bool_decide_unpack _).
    repeat (apply elem_of_cons in Hr as [->|Hr]; first (vm_compute; exact I)).
    by apply elem_of_nil in Hr.
  - intros r Hr. apply (bool_decide_unpack _).
    repeat (apply elem_of_cons in Hr as [->|Hr]; first (vm_compute; exact I)).
    by apply elem_of_nil in Hr.
  - reflexivity.
  - intros r Hr. apply elem_of_cons in Hr as [->|Hr]; first done.
    by apply elem_of_nil in Hr.
Defined.

(** C4 as stated fails: [two_roots_rows] has two rows without parent id,
    and the root of the returned tree is not the first of them. *)
Lemma first_null_parent_not_root :
  ¬ (∀ database rootParameterTypeId first,
       (1 < length (nullParentRows (db_treeNodes database rootParameterTypeId)))%nat →
       head (nullParentRows (db_treeNodes database rootParameterTypeId)) = Some first →
       ∃ t, buildParameterTree database rootParameterTypeId = Return t
            ∧ tn_raw t = first).
Proof.
  intros Hclaim.
  destruct (Hclaim two_roots_database 1 (rawNode 1 1 None 0)) as (t & Ht & Hfirst).
  - vm_compute. lia.
  - reflexivity.
  - assert (buildParameterTree two_roots_database 1
            = Return {| tn_raw := rawNode 2 4 None 1;
                        tn_parameterType := parameterType 4 "Settings" 36;
                        tn_children := [] |}) as Heq
      by (vm_compute; reflexivity).
    rewrite Heq in Ht. injection Ht as <-. done.
Qed.

(** C10, as amended: a row whose parent id is the id of no loaded row does
    not make [buildParameterTree] throw: when the row ids are distinct,
    every row refers to a loaded parameter type, the sibling indices are
    safe integers and some row has no parent id, a tree is returned, and
    neither that row nor any row below it is a node of the tree. *)
Theorem buildParameterTree_orphan_omitted database rootParameterTypeId orphan parent :
  let rows := db_treeNodes database rootParameterTypeId in
  NoDup (id <$> rows) →
  (∀ r, r ∈ rows → parameterTypeId r ∈ pt_id <$> db_parameterTypes database) →
  (∀ r, r ∈ rows → isSafeInteger (siblingIndex r)) →
  (∃ r, r ∈ rows ∧ parentNodeId r = None) →
  orphan ∈ rows → parentNodeId orphan = Some parent → parent ∉ id <$> rows →
  ∃ t, buildParameterTree database rootParameterTypeId = Return t
       ∧ ∀ d, under rows (id orphan) d → d ∉ id <$> nodesOf t.
Proof.
  intros rows Hnd Htypes Hsafe (r0 & Hr0 & Hp0) Horphan Hparent Hmissing.
  destruct (buildParameterTree_distinct database rootParameterTypeId Hnd)
    as [(r & Hr & Hnone & _)
       |[_ [[Hnone _]
           |[(root & t & keys & cells & Hlast & Hbuild & Hraw & Hlinked & Hhangs & Hcells)
            |(_ & r & _ & _ & Hr & Hbig)]]]];
    last by destruct Hbig; apply Hsafe.
  - apply loadParameterTypes_None in Hnone. by destruct Hnone; apply Htypes.
  - rewrite lastRoot_None in Hnone. by destruct (Hnone r0).
  - exists t. split; first done.
    apply lastRoot_Some in Hlast as [_ Hrootp].
    assert (∀ node, node ∈ nodesOf t →
              node ∈ rows
              ∧ ∀ p, parentNodeId node = Some p → p ∈ id <$> nodesOf t) as Hnodes.
    { intros node Hnode.
      destruct (hangs_nodes _ _ Hlinked t node Hhangs Hnode)
        as [(cell & Hcell & Hcraw) Hup].
      split; first (rewrite <- Hcraw; by eapply Hcells).
      intros p Hp. destruct Hup as [->|(q & Hq & Hpq)]; first congruence.
      assert (p = id q) as -> by congruence. by apply list_elem_of_fmap_2. }
    assert (∀ d, d ∈ rows → id d ∈ id <$> nodesOf t → d ∈ nodesOf t) as Hmember.
    { intros d Hd (node & Hid & Hnode)%list_elem_of_fmap.
      destruct (Hnodes node Hnode) as [Hrow _].
      by rewrite (NoDup_fmap_eq id rows d node Hnd Hd Hrow Hid). }
    intros d Hunder. induction Hunder as [|d p Hd Hp Hunder IH].
    + intros Hin%Hmember; last done.
      destruct (Hnodes orphan Hin) as [_ Hup].
      apply Hup in Hparent. apply Hmissing.
      apply list_elem_of_fmap in Hparent as (q & -> & Hq).
      apply list_elem_of_fmap_2. by apply Hnodes.
    + intros Hin%Hmember; last done.
      destruct (Hnodes d Hin) as [_ Hup]. by apply IH, Hup.
Qed.

Lemma buildParameterTree_orphan_omitted_witness :
  ∃ t, buildParameterTree orphan_database 1 = Return t
       ∧ ∀ d, under orphan_rows 3 d → d ∉ id <$> nodesOf t.
Proof.
  apply (buildParameterTree_orphan_omitted orphan_database 1
           (rawNode 3 4 (Some 9) 0) 9).
  - apply (bool_decide_unpack _). vm_compute. exact I.
  - intros r Hr. apply (bool_decide_unpack _). simpl in Hr. unfold orphan_rows in Hr.
    repeat (apply elem_of_cons in Hr as [->|Hr]; first (vm_compute; exact I)).
    by apply elem_of_nil in Hr.
  - intros r Hr. apply (bool_decide_unpack _). simpl in Hr. unfold orphan_rows in Hr.
    repeat (apply elem_of_cons in Hr as [->|Hr]; first (vm_compute; exact I)).
    by apply elem_of_nil in Hr.
  - exists (rawNode 1 1 None 0). split; [by left | done].
  - simpl. unfold orphan_rows. by repeat constructor.
  - reflexivity.
  - apply (bool_decide_unpack _). vm_compute. exact I.
Defined.

(** C10 as stated fails: in [orphan_duplicate_rows] every row refers to a
    loaded parameter type and node 1 has no parent id; the first row with
    the id 3 names the parent 9, which is the id of no row, and node 4,
    which hangs below it, is a node of the returned tree. *)
Lemma orphan_descendant_kept :
  ¬ (∀ database rootParameterTypeId orphan parent,
       let rows := db_treeNodes database rootParameterTypeId in
       (∀ r, r ∈ rows → parameterTypeId r ∈ pt_id <$> db_parameterTypes database) →
       (∃ r, r ∈ rows ∧ parentNodeId r = None) →
       orphan ∈ rows → parentNodeId orphan = Some parent → parent ∉ id <$> rows →
       ∃ t, buildParameterTree database rootParameterTypeId = Return t
            ∧ ∀ d, under rows (id orphan) d → d ∉ id <$> nodesOf t).
Proof.
  intros Hclaim.
  destruct (Hclaim orphan_duplicate_database 1 (rawNode 3 4 (Some 9) 0) 9)
    as (t & Ht & Homitted).
  - intros r Hr. apply (bool_decide_unpack _).
    simpl in Hr. unfold orphan_duplicate_rows in Hr.
    repeat (apply elem_of_cons in Hr as [->|Hr]; first (vm_compute; exact I)).
    by apply elem_of_nil in Hr.
  - exists (rawNode 1 1 None 0). split; [by left | done].
  - simpl. unfold orphan_duplicate_rows. by repeat constructor.
  - reflexivity.
  - apply (bool_decide_unpack _). vm_compute. exact I.
  - assert ((λ t, id <$> nodesOf t) <$> buildParameterTree orphan_duplicate_database 1
            = Return [1; 3; 4]) as Hnodes by (vm_compute; reflexivity).
    rewrite Ht in Hnodes. injection Hnodes as Hnodes.
    apply (Homitted 4).
    + apply (under_child _ _ (rawNode 4 3 (Some 3) 0) 3); [|done|constructor].
      simpl. unfold orphan_duplicate_rows. by repeat constructor.
    + rewrite Hnodes. by repeat constructor.
Qed.

(** A sibling index that is not a safe integer arrives as a BigInt, and
    sorting the two children of the root throws the TypeError. *)
Example buildParameterTree_bigint_index :
  buildParameterTree bigint_index_database 1 = Throw TypeError.
Proof. vm_compute. reflexivity. Qed.

(** The tree built from [orphan_rows] has the nodes 1 and 2 only. *)
Example orphan_tree_nodes :
  (λ t, id <$> nodesOf t) <$> buildParameterTree orphan_database 1
  = Return [1; 2].
Proof. vm_compute. reflexivity. Qed.

End tree_distinct_ids.

(** ** readParameterData.ts *)

Section readParameterData_facts.
Import ReadParameterTree Types ReadParameterData Examples.

Implicit Types (dataMap : gmap Z RawDataRow) (node : TreeNode) (row : RawDataRow).

Lemma extractValue_returns dataType row :
  ∃ v, extractValue dataType row = Return v.
Proof.
  unfold extractValue. repeat (case_decide; first by eexists).
  case_decide; last by eexists.
  destruct (dataBlob row) as [blob|]; last by eexists.
  destruct (decodeBlob_outcome blob) as [[_ ->]|[_ ->]]; by eexists.
Qed.

Lemma convertNode_unfold dataMap node :
  convertNode dataMap node
  = (value ← match dataMap !! id (tn_raw node) with
             | Some dataRow => extractValue (pt_dataType (tn_parameterType node)) dataRow
             | None => Return None
             end;
     children ← match tn_children node with
                | [] => Return None
                | _ :: _ => Some <$> mapO (convertNode dataMap) (tn_children node)
                end;
     Return {| name := default "" (pt_friendlyName (tn_parameterType node));
               urn := default "" (pt_urn (tn_parameterType node));
               value := value; children := children |}).
Proof. by destruct node. Qed.

(** [convertNode] returns for every tree. *)
Lemma convertNode_returns dataMap node : ∃ p, convertNode dataMap node = Return p.
Proof.
  induction node as [raw ty kids IH] using TreeNode_induction.
  rewrite convertNode_unfold. simpl.
  assert (∃ v, match dataMap !! id raw with
               | Some dataRow => extractValue (pt_dataType ty) dataRow
               | None => Return None
               end = Return v) as [v ->].
  { destruct (dataMap !! id raw); [apply extractValue_returns | by eexists]. }
  simpl. destruct kids as [|kid kids]; first by eexists.
  destruct (mapO_all_Return (convertNode dataMap) (kid :: kids)) as [ps ->];
    last by eexists.
  rewrite Forall_forall in IH. done.
Qed.

(** C6: for the data type codes double, single and duration,
    [extractValue] returns the value of the double column when that is not
    null, and the value of the single column when the double column is null
    and the single column is not. *)
Theorem extractValue_floating dataType row :
  dataType = DATA_TYPE_DOUBLE ∨ dataType = DATA_TYPE_SINGLE
  ∨ dataType = DATA_TYPE_DURATION →
  (∀ d, dataDouble row = Some d →
        extractValue dataType row = Return (Some (VNumber d)))
  ∧ (∀ s, dataDouble row = None → dataSingle row = Some s →
          extractValue dataType row = Return (Some (VNumber s))).
Proof.
  intros Hcode. unfold extractValue.
  rewrite decide_False by (unfold DATA_TYPE_NONE, DATA_TYPE_DICTIONARY, DATA_TYPE_DOUBLE,
    DATA_TYPE_SINGLE, DATA_TYPE_DURATION in *; lia).
  rewrite decide_False by (unfold DATA_TYPE_INT32_SINGLE, DATA_TYPE_INT32, DATA_TYPE_DOUBLE,
    DATA_TYPE_SINGLE, DATA_TYPE_DURATION in *; lia).
  rewrite decide_True by done.
  split.
  - by intros d ->.
  - by intros s -> ->.
Qed.

End readParameterData_facts.

Section readParameterData_claims.
Import ReadParameterTree Types ReadParameterData Examples.

Implicit Types (dataMap : gmap Z RawDataRow) (node : TreeNode) (row : RawDataRow).

Lemma extractValue_floating_witness :
  (∀ d, dataDouble single_only_row = Some d →
        extractValue DATA_TYPE_SINGLE single_only_row = Return (Some (VNumber d)))
  ∧ (∀ s, dataDouble single_only_row = None → dataSingle single_only_row = Some s →
          extractValue DATA_TYPE_SINGLE single_only_row = Return (Some (VNumber s))).
Proof.
  apply (extractValue_floating DATA_TYPE_SINGLE single_only_row).
  right. left. reflexivity.
Defined.

(** With only the single column populated the value is that of the single
    column, for each of the three floating codes. *)
Example extractValue_single_only :
  extractValue DATA_TYPE_DOUBLE single_only_row
  = Return (Some (VNumber (S754_finite false 5629499534213120 (-51))))
  ∧ extractValue DATA_TYPE_SINGLE single_only_row
    = Return (Some (VNumber (S754_finite false 5629499534213120 (-51))))
  ∧ extractValue DATA_TYPE_DURATION single_only_row
    = Return (Some (VNumber (S754_finite false 5629499534213120 (-51)))).
Proof. repeat split. Qed.

Lemma extractValue_no_value dataType row :
  dataType = DATA_TYPE_NONE ∨ dataType = DATA_TYPE_DICTIONARY
  ∨ dataType ∉ DATA_TYPES →
  extractValue dataType row = Return None.
Proof.
  intros Hcode. unfold extractValue.
  destruct Hcode as [->|[->|Hnot]]; [done | done |].
  unfold DATA_TYPES in Hnot.
  repeat (apply not_elem_of_cons in Hnot as [? Hnot]).
  repeat (rewrite decide_False; last tauto). done.
Qed.

(** C8: a node whose data row has the data type code for no value, the
    dictionary code or a code that [extractValue] has no case for is
    converted without an error to a parameter without value, with the name
    and the urn of the node's parameter type; when the node has children
    the parameter has the converted children in the same order, and no
    [children] otherwise. *)
Theorem convertNode_no_value dataMap node dataRow :
  dataMap !! id (tn_raw node) = Some dataRow →
  pt_dataType (tn_parameterType node) = DATA_TYPE_NONE
  ∨ pt_dataType (tn_parameterType node) = DATA_TYPE_DICTIONARY
  ∨ pt_dataType (tn_parameterType node) ∉ DATA_TYPES →
  extractValue (pt_dataType (tn_parameterType node)) dataRow = Return None
  ∧ ∃ converted,
      Forall2 (λ child p, convertNode dataMap child = Return p)
              (tn_children node) converted
      ∧ convertNode dataMap node
        = Return {| name := default "" (pt_friendlyName (tn_parameterType node));
                    urn := default "" (pt_urn (tn_parameterType node));
                    value := None;
                    children := match tn_children node with
                                | [] => None
                                | _ :: _ => Some converted
                                end |}.
Proof.
  intros Hrow Hcode.
  pose proof (extractValue_no_value _ dataRow Hcode) as Hvalue.
  split; first done.
  destruct (mapO_all_Return (convertNode dataMap) (tn_children node)) as [ps Hps].
  { intros child _. apply convertNode_returns. }
  exists ps. split; first by apply mapO_Return_inv.
  rewrite convertNode_unfold, Hrow, Hvalue. simpl.
  destruct (tn_children node) as [|kid kids]; first done.
  by rewrite Hps.
Qed.

Lemma convertNode_no_value_witness :
  extractValue (pt_dataType (tn_parameterType settings_node)) full_row = Return None
  ∧ ∃ converted,
      Forall2 (λ child p, convertNode {[3 := full_row]} child = Return p)
              (tn_children settings_node) converted
      ∧ convertNode {[3 := full_row]} settings_node
        = Return {| name := default "" (pt_friendlyName (tn_parameterType settings_node));
                    urn := default "" (pt_urn (tn_parameterType settings_node));
                    value := None;
                    children := match tn_children settings_node with
                                | [] => None
                                | _ :: _ => Some converted
                                end |}.
Proof.
  apply (convertNode_no_value {[3 := full_row]} settings_node full_row).
  - vm_compute. reflexivity.
  - right. left. reflexivity.
Defined.

(** The dictionary node of the sample: no value although every column of
    its row is populated, and both children in order. *)
Example convertNode_settings_node :
  convertNode {[3 := full_row]} settings_node
  = Return {| name := "Settings"; urn := "urn:Settings"; value := None;
              children := Some [
                {| name := "Temperature"; urn := "urn:Temperature";
                   value := None; children := None |};
                {| name := "Temperature"; urn := "urn:Temperature";
                   value := None; children := None |}] |}.
Proof. vm_compute. reflexivity. Qed.

End readParameterData_claims.

(** ** findParameter.ts *)

Section findParameter_facts.
Import Types FindParameter Examples.

Implicit Types (parameter found : ZmesParameter) (children : list ZmesParameter).

Lemma ZmesParameter_induction (P : ZmesParameter → Prop) :
  (∀ name urn value kids,
     (∀ l, kids = Some l → Forall P l) →
     P (mkZmesParameter name urn value kids)) →
  ∀ parameter, P parameter.
Proof.
  intros H. fix IH 1. intros [n u v [l|]]; apply H; intros l' Heq; last done.
  injection Heq as <-.
  induction l as [|child l IHl]; constructor; [apply IH | apply IHl].
Qed.

(** [find] returns the first element that passes the test. *)
Lemma find_first {A} (f : A → bool) (l : list A) :
  match List.find f l with
  | Some x => ∃ before after, l = before ++ x :: after ∧ f x = true
                              ∧ Forall (λ y, f y = false) before
  | None => Forall (λ y, f y = false) l
  end.
Proof.
  induction l as [|y l IH]; simpl; first constructor.
  destruct (f y) eqn:Hy.
  - exists [], l. by repeat split.
  - destruct (List.find f l) as [x|].
    + destruct IH as (before & after & -> & Hx & Hbefore).
      exists (y :: before), after. repeat split; [done | by constructor].
    + by constructor.
Qed.

Lemma find_app {A} (f : A → bool) (l1 l2 : list A) :
  List.find f (l1 ++ l2)
  = match List.find f l1 with Some x => Some x | None => List.find f l2 end.
Proof.
  induction l1 as [|y l1 IH]; simpl; first done.
  by destruct (f y).
Qed.

Lemma findParameterDeep_unfold parameter name :
  findParameterDeep parameter name
  = if decide (Types.name parameter = name) then Some parameter
    else match children parameter with
         | Some children =>
             (fix loop (rest : list ZmesParameter) : option ZmesParameter :=
                match rest with
                | [] => None
                | child :: rest' =>
                    match findParameterDeep child name with
                    | Some found => Some found
                    | None => loop rest'
                    end
                end) children
         | None => None
         end.
Proof. by destruct parameter. Qed.

Lemma preOrder_unfold parameter :
  preOrder parameter
  = parameter :: match children parameter with
                 | Some children => flat_map preOrder children
                 | None => []
                 end.
Proof. by destruct parameter. Qed.

(** The deep search is the shallow search on the pre-order list of nodes. *)
Lemma findParameterDeep_preOrder parameter name :
  findParameterDeep parameter name = findParameter (preOrder parameter) name.
Proof.
  induction parameter as [n u v cs IH] using ZmesParameter_induction.
  rewrite findParameterDeep_unfold, preOrder_unfold. unfold findParameter. simpl.
  destruct (decide (n = name)) as [Hn|Hn].
  - by rewrite bool_decide_eq_true_2.
  - rewrite bool_decide_eq_false_2 by done.
    destruct cs as [l|]; last done.
    specialize (IH l eq_refl).
    induction l as [|child l IHl]; first done.
    apply Forall_cons in IH as [Hchild Hl].
    simpl flat_map. rewrite find_app, Hchild. unfold findParameter.
    destruct (List.find _ (preOrder child)); first done.
    by apply IHl.
Qed.

(** C9: the shallow search returns the first of the supplied children
    whose name equals the query, and nothing when no child has that name;
    the deep search returns the first node with that name in the pre-order
    of the tree (the node itself, then the subtree of each child in order),
    and nothing when no node of the tree has that name. *)
Theorem findParameter_first_match (name : string) :
  (∀ children,
     match findParameter children name with
     | Some found =>
         ∃ before after, children = before ++ found :: after
                         ∧ Types.name found = name
                         ∧ Forall (λ child, Types.name child ≠ name) before
     | None => Forall (λ child, Types.name child ≠ name) children
     end)
  ∧ (∀ parameter,
       match findParameterDeep parameter name with
       | Some found =>
           ∃ before after, preOrder parameter = before ++ found :: after
                           ∧ Types.name found = name
                           ∧ Forall (λ node, Types.name node ≠ name) before
       | None => Forall (λ node, Types.name node ≠ name) (preOrder parameter)
       end).
Proof.
  assert (∀ l : list ZmesParameter,
            match findParameter l name with
            | Some found =>
                ∃ before after, l = before ++ found :: after
                                ∧ Types.name found = name
                                ∧ Forall (λ child, Types.name child ≠ name) before
            | None => Forall (λ child, Types.name child ≠ name) l
            end) as Hshallow.
  { intros l. unfold findParameter.
    pose proof (find_first (λ child, bool_decide (Types.name child = name)) l) as Hfind.
    destruct (List.find _ l) as [found|].
    - destruct Hfind as (before & after & -> & Hfound & Hbefore).
      exists before, after. split; first done.
      split; first by apply bool_decide_eq_true in Hfound.
      eapply Forall_impl; first exact Hbefore.
      intros child Hchild. by apply bool_decide_eq_false in Hchild.
    - eapply Forall_impl; first exact Hfind.
      intros child Hchild. by apply bool_decide_eq_false in Hchild. }
  split; first done.
  intros parameter. rewrite findParameterDeep_preOrder. apply Hshallow.
Qed.

(** The deep search finds the node named Sizes two levels down; the shallow
    search on the children of the root does not. *)
Example findParameter_minimal_record :
  findParameter (default [] (children (parameters minimal_record))) "Sizes" = None
  ∧ Types.value <$> findParameterDeep (parameters minimal_record) "Sizes"
    = Some (Some (VFloat64Array [S754_finite false 4503599627370496 (-52)])).
Proof. split; vm_compute; reflexivity. Qed.

End findParameter_facts.

(** ** toMeasurementXY.ts *)

Section toMeasurementXY_facts.
Import Types FindParameter ToMeasurementXY Examples.

Implicit Types (parameters : ZmesParameter) (record : ZmesRecord)
  (found : gmap string MeasurementVariable) (descriptor : VariableDescriptor).





Lemma projectRecord_app (measurements : list MeasurementXY) record :
  projectRecord measurements record = measurements ++ projectRecord [] record.
Proof.
  unfold projectRecord. destruct (buildVariables _); simpl; first done.
  by rewrite app_nil_r.
Qed.

Lemma foldl_projectRecord (measurements : list MeasurementXY) (l : list ZmesRecord) :
  foldl projectRecord measurements l
  = measurements ++ flat_map (projectRecord []) l.
Proof.
  revert measurements. induction l as [|record l IH]; intros measurements; simpl.
  - by rewrite app_nil_r.
  - rewrite IH, (projectRecord_app measurements). by rewrite <- app_assoc.
Qed.



(** A record with the two arrays and nothing else gives one measurement
    with empty metadata, no serial number, no software version and no
    numeric setting; a record whose node named Sizes holds a number gives
    none. *)
Example toMeasurementXY_minimal :
  (λ m, (measurement_id m, title m, dataType m,
         map_to_list (meta m), serialNumber (instrument (settings m)),
         software_version (software (instrument (settings m))),
         map_to_list (settings_numbers (settings m)),
         map_to_list (var_others (variables m))))
    <$> toMeasurementXY {| schemaVersion := 1; metadata := ∅;
                           records := [scalar_sizes_record; minimal_record] |}
  = [("1c90a5c0", "", "Size measurement", [], None, None, [], [])].
Proof. vm_compute. reflexivity. Qed.

End toMeasurementXY_facts.

(** ** parse.ts *)

Section parse_facts.
Import ReadParameterTree TreeInvariants Types ReadParameterData Parse Examples.

Lemma buildParameterTree_not_Stuck (database : TreeSource) rootParameterTypeId :
  buildParameterTree database rootParameterTypeId ≠ Stuck.
Proof.
  destruct (buildParameterTree_spec database rootParameterTypeId)
    as [(r & _ & _ & ->)
       |(nodeMap & _ & _ & [[_ ->]|[(root & t & _ & -> & _)|(_ & _ & _ & -> & _)]])];
    done.
Qed.

(** A record is built exactly when its tree is; an error of the tree builder
    is the error of [buildRecord]. *)
Lemma buildRecord_not_Stuck (database : Database) (raw : RawRecord) :
  buildRecord database raw ≠ Stuck.
Proof.
  unfold buildRecord.
  pose proof (buildParameterTree_not_Stuck (db_tree database) (rootParameterTypeId raw)).
  destruct (buildParameterTree _ _) as [tree|e|]; [|done|done].
  simpl. unfold readParameterData.
  by destruct (convertNode_returns (loadDataMap (db_data database) (raw_id raw)) tree)
    as [p ->].
Qed.

Lemma buildRecord_Throw (database : Database) (raw : RawRecord) e :
  buildRecord database raw = Throw e
  ↔ buildParameterTree (db_tree database) (rootParameterTypeId raw) = Throw e.
Proof.
  unfold buildRecord.
  destruct (buildParameterTree _ _) as [tree|e0|]; simpl;
    [|split; intros [= ->]; done|split; intros [=]].
  unfold readParameterData.
  destruct (convertNode_returns (loadDataMap (db_data database) (raw_id raw)) tree)
    as [p ->].
  split; intros [=].
Qed.

(** An error of the tree builder for some record is not caught: [parse]
    throws the error that the tree builder throws for a record. *)
Lemma parse_propagates (database : Database) (raw : RawRecord) e :
  raw ∈ db_records database →
  buildParameterTree (db_tree database) (rootParameterTypeId raw) = Throw e →
  ∃ raw' e',
    raw' ∈ db_records database
    ∧ buildParameterTree (db_tree database) (rootParameterTypeId raw') = Throw e'
    ∧ buildRecords database = Throw e'
    ∧ parse database = Throw e'.
Proof.
  intros Hraw Hthrow.
  destruct (mapO_Throw (buildRecord database) (db_records database) raw e)
    as (raw' & e' & Hraw' & Hbuild' & Hall).
  - intros y _. apply buildRecord_not_Stuck.
  - done.
  - by apply buildRecord_Throw.
  - exists raw', e'. split; first done.
    split; first by apply buildRecord_Throw.
    assert (buildRecords database = Throw e') as Hrecords by done.
    split; first done. unfold parse. by rewrite Hrecords.
Qed.

(** C5, as amended: for rows with distinct ids whose sibling indices are
    safe integers, [buildParameterTree] throws exactly when some row refers
    to a parameter type id that is not in the loaded registry or no row has
    a null parent id, and returns a tree otherwise; in the first case the
    error is the one for the unknown type, so the row is not dropped, and in
    the second case alone it is the one for the missing root; for distinct
    ids the only other error is the TypeError of the sort, which needs a
    sibling index that is not a safe integer; and an error of
    [buildParameterTree] for a record of the file is thrown by
    [buildRecords] and by [parse]. *)
Theorem buildParameterTree_throws_iff (database : TreeSource) rootParameterTypeId :
  let rows := db_treeNodes database rootParameterTypeId in
  let unknownType r :=
    parameterTypeId r ∉ pt_id <$> db_parameterTypes database in
  let safe := ∀ r, r ∈ rows → isSafeInteger (siblingIndex r) in
  NoDup (id <$> rows) →
  (safe →
   ((∃ e, buildParameterTree database rootParameterTypeId = Throw e)
    ↔ (∃ r, r ∈ rows ∧ unknownType r) ∨ (∀ r, r ∈ rows → parentNodeId r ≠ None))
   ∧ ((∃ t, buildParameterTree database rootParameterTypeId = Return t)
      ↔ (∀ r, r ∈ rows → ¬ unknownType r) ∧ (∃ r, r ∈ rows ∧ parentNodeId r = None)))
  ∧ ((∃ r, r ∈ rows ∧ unknownType r) →
     ∃ r, r ∈ rows ∧ unknownType r
          ∧ buildParameterTree database rootParameterTypeId
            = Throw (UnknownTypeError (parameterTypeId r) (id r)))
  ∧ ((∀ r, r ∈ rows → ¬ unknownType r) →
     (∀ r, r ∈ rows → parentNodeId r ≠ None) →
     buildParameterTree database rootParameterTypeId
     = Throw (NoRootError rootParameterTypeId))
  ∧ (∀ e, buildParameterTree database rootParameterTypeId = Throw e →
          (∃ r, r ∈ rows ∧ unknownType r)
          ∨ (∀ r, r ∈ rows → parentNodeId r ≠ None)
          ∨ (e = TypeError ∧ ∃ r, r ∈ rows ∧ ¬ isSafeInteger (siblingIndex r)))
  ∧ (∀ (file : Database) raw e,
       db_tree file = database → raw ∈ db_records file →
       Parse.rootParameterTypeId raw = rootParameterTypeId →
       buildParameterTree database rootParameterTypeId = Throw e →
       ∃ raw' e',
         raw' ∈ db_records file
         ∧ buildParameterTree database (Parse.rootParameterTypeId raw') = Throw e'
         ∧ buildRecords file = Throw e' ∧ parse file = Throw e').
Proof.
  intros rows unknownType safe Hnd.
  pose proof (buildParameterTree_distinct database rootParameterTypeId Hnd) as Hcases.
  fold rows in Hcases.
  assert (∀ r, unknownType r
               ↔ loadParameterTypes (db_parameterTypes database) !! parameterTypeId r = None)
    as Hunknown by (intros r; symmetry; apply loadParameterTypes_None).
  split; [|split; [|split; [|split]]].
  - intros Hsafe. split; split.
    + intros [e He].
      destruct Hcases
        as [(r & Hr & Hnone & _)
           |[_ [[Hnone _]|[(root & t & _ & _ & _ & Hret & _)|(_ & r & _ & _ & Hr & Hbig)]]]].
      * left. exists r. split; first done. by apply Hunknown.
      * right. by apply lastRoot_None.
      * congruence.
      * by destruct Hbig; apply Hsafe.
    + intros Hab.
      destruct Hcases
        as [(r & _ & _ & ->)
           |[Hall [[_ ->]|[(root & t & _ & _ & Hlast & _)|(root & _ & Hlast & -> & _)]]]];
        [by eexists | by eexists | | by eexists].
      destruct Hab as [(r & Hr & Hr')|Hnoroot].
      * apply Hunknown in Hr'. destruct (Hall r Hr). congruence.
      * apply lastRoot_None in Hnoroot. congruence.
    + intros [t Ht].
      destruct Hcases
        as [(r & _ & _ & Heq)
           |[Hall [[_ Heq]|[(root & t' & _ & _ & Hlast & _)|(_ & _ & _ & Heq & _)]]]];
        try congruence.
      split.
      * intros r Hr Hr'. apply Hunknown in Hr'. destruct (Hall r Hr). congruence.
      * apply lastRoot_Some in Hlast as [? ?]. by exists root.
    + intros [Hknown (r0 & Hr0 & Hp0)].
      destruct Hcases
        as [(r & Hr & Hnone & _)
           |[_ [[Hnone _]|[(root & t & _ & _ & _ & Hret & _)|(_ & r & _ & _ & Hr & Hbig)]]]].
      * destruct (Hknown r Hr). by apply Hunknown.
      * rewrite lastRoot_None in Hnone. by destruct (Hnone r0).
      * by exists t.
      * by destruct Hbig; apply Hsafe.
  - intros (r & Hr & Hr').
    destruct Hcases as [(r' & Hin & Hnone & ->)|[Hall _]].
    + exists r'. split; first done. split; last done. by apply Hunknown.
    + apply Hunknown in Hr'. destruct (Hall r Hr). congruence.
  - intros Hknown Hnoroot.
    destruct Hcases
      as [(r & Hr & Hnone & _)
         |[_ [[_ ->]|[(root & t & _ & _ & Hlast & _)|(root & _ & Hlast & _)]]]].
    + destruct (Hknown r Hr). by apply Hunknown.
    + done.
    + apply lastRoot_None in Hnoroot. congruence.
    + apply lastRoot_None in Hnoroot. congruence.
  - intros e He.
    destruct Hcases
      as [(r & Hr & Hnone & _)
         |[_ [[Hnone _]|[(root & t & _ & _ & _ & Hret & _)|(_ & r & _ & Heq & Hr & Hbig)]]]].
    + left. exists r. split; first done. by apply Hunknown.
    + right. left. by apply lastRoot_None.
    + congruence.
    + right. right. split; first congruence. by exists r.
  - intros file raw e <- Hraw <- Hthrow. by eapply parse_propagates.
Qed.

Lemma buildParameterTree_throws_iff_witness :
  (∃ e, buildParameterTree unknown_type_database 1 = Throw e)
  ↔ (∃ r, r ∈ db_treeNodes unknown_type_database 1
          ∧ parameterTypeId r ∉ pt_id <$> db_parameterTypes unknown_type_database)
    ∨ (∀ r, r ∈ db_treeNodes unknown_type_database 1 → parentNodeId r ≠ None).
Proof.
  refine (proj1 (proj1 (buildParameterTree_throws_iff unknown_type_database 1 _) _)).
  - apply (bool_decide_unpack _). vm_compute. exact I.
  - intros r Hr. apply (bool_decide_unpack _). simpl in Hr.
    repeat (apply elem_of_cons in Hr as [->|Hr]; first (vm_compute; exact I)).
    by apply elem_of_nil in Hr.
Defined.

(** C5 as stated fails: in [duplicate_id_database] both rows refer to a
    loaded parameter type and the first row has no parent id, and
    [buildParameterTree] throws. *)
Lemma throws_with_known_types_and_parentless_row :
  ¬ (∀ (database : TreeSource) rootParameterTypeId,
       let rows := db_treeNodes database rootParameterTypeId in
       (∃ e, buildParameterTree database rootParameterTypeId = Throw e)
       ↔ (∃ r, r ∈ rows ∧ parameterTypeId r ∉ pt_id <$> db_parameterTypes database)
         ∨ (∀ r, r ∈ rows → parentNodeId r ≠ None)).
Proof.
  intros Hclaim.
  destruct (proj1 (Hclaim duplicate_id_database 1)) as [(r & Hr & Hunknown)|Hnoroot].
  - exists (NoRootError 1). vm_compute. reflexivity.
  - apply Hunknown. apply (bool_decide_unpack _). simpl in Hr.
    repeat (apply elem_of_cons in Hr as [->|Hr]; first (vm_compute; exact I)).
    by apply elem_of_nil in Hr.
  - by apply (Hnoroot (rawNode 1 1 None 0)); first by left.
Qed.

(** The two errors on sample inputs: node 2 of [unknown_type_database]
    refers to type 8, and a tree without root row has no root. *)
Example buildParameterTree_errors :
  buildParameterTree unknown_type_database 1 = Throw (UnknownTypeError 8 2)
  ∧ buildParameterTree
      {| db_parameterTypes := sample_types;
         db_treeNodes := λ _, [rawNode 2 2 (Some 1) 0] |} 7
    = Throw (NoRootError 7).
Proof. split; vm_compute; reflexivity. Qed.

(** Of two rows with the same id only the later one is an object of
    [nodeMap], so a row without parent id that is replaced by a row with one
    leaves no root. *)
Example buildParameterTree_duplicate_id :
  buildParameterTree duplicate_id_database 1 = Throw (NoRootError 1).
Proof. vm_compute. reflexivity. Qed.

End parse_facts.

(** * Further properties *)

(** ** decodeBlob.ts *)

Section decodeBlob_more.
Import DecodeBlob DecodeBlobTest Examples.
Import Stdlib.Init.Byte.

Implicit Types (blob header : list byte) (i j k off : Z).

(** [findMarker] returns -1 exactly when the marker occurs nowhere in the
    blob; any other result is the least offset at which the marker occurs,
    and lies between 0 and the length of the blob minus six; a blob of fewer
    than six bytes gives -1. *)
Theorem findMarker_least blob :
  (findMarker blob = -1 ↔ ∀ k, ¬ marker_at blob k)
  ∧ (findMarker blob ≠ -1 →
     marker_at blob (findMarker blob)
     ∧ (∀ k, marker_at blob k → findMarker blob ≤ k)
     ∧ 0 ≤ findMarker blob ≤ byteLength blob - 6)
  ∧ (byteLength blob < 6 → findMarker blob = -1).
Proof.
  destruct (findMarker_spec blob) as [[Hf Hno]|[Hat Hmin]].
  - split; [|split]; [done | done | done].
  - pose proof (marker_at_bound _ _ Hat) as Hb.
    split; [|split].
    + split; [lia | intros Hno; by destruct (Hno _ Hat)].
    + done.
    + lia.
Qed.

Lemma findMarker_least_witness :
  marker_at test_blob (findMarker test_blob)
  ∧ (∀ k, marker_at test_blob k → findMarker test_blob ≤ k)
  ∧ 0 ≤ findMarker test_blob ≤ byteLength test_blob - 6.
Proof.
  apply (proj1 (proj2 (findMarker_least test_blob))). vm_compute. discriminate.
Defined.

(** [decodeBlob] returns at most one element for every 14 bytes of the
    blob. *)
Theorem decodeBlob_length_bound blob :
  ∃ result, decodeBlob blob = Return result
            ∧ Z.of_nat (length result) * 14 ≤ byteLength blob.
Proof.
  pose proof (byteLength_nonneg blob) as Hlen.
  destruct (decodeBlob_outcome blob) as [[_ ->]|[Hat ->]].
  - exists []. split; first done. simpl. lia.
  - eexists. split; first done.
    apply marker_at_bound in Hat.
    unfold entries, ENTRY_SIZE. rewrite length_fmap, length_seqZ.
    pose proof (Z.mul_div_le (byteLength blob - findMarker blob) 14 ltac:(lia)).
    assert (0 ≤ (byteLength blob - findMarker blob) `div` 14) by (apply Z.div_pos; lia).
    lia.
Qed.

Lemma marker_at_shift header blob k :
  0 ≤ k → marker_at (header ++ blob) (byteLength header + k) ↔ marker_at blob k.
Proof.
  intros Hk. unfold marker_at, byteLength.
  replace (Z.to_nat (Z.of_nat (length header) + k))
    with (length header + Z.to_nat k)%nat by lia.
  rewrite drop_app_add. split; intros [_ Hm]; (split; [lia | done]).
Qed.

Lemma float64_bytes_shift header blob off :
  0 ≤ off →
  float64_bytes (header ++ blob) (byteLength header + off) = float64_bytes blob off.
Proof.
  intros Hoff. unfold float64_bytes, byteLength.
  replace (Z.to_nat (Z.of_nat (length header) + off))
    with (length header + Z.to_nat off)%nat by lia.
  by rewrite drop_app_add.
Qed.

(** Bytes before the blob in which no marker begins are skipped: the result
    is that of the blob without them. *)
Theorem decodeBlob_skip_header header blob :
  (∀ k, 0 ≤ k < byteLength header → ¬ marker_at (header ++ blob) k) →
  decodeBlob (header ++ blob) = decodeBlob blob.
Proof.
  intros Hclean.
  assert (∀ k, marker_at (header ++ blob) k →
               byteLength header ≤ k ∧ marker_at blob (k - byteLength header)) as Hshift.
  { intros k Hk. pose proof (marker_at_bound _ _ Hk) as Hb.
    destruct (decide (k < byteLength header)) as [Hlt|Hge].
    - destruct (Hclean k); [lia | done].
    - split; first lia.
      apply (marker_at_shift header); first lia.
      by replace (byteLength header + (k - byteLength header)) with k by lia. }
  pose proof (byteLength_nonneg header) as Hh.
  destruct (decodeBlob_outcome blob) as [[Hno ->]|[Hat ->]].
  - destruct (decodeBlob_outcome (header ++ blob)) as [[_ ->]|[Hat' _]]; first done.
    apply Hshift in Hat' as [_ Hat']. by destruct (Hno _ Hat').
  - pose proof (marker_at_bound _ _ Hat) as Hb.
    destruct (findMarker_spec blob) as [[_ Hno]|[_ Hmin]]; first by destruct (Hno _ Hat).
    assert (findMarker (header ++ blob) = byteLength header + findMarker blob) as Hfirst.
    { apply findMarker_first.
      - apply marker_at_shift; [lia | done].
      - intros k [Hge Hk]%Hshift. specialize (Hmin _ Hk). lia. }
    rewrite decodeBlob_found; last first.
    { rewrite Hfirst. apply marker_at_shift; [lia | done]. }
    rewrite Hfirst. f_equal. unfold entries.
    rewrite byteLength_app.
    replace (byteLength header + byteLength blob - (byteLength header + findMarker blob))
      with (byteLength blob - findMarker blob) by lia.
    apply list_fmap_ext. intros n i Hi%lookup_seqZ. do 2 f_equal.
    replace (byteLength header + findMarker blob + i * ENTRY_SIZE + 6)
      with (byteLength header + (findMarker blob + i * ENTRY_SIZE + 6)) by lia.
    apply float64_bytes_shift. unfold ENTRY_SIZE. lia.
Qed.

(** A header without the byte 06 has no place at which a marker begins. *)
Lemma clean_header header blob :
  x06 ∉ header →
  ∀ k, 0 ≤ k < byteLength header → ¬ marker_at (header ++ blob) k.
Proof.
  intros Hclean k Hk [_ Hm]. apply Hclean.
  assert (header !! Z.to_nat k = Some x06) as Hbyte.
  { assert (take 6 (drop (Z.to_nat k) (header ++ blob)) !! 0%nat = Some x06) as H0
      by by rewrite Hm.
    rewrite lookup_take_lt, lookup_drop, Nat.add_0_r in H0 by lia.
    rewrite lookup_app_l in H0; first done.
    unfold byteLength in Hk. lia. }
  by eapply list_elem_of_lookup_2.
Qed.

Lemma decodeBlob_skip_header_witness :
  decodeBlob (replicate 10 x00 ++ drop 10 test_blob) = decodeBlob (drop 10 test_blob).
Proof.
  apply (decodeBlob_skip_header (replicate 10 x00) (drop 10 test_blob)).
  apply clean_header. apply (bool_decide_unpack _). vm_compute. exact I.
Defined.

Lemma encodeEntries_cons (payload : list byte) (payloads : list (list byte)) :
  encodeEntries (payload :: payloads)
  = (ENTRY_MARKER ++ payload) ++ encodeEntries payloads.
Proof. reflexivity. Qed.

Lemma encodeEntries_length (payloads : list (list byte)) :
  Forall (λ payload, length payload = 8%nat) payloads →
  byteLength (encodeEntries payloads) = 14 * Z.of_nat (length payloads).
Proof.
  unfold byteLength. induction 1 as [|payload payloads Hp _ IH]; first done.
  rewrite encodeEntries_cons, !length_app, Hp. simpl length. lia.
Qed.

(** The eight bytes that are read for element [n] of an encoded blob are the
    payload [n]. *)
Lemma encodeEntries_window (payloads : list (list byte)) (n : nat) payload :
  Forall (λ payload, length payload = 8%nat) payloads →
  payloads !! n = Some payload →
  float64_bytes (encodeEntries payloads) (0 + Z.of_nat n * 14 + 6) = payload.
Proof.
  intros Hall. revert n. unfold float64_bytes.
  induction Hall as [|p payloads Hp _ IH]; intros n Hn; first done.
  rewrite encodeEntries_cons. destruct n as [|n]; simpl in Hn.
  - injection Hn as ->.
    replace (Z.to_nat (0 + Z.of_nat 0 * 14 + 6)) with 6%nat by lia.
    rewrite <- !app_assoc. rewrite (drop_app_length' ENTRY_MARKER) by done.
    by rewrite take_app_length'.
  - replace (Z.to_nat (0 + Z.of_nat (S n) * 14 + 6))
      with (length (ENTRY_MARKER ++ p) + Z.to_nat (0 + Z.of_nat n * 14 + 6))%nat
      by (rewrite length_app, Hp; simpl length; lia).
    rewrite drop_app_add. by apply IH.
Qed.

(** Round trip with the blob that the test builds: a blob that consists of
    entries, each the marker followed by eight bytes, decodes to the doubles
    of those eight bytes, one per entry, in order. *)
Theorem decodeBlob_encodeEntries (payloads : list (list byte)) :
  Forall (λ payload, length payload = 8%nat) payloads →
  decodeBlob (encodeEntries payloads)
  = Return ((λ payload, float64_of_bits (le_bits payload)) <$> payloads).
Proof.
  intros Hall. destruct payloads as [|p0 payloads']; first by vm_compute.
  set (payloads := p0 :: payloads') in *.
  assert (marker_at (encodeEntries payloads) 0) as Hat.
  { split; first done. subst payloads. rewrite encodeEntries_cons.
    rewrite <- app_assoc. simpl. done. }
  assert (findMarker (encodeEntries payloads) = 0) as Hfirst.
  { apply findMarker_first; first done. by intros k [? _]. }
  rewrite decodeBlob_found by by rewrite Hfirst.
  rewrite Hfirst. f_equal. unfold entries.
  rewrite (encodeEntries_length _ Hall), Z.sub_0_r.
  unfold ENTRY_SIZE.
  replace ((14 * Z.of_nat (length payloads)) `div` 14)
    with (Z.of_nat (length payloads))
    by (rewrite Z.mul_comm, Z.div_mul; lia).
  apply list_eq. intros n. rewrite !list_lookup_fmap.
  destruct (payloads !! n) as [payload|] eqn:Hn.
  - rewrite lookup_seqZ_lt by (apply lookup_lt_Some in Hn; lia).
    cbn [fmap option_fmap option_map]. do 3 f_equal.
    replace (0 + Z.of_nat n) with (Z.of_nat n) by lia.
    by apply encodeEntries_window.
  - rewrite lookup_seqZ_ge; first done.
    apply lookup_ge_None in Hn. lia.
Qed.

Lemma decodeBlob_encodeEntries_witness :
  decodeBlob (encodeEntries [[x00; x00; x00; x00; x00; x40; x45; x40];
                             [x00; x00; x00; x00; x00; x00; x04; x40]])
  = Return ((λ payload, float64_of_bits (le_bits payload))
              <$> [[x00; x00; x00; x00; x00; x40; x45; x40];
                   [x00; x00; x00; x00; x00; x00; x04; x40]]).
Proof.
  apply decodeBlob_encodeEntries. by repeat constructor.
Defined.

(** Two lists that agree on a range of positions have the same window
    there. *)
Lemma window_agree (l l' : list byte) (a n : nat) :
  (∀ q : nat, (a ≤ q < a + n)%nat → l' !! q = l !! q) →
  take n (drop a l') = take n (drop a l).
Proof.
  intros Hagree. apply list_eq. intros m.
  destruct (decide (m < n)%nat) as [Hm|Hm].
  - rewrite !lookup_take_lt, !lookup_drop by done. apply Hagree. lia.
  - by rewrite !lookup_take_ge by lia.
Qed.

(** After the first marker only the eight bytes of every stride are read:
    a blob of the same length that agrees with [blob] up to the end of the
    first marker and on those bytes decodes to the same result, whatever it
    holds where the later markers of [blob] are. *)
Theorem decodeBlob_reads_payloads_only blob blob' :
  marker_at blob (findMarker blob) →
  length blob' = length blob →
  (∀ j : nat,
     Z.of_nat j < findMarker blob + 6
     ∨ (∃ i, 0 ≤ i ∧ findMarker blob + i * 14 + 6 ≤ Z.of_nat j
                    < findMarker blob + i * 14 + 14) →
     blob' !! j = blob !! j) →
  decodeBlob blob' = decodeBlob blob.
Proof.
  intros Hat Hlen Hagree.
  pose proof (marker_at_bound _ _ Hat) as Hb.
  destruct (findMarker_spec blob) as [[_ Hno]|[_ Hmin]]; first by destruct (Hno _ Hat).
  assert (∀ k, 0 ≤ k ≤ findMarker blob → marker_at blob' k ↔ marker_at blob k) as Hsame.
  { intros k Hk. unfold marker_at.
    rewrite (window_agree blob blob'); first done.
    intros j Hj. apply Hagree. left. lia. }
  assert (findMarker blob' = findMarker blob) as Hfirst.
  { apply findMarker_first.
    - apply Hsame; [lia | done].
    - intros k Hk. destruct (decide (findMarker blob ≤ k)); first done.
      apply Hmin. apply Hsame; last done.
      destruct Hk as [? _]. lia. }
  rewrite (decodeBlob_found blob) by done.
  rewrite decodeBlob_found; last first.
  { rewrite Hfirst. apply Hsame; [lia | done]. }
  rewrite Hfirst. f_equal. unfold entries, byteLength. rewrite Hlen.
  apply list_fmap_ext. intros n i Hi%lookup_seqZ. do 2 f_equal.
  unfold float64_bytes. apply window_agree.
  intros j Hj. apply Hagree. right. exists i. unfold ENTRY_SIZE in *. lia.
Qed.

Lemma decodeBlob_reads_payloads_only_witness :
  decodeBlob (ENTRY_MARKER ++ [x00; x00; x00; x00; x00; x40; x45; x40]
              ++ [xff; xff; xff; xff; xff; xff]
              ++ [x00; x00; x00; x00; x00; x00; x04; x40])
  = decodeBlob (encodeEntries [[x00; x00; x00; x00; x00; x40; x45; x40];
                               [x00; x00; x00; x00; x00; x00; x04; x40]]).
Proof.
  apply decodeBlob_reads_payloads_only.
  - vm_compute. split; [discriminate | reflexivity].
  - reflexivity.
  - intros j Hj.
    assert (findMarker (encodeEntries [[x00; x00; x00; x00; x00; x40; x45; x40];
                                       [x00; x00; x00; x00; x00; x00; x04; x40]]) = 0)
      as Hf by (vm_compute; reflexivity).
    rewrite Hf in Hj.
    assert ((j < 14)%nat ∨ (20 ≤ j)%nat) as [Hlow|Hhigh]
      by (destruct Hj as [?|(i & ? & ?)]; lia).
    + do 14 (destruct j as [|j]; first reflexivity). lia.
    + do 20 (destruct j as [|j]; first lia). reflexivity.
Defined.

End decodeBlob_more.

(** ** Finite maps filled by a loop *)

Section foldl_insert.
Context {K V A : Type} `{Countable K} (key : A → K) (val : A → V).

(** A map filled by [map.set(key(a), val(a))] for every [a] of a list holds
    at [k] the value of the last [a] with that key, and what it held before
    when there is none. *)
Lemma foldl_insert_lookup (l : list A) (m : gmap K V) (k : K) :
  foldl (λ m a, <[key a := val a]> m) m l !! k
  = match last (filter (λ a, key a = k) l) with
    | Some a => Some (val a)
    | None => m !! k
    end.
Proof.
  revert m. induction l as [|a l IH]; intros m; simpl; first done.
  rewrite IH, filter_cons. destruct (decide (key a = k)) as [<-|Hne].
  - rewrite last_cons. destruct (last _); first done. by rewrite lookup_insert_eq.
  - destruct (last _); first done. by rewrite lookup_insert_ne.
Qed.

End foldl_insert.

(** ** readParameterTree.ts *)

Section tree_more.
Import ReadParameterTree TreeInvariants TreeShape Examples.

Implicit Types (database : TreeSource) (rows : list RawNode) (t n : TreeNode).

Lemma subtrees_unfold t : subtrees t = t :: flat_map subtrees (tn_children t).
Proof. by destruct t. Qed.

Lemma nodesOf_subtrees t : nodesOf t = tn_raw <$> subtrees t.
Proof.
  induction t as [raw ty kids IH] using TreeNode_induction.
  rewrite nodesOf_unfold, subtrees_unfold. simpl. f_equal.
  induction IH as [|kid kids Hkid _ IHkids]; first done.
  simpl. by rewrite fmap_app, Hkid, IHkids.
Qed.

Lemma subtrees_self t : t ∈ subtrees t.
Proof. rewrite subtrees_unfold. by left. Qed.

Lemma subtrees_child t kid n :
  kid ∈ tn_children t → n ∈ subtrees kid → n ∈ subtrees t.
Proof.
  intros Hkid Hn. rewrite subtrees_unfold. right.
  apply elem_of_flat_map. by exists kid.
Qed.

Lemma hangs_subtree (cells : gmap Z Cell) t n :
  hangs cells t → n ∈ subtrees t → hangs cells n.
Proof.
  revert n. induction t as [raw ty kids IH] using TreeNode_induction.
  intros n Hhangs. rewrite subtrees_unfold. simpl.
  intros [->|Hn]%elem_of_cons; first done.
  apply elem_of_flat_map in Hn as (kid & Hkid & Hn).
  apply hangs_unfold in Hhangs as [_ Hall]. simpl in Hall.
  rewrite Forall_forall in IH, Hall.
  apply (IH kid Hkid n); [by apply Hall | done].
Qed.

Lemma loadParameterTypes_lookup (typeRows : list ParameterType) (k : Z) :
  loadParameterTypes typeRows !! k = last (filter (λ ty, pt_id ty = k) typeRows).
Proof.
  unfold loadParameterTypes.
  rewrite (foldl_insert_lookup pt_id (λ ty, ty)), lookup_empty.
  by destruct (last _).
Qed.

(** The tree that [buildParameterTree] returns, in terms of the nodes that
    the second loop visits: the root is the last of them without parent id,
    and every node of the tree is one of them, with the type that the
    registry holds for it and, for children, the sorted list of those that
    name it as parent. *)
Lemma buildParameterTree_Return database rootParameterTypeId t :
  let types := loadParameterTypes (db_parameterTypes database) in
  let rows := db_treeNodes database rootParameterTypeId in
  buildParameterTree database rootParameterTypeId = Return t →
  ∃ nodeMap,
    indexNodes types rows nodeMap_empty = Return nodeMap
    ∧ indexed types rows nodeMap
    ∧ lastRoot (visited nodeMap) = Some (tn_raw t)
    ∧ ∀ n, n ∈ subtrees t →
        tn_raw n ∈ visited nodeMap
        ∧ types !! parameterTypeId (tn_raw n) = Some (tn_parameterType n)
        ∧ tn_raw <$> tn_children n
          = stableSort siblingOrder (childrenOf (id (tn_raw n)) (visited nodeMap)).
Proof.
  intros types rows Hbuild.
  destruct (buildParameterTree_spec database rootParameterTypeId)
    as [(r & _ & _ & Heq)
       |(nodeMap & Hidx & Hindexed
         & [[_ Heq]|[(root & t' & Hlast & Heq & Hhangs & Hroot)|(_ & _ & _ & Heq & _)]])];
    try congruence.
  assert (t' = t) as -> by congruence.
  exists nodeMap. split; first done. split; first done.
  split; first by rewrite Hroot.
  intros n Hn. pose proof (hangs_subtree _ _ _ Hhangs Hn) as Hhn.
  apply hangs_unfold in Hhn as [(cell & Hcell & Hraw & Hty & Hkids) _].
  apply (linked_lookup _ _ _ Hindexed) in Hcell as (cell0 & Hcell0 & Hraw0 & Hty0 & Hch).
  split; [|split].
  - apply (visited_cell _ _ _ Hindexed). exists cell0. split; first done. congruence.
  - apply (indexed_cell _ _ _ Hindexed) in Hcell0 as (_ & _ & _ & Htypes).
    rewrite <- Hraw, Hraw0, <- Hty, Hty0. exact Htypes.
  - by rewrite Hkids, Hch.
Qed.

(** In a tree that [sortChildren] returns the children of every node
    could be compared. *)
Lemma sortChildren_comparable keys (cells : gmap Z Cell) fuel node t :
  linked keys cells →
  (∃ cell, cells !! id node = Some cell ∧ cell_raw cell = node) →
  sortChildren fuel cells node = Return t →
  Forall (λ n, comparable (tn_raw <$> tn_children n)) (subtrees t).
Proof.
  intros Hlinked. revert node t.
  induction fuel as [|fuel IH]; intros node t Hnode; first done.
  rewrite sortChildren_S. destruct Hnode as (cell & Hcell & Hraw). rewrite Hcell.
  destruct (toSorted compareSiblings (cell_children cell)) as [sorted| |] eqn:Hsorted;
    try done.
  apply toSorted_Return in Hsorted as [Hcomparable ->].
  destruct (mapO _ _) as [kids| |] eqn:Hkids; try done.
  intros [= <-]. apply mapO_Return_inv in Hkids.
  assert (∀ child, child ∈ stableSort siblingOrder (cell_children cell) →
            ∃ cell', cells !! id child = Some cell' ∧ cell_raw cell' = child) as Hrefs.
  { intros child Hchild. rewrite elem_of_sorted_children in Hchild.
    by apply (linked_child _ _ Hlinked _ _ _ Hcell) in Hchild as [_ ?]. }
  assert (tn_raw <$> kids = stableSort siblingOrder (cell_children cell)
          ∧ Forall (λ kid, Forall (λ n, comparable (tn_raw <$> tn_children n))
                                  (subtrees kid)) kids) as [Hraws Hall].
  { induction Hkids as [|child kid sorted kids Hkid _ IHkids]; first done.
    destruct (sortChildren_hangs _ _ Hlinked fuel child kid) as [_ Hr];
      [apply Hrefs; by left | done |].
    destruct IHkids as [Hraws Hall].
    { intros child' Hchild'. apply Hrefs. by right. }
    split; first by rewrite fmap_cons, Hr, Hraws.
    constructor; last done. eapply IH; last done. apply Hrefs. by left. }
  rewrite subtrees_unfold. cbn [tn_children]. constructor.
  - cbn [tn_children]. rewrite Hraws.
    eapply comparable_Permutation; last done.
    symmetry. apply stableSort_Permutation.
  - apply Forall_forall. intros n (kid & Hkid & Hn)%elem_of_flat_map.
    rewrite Forall_forall in Hall. specialize (Hall kid Hkid).
    rewrite Forall_forall in Hall. by apply Hall.
Qed.

Lemma buildParameterTree_comparable database rootParameterTypeId t :
  buildParameterTree database rootParameterTypeId = Return t →
  Forall (λ n, comparable (tn_raw <$> tn_children n)) (subtrees t).
Proof.
  intros Hbuild.
  destruct (buildParameterTree_spec database rootParameterTypeId)
    as [(r & _ & _ & Heq)
       |(nodeMap & Hidx & Hindexed
         & [[_ Heq]|[(root & t' & Hlast & Heq & Hhangs & Hroot)|(_ & _ & _ & Heq & _)]])];
    try congruence.
  rewrite (buildParameterTree_sortChildren _ _ _ _ Hidx Hlast) in Hbuild.
  eapply sortChildren_comparable; [by eapply linkNodes_linked| |exact Hbuild].
  apply lastRoot_Some in Hlast as [Hvisited _].
  apply (visited_cell _ _ _ Hindexed) in Hvisited as (cell0 & Hcell0 & Hraw0).
  destruct (linkNodes_spec nodeMap) as [_ Hcells].
  rewrite Hcells, Hcell0. by eexists.
Qed.

(** A tree hangs below its root when every node of it hangs below its
    object. *)
Lemma hangs_intro (cells : gmap Z Cell) t :
  (∀ n, n ∈ subtrees t →
        ∃ cell, cells !! id (tn_raw n) = Some cell
                ∧ cell_raw cell = tn_raw n
                ∧ cell_parameterType cell = tn_parameterType n
                ∧ tn_raw <$> tn_children n
                  = stableSort siblingOrder (cell_children cell)) →
  hangs cells t.
Proof.
  induction t as [raw ty kids IH] using TreeNode_induction.
  intros Hnodes. apply hangs_unfold. split; first apply Hnodes, subtrees_self.
  rewrite Forall_forall in IH. apply Forall_forall. intros kid Hkid.
  apply IH; first done. intros n Hn. apply Hnodes. by eapply subtrees_child.
Qed.

(** Elements with the same key keep their order under the stable sort. *)
Lemma stableSort_stable {A} (compare : A → A → Z) (key : A → Z) (l : list A) (s : Z) :
  (∀ a b, compare a b = key a - key b) →
  filter (λ a, key a = s) (stableSort compare l) = filter (λ a, key a = s) l.
Proof.
  intros Hcompare.
  assert (∀ x l', filter (λ a, key a = s) (insertStable compare x l')
                  = filter (λ a, key a = s) (x :: l')) as Hinsert.
  { intros x l'. induction l' as [|y l' IH]; simpl; first done.
    rewrite Hcompare. case_decide as Hc; first done.
    rewrite filter_cons, IH, !filter_cons.
    destruct (decide (key y = s)), (decide (key x = s)); (done || lia). }
  induction l as [|x l IH]; simpl; first done.
  fold (stableSort compare l). by rewrite Hinsert, !filter_cons, IH.
Qed.

(** The children of every node of the returned tree are the rows that name
    the node as parent, each once; the root is a row without parent id. *)
Theorem buildParameterTree_children_are_rows database rootParameterTypeId t :
  let rows := db_treeNodes database rootParameterTypeId in
  NoDup (id <$> rows) →
  buildParameterTree database rootParameterTypeId = Return t →
  tn_raw t ∈ rows ∧ parentNodeId (tn_raw t) = None
  ∧ ∀ n, n ∈ subtrees t →
      tn_raw <$> tn_children n
      ≡ₚ filter (λ r, parentNodeId r = Some (id (tn_raw n))) rows.
Proof.
  intros rows Hnd Hbuild.
  destruct (buildParameterTree_Return _ _ _ Hbuild)
    as (nodeMap & Hidx & Hindexed & Hlast & Hnodes).
  rewrite (visited_rows _ _ _ Hidx Hnd) in Hlast, Hnodes.
  apply lastRoot_Some in Hlast as [Hroot Hp].
  split; first done. split; first done.
  intros n Hn. destruct (Hnodes n Hn) as (_ & _ & ->).
  apply stableSort_Permutation.
Qed.

Lemma buildParameterTree_children_are_rows_witness :
  ∃ t, buildParameterTree sample_database 1 = Return t
       ∧ tn_raw t ∈ sample_rows ∧ parentNodeId (tn_raw t) = None
       ∧ ∀ n, n ∈ subtrees t →
           tn_raw <$> tn_children n
           ≡ₚ filter (λ r, parentNodeId r = Some (id (tn_raw n))) sample_rows.
Proof.
  eexists. split; first (vm_compute; reflexivity).
  apply (buildParameterTree_children_are_rows sample_database 1).
  - apply (bool_decide_unpack _). vm_compute. exact I.
  - vm_compute. reflexivity.
Defined.

(** When the row ids are distinct, children with the same sibling index
    keep the order in which their rows were loaded. *)
Theorem buildParameterTree_ties_keep_row_order database rootParameterTypeId t :
  let rows := db_treeNodes database rootParameterTypeId in
  NoDup (id <$> rows) →
  buildParameterTree database rootParameterTypeId = Return t →
  ∀ n s, n ∈ subtrees t →
    filter (λ r, siblingIndex r = s) (tn_raw <$> tn_children n)
    = filter (λ r, siblingIndex r = s)
        (filter (λ r, parentNodeId r = Some (id (tn_raw n))) rows).
Proof.
  intros rows Hnd Hbuild n s Hn.
  destruct (buildParameterTree_Return _ _ _ Hbuild)
    as (nodeMap & Hidx & Hindexed & Hlast & Hnodes).
  rewrite (visited_rows _ _ _ Hidx Hnd) in Hnodes.
  destruct (Hnodes n Hn) as (_ & _ & ->).
  by apply stableSort_stable.
Qed.

Lemma buildParameterTree_ties_keep_row_order_witness :
  ∃ t, buildParameterTree tie_database 1 = Return t
       ∧ ∀ n s, n ∈ subtrees t →
           filter (λ r, siblingIndex r = s) (tn_raw <$> tn_children n)
           = filter (λ r, siblingIndex r = s)
               (filter (λ r, parentNodeId r = Some (id (tn_raw n))) tie_rows).
Proof.
  eexists. split; first (vm_compute; reflexivity).
  apply (buildParameterTree_ties_keep_row_order tie_database 1).
  - apply (bool_decide_unpack _). vm_compute. exact I.
  - vm_compute. reflexivity.
Defined.

(** Every node of the returned tree is a loaded row, and its parameter type
    is the last loaded type row whose id is the row's parameter type id. *)
Theorem buildParameterTree_node_types database rootParameterTypeId t :
  buildParameterTree database rootParameterTypeId = Return t →
  ∀ n, n ∈ subtrees t →
    tn_raw n ∈ db_treeNodes database rootParameterTypeId
    ∧ last (filter (λ ty, pt_id ty = parameterTypeId (tn_raw n))
                   (db_parameterTypes database))
      = Some (tn_parameterType n).
Proof.
  intros Hbuild n Hn.
  destruct (buildParameterTree_Return _ _ _ Hbuild)
    as (nodeMap & Hidx & Hindexed & Hlast & Hnodes).
  destruct (Hnodes n Hn) as (Hvisited & Hty & _).
  split; first by eapply visited_all.
  by rewrite <- loadParameterTypes_lookup.
Qed.

Lemma buildParameterTree_node_types_witness :
  ∃ t, buildParameterTree sample_database 1 = Return t
       ∧ ∀ n, n ∈ subtrees t →
           tn_raw n ∈ sample_rows
           ∧ last (filter (λ ty, pt_id ty = parameterTypeId (tn_raw n)) sample_types)
             = Some (tn_parameterType n).
Proof.
  eexists. split; first (vm_compute; reflexivity).
  apply (buildParameterTree_node_types sample_database 1).
  vm_compute. reflexivity.
Defined.

Lemma subtrees_trans t n m : n ∈ subtrees t → m ∈ subtrees n → m ∈ subtrees t.
Proof.
  revert n m. induction t as [raw ty kids IH] using TreeNode_induction.
  intros n m Hn Hm. rewrite subtrees_unfold in Hn. simpl in Hn.
  apply elem_of_cons in Hn as [->|Hn]; first done.
  apply elem_of_flat_map in Hn as (kid & Hkid & Hn).
  rewrite Forall_forall in IH.
  eapply subtrees_child; [exact Hkid | by eapply IH].
Qed.

Lemma under_trans rows o p d : under rows o p → under rows p d → under rows o d.
Proof.
  intros Hop Hpd. induction Hpd as [|d q Hd Hq _ IH]; first done.
  by eapply under_child.
Qed.

(** Every node of a tree whose edges are parent links of rows is below the
    root of the tree. *)
Lemma subtrees_under rows t :
  (∀ n kid, n ∈ subtrees t → kid ∈ tn_children n →
            tn_raw kid ∈ rows ∧ parentNodeId (tn_raw kid) = Some (id (tn_raw n))) →
  ∀ n, n ∈ subtrees t → under rows (id (tn_raw t)) (id (tn_raw n)).
Proof.
  induction t as [raw ty kids IH] using TreeNode_induction.
  intros Hedges n Hn. rewrite subtrees_unfold in Hn. simpl in Hn.
  apply elem_of_cons in Hn as [->|Hn]; first constructor.
  apply elem_of_flat_map in Hn as (kid & Hkid & Hn).
  rewrite Forall_forall in IH.
  apply (under_trans _ _ (id (tn_raw kid))).
  - destruct (Hedges (mkTreeNode raw ty kids) kid) as [Hrow Hp];
      [apply subtrees_self | done |].
    by apply (under_child _ _ (tn_raw kid) (id raw)); [| |constructor].
  - apply (IH kid Hkid); last done.
    intros n' kid' Hn' Hkid'. apply Hedges; last done.
    by eapply subtrees_child.
Qed.

(** The nodes of the returned tree are the rows from which parent ids lead
    to the root: no such row is left out, and no other row is in the tree. *)
Theorem buildParameterTree_nodes_connected database rootParameterTypeId t :
  let rows := db_treeNodes database rootParameterTypeId in
  NoDup (id <$> rows) →
  buildParameterTree database rootParameterTypeId = Return t →
  ∀ r, r ∈ nodesOf t ↔ r ∈ rows ∧ under rows (id (tn_raw t)) (id r).
Proof.
  intros rows Hnd Hbuild.
  destruct (buildParameterTree_Return _ _ _ Hbuild)
    as (nodeMap & Hidx & Hindexed & Hlast & Hnodes).
  rewrite (visited_rows _ _ _ Hidx Hnd) in Hlast, Hnodes. fold rows in Hnodes.
  assert (∀ n kid, n ∈ subtrees t → kid ∈ tn_children n →
            tn_raw kid ∈ rows ∧ parentNodeId (tn_raw kid) = Some (id (tn_raw n)))
    as Hedges.
  { intros n kid Hn Hkid. destruct (Hnodes n Hn) as (_ & _ & Hkids).
    assert (tn_raw kid ∈ stableSort siblingOrder (childrenOf (id (tn_raw n)) rows))
      as Hin by (rewrite <- Hkids; by apply list_elem_of_fmap_2).
    rewrite elem_of_sorted_children in Hin.
    apply list_elem_of_filter in Hin. tauto. }
  assert (∀ d, under rows (id (tn_raw t)) d →
               ∃ n, n ∈ subtrees t ∧ id (tn_raw n) = d) as Hdown.
  { intros d Hunder. induction Hunder as [|d p Hd Hp _ (n & Hn & Hid)].
    - exists t. split; [apply subtrees_self | done].
    - destruct (Hnodes n Hn) as (_ & _ & Hkids).
      assert (d ∈ tn_raw <$> tn_children n) as (kid & -> & Hkid)%list_elem_of_fmap.
      { rewrite Hkids, elem_of_sorted_children.
        apply list_elem_of_filter. split; [congruence | done]. }
      exists kid. split; last done.
      eapply subtrees_trans; first exact Hn.
      eapply subtrees_child; [exact Hkid | apply subtrees_self]. }
  intros r. rewrite nodesOf_subtrees. split.
  - intros (n & -> & Hn)%list_elem_of_fmap.
    split; first by destruct (Hnodes n Hn).
    by apply subtrees_under.
  - intros [Hr (n & Hn & Hid)%Hdown].
    assert (tn_raw n = r) as <-.
    { apply (NoDup_fmap_eq id rows); [done | by destruct (Hnodes n Hn) | done | done]. }
    by apply list_elem_of_fmap_2.
Qed.

Lemma buildParameterTree_nodes_connected_witness :
  ∃ t, buildParameterTree orphan_database 1 = Return t
       ∧ ∀ r, r ∈ nodesOf t ↔ r ∈ orphan_rows ∧ under orphan_rows (id (tn_raw t)) (id r).
Proof.
  eexists. split; first (vm_compute; reflexivity).
  apply (buildParameterTree_nodes_connected orphan_database 1).
  - apply (bool_decide_unpack _). vm_compute. exact I.
  - vm_compute. reflexivity.
Defined.

End tree_more.

Section tree_no_repetition.
Import ReadParameterTree TreeInvariants TreeShape Examples.

Implicit Types (t : TreeNode) (n : RawNode) (rest pre : list Z).

Section with_linked.
Context (keys : list Z) (cells : gmap Z Cell) (Hlinked : linked keys cells).
Context (Hsiblings : ∀ k cell, cells !! k = Some cell →
                               NoDup (id <$> cell_children cell)).

(** Parent ids are followed in one way only: two paths to a node without
    parent that begin at the same key are the same path. *)
Lemma chain_unique (l1 l2 : list Z) :
  chain cells l1 → chain cells l2 → l1 ≠ [] → head l1 = head l2 → l1 = l2.
Proof.
  revert l2. induction l1 as [|k r1 IH]; intros l2 H1 H2 Hne Hhead; first done.
  destruct l2 as [|k' r2]; first done.
  injection Hhead as <-. f_equal.
  simpl in H1, H2. destruct r1 as [|p r1'], r2 as [|p' r2'].
  - done.
  - destruct H2 as [H2 _]. congruence.
  - destruct H1 as [H1 _]. congruence.
  - destruct H1 as [H1 Hc1], H2 as [H2 Hc2].
    apply IH; [done | done | done |]. simpl. congruence.
Qed.

Lemma head_app_cons {A} (l : list A) (x : A) (k : list A) :
  head (l ++ x :: k) = head (l ++ [x]).
Proof. by destruct l. Qed.

Lemma hangs_child_parent t kid :
  hangs cells t → kid ∈ tn_children t →
  parentOf cells (id (tn_raw kid)) = Some (Some (id (tn_raw t))).
Proof.
  intros [(cell & Hcell & _ & _ & Hkids) _]%hangs_unfold Hkid.
  assert (tn_raw kid ∈ cell_children cell) as Hchild.
  { apply elem_of_sorted_children. rewrite <- Hkids. by apply list_elem_of_fmap_2. }
  apply (linked_child _ _ Hlinked _ _ _ Hcell) in Hchild
    as [Hp (cell' & Hcell' & Hraw')].
  unfold parentOf. rewrite Hcell'. simpl. by rewrite Hraw', Hp.
Qed.

(** From every node of a tree a path of parent ids leads to the root of the
    tree, and on along the path from that root. *)
Lemma hangs_chain t rest n :
  hangs cells t → chain cells (id (tn_raw t) :: rest) → n ∈ nodesOf t →
  ∃ pre, head (pre ++ [id (tn_raw t)]) = Some (id n)
         ∧ chain cells (pre ++ id (tn_raw t) :: rest).
Proof.
  revert rest n. induction t as [raw ty kids IH] using TreeNode_induction.
  intros rest n Hhangs Hchain. rewrite nodesOf_unfold. simpl tn_raw. simpl tn_children.
  intros [->|Hn]%elem_of_cons; first by exists [].
  apply elem_of_flat_map in Hn as (kid & Hkid & Hn).
  pose proof (hangs_child_parent _ kid Hhangs Hkid) as Hparent.
  apply hangs_unfold in Hhangs as [_ Hall]. simpl in Hall, Hparent, Hchain.
  rewrite Forall_forall in IH, Hall.
  destruct (IH kid Hkid (id raw :: rest) n) as (pre & Hhead & Hpre);
    [by apply Hall | by split | done |].
  exists (pre ++ [id (tn_raw kid)]). split.
  - rewrite <- app_assoc. simpl. by rewrite head_app_cons.
  - by rewrite <- app_assoc.
Qed.

Lemma NoDup_flat_nodes (kids : list TreeNode) :
  NoDup ((λ kid, id (tn_raw kid)) <$> kids) →
  (∀ kid, kid ∈ kids → NoDup (id <$> nodesOf kid)) →
  (∀ kid1 kid2 n1 n2, kid1 ∈ kids → kid2 ∈ kids →
     n1 ∈ nodesOf kid1 → n2 ∈ nodesOf kid2 → id n1 = id n2 →
     id (tn_raw kid1) = id (tn_raw kid2)) →
  NoDup (id <$> flat_map nodesOf kids).
Proof.
  induction kids as [|kid kids IH]; intros Hkids Heach Hcross; first constructor.
  rewrite fmap_cons in Hkids. apply NoDup_cons in Hkids as [Hkid Hkids].
  simpl. rewrite fmap_app. apply NoDup_app. split; [|split].
  - apply Heach. by left.
  - intros x (n1 & -> & Hn1)%list_elem_of_fmap (n2 & Hid & Hn2)%list_elem_of_fmap.
    apply elem_of_flat_map in Hn2 as (kid2 & Hkid2 & Hn2).
    apply Hkid. rewrite (Hcross kid kid2 n1 n2); [|by left|by right|done|done|done].
    by apply (list_elem_of_fmap_2 (λ kid, id (tn_raw kid))).
  - apply IH; first done.
    + intros kid' Hkid'. apply Heach. by right.
    + intros kid1 kid2 n1 n2 H1 H2. apply Hcross; by right.
Qed.

Lemma hangs_NoDup t rest :
  hangs cells t → chain cells (id (tn_raw t) :: rest) → NoDup (id <$> nodesOf t).
Proof.
  revert rest. induction t as [raw ty kids IH] using TreeNode_induction.
  intros rest Hhangs Hchain. rewrite nodesOf_unfold, fmap_cons.
  simpl tn_raw in *. simpl tn_children.
  assert (∀ kid, kid ∈ kids → chain cells (id (tn_raw kid) :: id raw :: rest)) as Hkidchain.
  { intros kid Hkid. split; last done.
    by apply (hangs_child_parent _ kid Hhangs). }
  pose proof Hhangs as [(cell & Hcell & _ & _ & Hkids) Hall]%hangs_unfold.
  simpl in Hkids, Hall. rewrite Forall_forall in IH, Hall.
  apply NoDup_cons. split.
  - intros (n & Hid & Hn)%list_elem_of_fmap.
    apply elem_of_flat_map in Hn as (kid & Hkid & Hn).
    destruct (hangs_chain kid (id raw :: rest) n) as (pre & Hhead & Hpre);
      [by apply Hall | by apply Hkidchain | done |].
    assert (pre ++ id (tn_raw kid) :: id raw :: rest = id raw :: rest) as Heq.
    { apply chain_unique; [done | done | by destruct pre |].
      rewrite head_app_cons, Hhead. simpl. by rewrite Hid. }
    apply (f_equal length) in Heq. rewrite length_app in Heq. simpl in Heq. lia.
  - apply NoDup_flat_nodes.
    + rewrite (list_fmap_compose tn_raw id), Hkids, stableSort_Permutation.
      by eapply Hsiblings.
    + intros kid Hkid. apply (IH kid Hkid (id raw :: rest)); [by apply Hall | by apply Hkidchain].
    + intros kid1 kid2 n1 n2 Hkid1 Hkid2 Hn1 Hn2 Hid.
      destruct (hangs_chain kid1 (id raw :: rest) n1) as (pre1 & Hhead1 & Hpre1);
        [by apply Hall | by apply Hkidchain | done |].
      destruct (hangs_chain kid2 (id raw :: rest) n2) as (pre2 & Hhead2 & Hpre2);
        [by apply Hall | by apply Hkidchain | done |].
      assert (pre1 ++ id (tn_raw kid1) :: id raw :: rest
              = pre2 ++ id (tn_raw kid2) :: id raw :: rest) as Heq.
      { apply chain_unique; [done | done | by destruct pre1 |].
        rewrite (head_app_cons pre1), (head_app_cons pre2), Hhead1, Hhead2.
        by rewrite Hid. }
      change (pre1 ++ [id (tn_raw kid1)] ++ id raw :: rest
              = pre2 ++ [id (tn_raw kid2)] ++ id raw :: rest) in Heq.
      rewrite !app_assoc in Heq. apply app_inv_tail in Heq.
      by apply app_inj_tail in Heq as [_ ?].
Qed.

End with_linked.

(** No row is in the returned tree twice: the ids of the nodes of the tree
    are distinct. *)
Theorem buildParameterTree_nodes_distinct (database : TreeSource)
    rootParameterTypeId t :
  buildParameterTree database rootParameterTypeId = Return t →
  NoDup (id <$> nodesOf t).
Proof.
  intros Hbuild.
  destruct (buildParameterTree_spec database rootParameterTypeId)
    as [(r & _ & _ & Heq)
       |(nodeMap & Hidx & Hindexed
         & [[_ Heq]|[(root & t' & Hlast & Heq & Hhangs & Hroot)|(_ & _ & _ & Heq & _)]])];
    try congruence.
  assert (t' = t) as -> by congruence.
  pose proof (linkNodes_linked _ _ _ Hindexed) as Hlinked.
  apply (hangs_NoDup _ _ Hlinked) with (rest := []); last first.
  - simpl. pose proof Hhangs as [(cell & Hcell & Hraw & _) _]%hangs_unfold.
    unfold parentOf. rewrite Hcell. simpl. rewrite Hraw, Hroot.
    by apply lastRoot_Some in Hlast as [_ ->].
  - done.
  - intros k cell (_ & _ & _ & _ & ->)%(linked_lookup _ _ _ Hindexed).
    unfold childrenOf. apply NoDup_fmap_2_strong; last first.
    { apply NoDup_filter. by eapply visited_NoDup. }
    intros a b [_ Ha]%list_elem_of_filter [_ Hb]%list_elem_of_filter Hid.
    apply (NoDup_fmap_eq id (visited nodeMap)); [|done|done|done].
    rewrite (visited_ids _ _ _ Hindexed). apply (indexed_NoDup _ _ _ Hindexed).
Qed.

Lemma buildParameterTree_nodes_distinct_witness :
  ∃ t, buildParameterTree sample_database 1 = Return t ∧ NoDup (id <$> nodesOf t).
Proof.
  eexists. split; first (vm_compute; reflexivity).
  apply (buildParameterTree_nodes_distinct sample_database 1).
  vm_compute. reflexivity.
Defined.

End tree_no_repetition.

Section tree_row_order.
Import ReadParameterTree TreeInvariants TreeShape Examples.

Implicit Types (database : TreeSource) (rows : list RawNode) (t n : TreeNode).

(** A tree is determined by its root row, the type of every row and the
    list of child rows of every id. *)
Lemma tree_unique (types : gmap Z ParameterType) (childRows : Z → list RawNode) t t' :
  (∀ n, n ∈ subtrees t →
        types !! parameterTypeId (tn_raw n) = Some (tn_parameterType n)
        ∧ tn_raw <$> tn_children n = childRows (id (tn_raw n))) →
  (∀ n, n ∈ subtrees t' →
        types !! parameterTypeId (tn_raw n) = Some (tn_parameterType n)
        ∧ tn_raw <$> tn_children n = childRows (id (tn_raw n))) →
  tn_raw t = tn_raw t' → t = t'.
Proof.
  revert t'. induction t as [raw ty kids IH] using TreeNode_induction.
  intros [raw' ty' kids'] Ht Ht' Hraw. simpl in Hraw. subst raw'.
  destruct (Ht _ (subtrees_self _)) as [Hty Hkids].
  destruct (Ht' _ (subtrees_self _)) as [Hty' Hkids'].
  simpl in Hty, Hkids, Hty', Hkids'.
  assert (ty' = ty) as -> by congruence.
  f_equal. rewrite <- Hkids' in Hkids. clear Hkids' Hty Hty'.
  assert (∀ kid n, kid ∈ kids → n ∈ subtrees kid →
            types !! parameterTypeId (tn_raw n) = Some (tn_parameterType n)
            ∧ tn_raw <$> tn_children n = childRows (id (tn_raw n))) as Hsub.
  { intros kid n Hkid Hn. apply Ht. by eapply subtrees_child. }
  assert (∀ kid n, kid ∈ kids' → n ∈ subtrees kid →
            types !! parameterTypeId (tn_raw n) = Some (tn_parameterType n)
            ∧ tn_raw <$> tn_children n = childRows (id (tn_raw n))) as Hsub'.
  { intros kid n Hkid Hn. apply Ht'. by eapply subtrees_child. }
  clear Ht Ht'. revert kids' Hkids Hsub'.
  induction IH as [|kid kids Hkid _ IHkids]; intros kids' Hkids Hsub'.
  - by destruct kids'.
  - destruct kids' as [|kid' kids']; first done.
    rewrite !fmap_cons in Hkids. injection Hkids as Hraw Hrest.
    f_equal.
    + apply Hkid; [|intros n Hn; apply (Hsub' kid'); [by left | done]|done].
      intros n Hn. apply (Hsub kid); [by left | done].
    + apply IHkids; [|done|].
      * intros k n Hk Hn. apply (Hsub k); [by right | done].
      * intros k n Hk Hn. apply (Hsub' k); [by right | done].
Qed.

(** The order in which the rows are loaded does not matter when at most one
    row has no parent id and no two rows with the same parent id share a
    sibling index: the same rows in another order give the same tree. *)
Theorem buildParameterTree_row_order database database' rootParameterTypeId t :
  let rows := db_treeNodes database rootParameterTypeId in
  db_parameterTypes database' = db_parameterTypes database →
  db_treeNodes database' rootParameterTypeId ≡ₚ rows →
  NoDup (id <$> rows) →
  (∀ a b, a ∈ rows → b ∈ rows →
          parentNodeId a = None → parentNodeId b = None → a = b) →
  (∀ a b, a ∈ rows → b ∈ rows →
          parentNodeId a = parentNodeId b → siblingIndex a = siblingIndex b → a = b) →
  buildParameterTree database rootParameterTypeId = Return t →
  buildParameterTree database' rootParameterTypeId = Return t.
Proof.
  intros rows Htypes Hperm Hnd Hroot Hsib Hbuild.
  destruct (buildParameterTree_Return _ _ _ Hbuild)
    as (nodeMap & Hidx & Hindexed & Hlast & Hnodes).
  pose proof (buildParameterTree_comparable _ _ _ Hbuild) as Hsortable.
  rewrite (visited_rows _ _ _ Hidx Hnd) in Hlast, Hnodes. fold rows in Hlast, Hnodes.
  assert (NoDup (id <$> db_treeNodes database' rootParameterTypeId)) as Hnd'
    by by rewrite Hperm.
  destruct (buildParameterTree_spec database' rootParameterTypeId)
    as [(r & Hr & Hnone & _)|(nodeMap' & Hidx' & Hindexed' & _)].
  { rewrite Htypes in Hnone. rewrite Hperm in Hr.
    destruct (indexNodes_Return_types _ _ _ _ Hidx r Hr). congruence. }
  pose proof (visited_rows _ _ _ Hidx' Hnd') as Hvisited'.
  assert (lastRoot (visited nodeMap') = Some (tn_raw t)) as Hlast'.
  { rewrite Hvisited'. apply lastRoot_Some in Hlast as [Hin Hp].
    destruct (lastRoot (db_treeNodes database' rootParameterTypeId))
      as [root'|] eqn:Hlast'.
    - f_equal. apply lastRoot_Some in Hlast' as [Hin' Hp'].
      apply Hroot; [by rewrite <- Hperm | done | done | done].
    - rewrite lastRoot_None in Hlast'.
      destruct (Hlast' (tn_raw t)); [by rewrite Hperm | done]. }
  pose proof (buildParameterTree_not_Stuck database' rootParameterTypeId) as Hstuck.
  rewrite (buildParameterTree_sortChildren _ _ _ _ Hidx' Hlast') in Hstuck |- *.
  destruct (hangs_sortChildren (linkNodes nodeMap').2
              (length (nm_keys nodeMap')) t) as [Hret|Hret]; [|done|done|done].
  apply hangs_intro. intros n Hn.
  destruct (Hnodes n Hn) as (Hrow & Hty & Hkids).
  assert (tn_raw n ∈ visited nodeMap') as Hrow' by by rewrite Hvisited', Hperm.
  apply (visited_cell _ _ _ Hindexed') in Hrow' as (cell0 & Hcell0 & Hraw0).
  destruct (linkNodes_spec nodeMap') as [_ Hcells].
  eexists. split; first by rewrite Hcells, Hcell0.
  apply (indexed_cell _ _ _ Hindexed') in Hcell0 as (_ & Hnil & _ & Hty0).
  simpl. split; first done. split.
  - rewrite Htypes, Hraw0 in Hty0. congruence.
  - rewrite Hnil, Hvisited', Hkids. simpl.
    apply (StronglySorted_unique_strong
             (λ a b : RawNode, siblingIndex a ≤ siblingIndex b)).
    + intros a b Ha Hb Hab Hba.
      rewrite elem_of_sorted_children in Ha. rewrite elem_of_sorted_children in Hb.
      apply list_elem_of_filter in Ha as [Hpa Ha].
      apply list_elem_of_filter in Hb as [Hpb Hb].
      apply Hsib; [done | by rewrite <- Hperm | congruence | lia].
    + by apply (stableSort_sorted siblingOrder siblingIndex).
    + by apply (stableSort_sorted siblingOrder siblingIndex).
    + rewrite !stableSort_Permutation. unfold childrenOf. by rewrite Hperm.
Qed.

Lemma buildParameterTree_row_order_witness :
  ∃ t, buildParameterTree sample_database 1 = Return t
       ∧ buildParameterTree shuffled_database 1 = Return t.
Proof.
  eexists. split; first (vm_compute; reflexivity).
  apply (buildParameterTree_row_order sample_database shuffled_database 1).
  - reflexivity.
  - apply NoDup_Permutation.
    + apply (NoDup_fmap_1 id). apply (bool_decide_unpack _). vm_compute. exact I.
    + apply (NoDup_fmap_1 id). apply (bool_decide_unpack _). vm_compute. exact I.
    + intros r. simpl. unfold sample_rows.
      rewrite !elem_of_cons, !elem_of_nil. tauto.
  - apply (bool_decide_unpack _). vm_compute. exact I.
  - intros a b Ha Hb. simpl in Ha, Hb. unfold sample_rows in Ha, Hb.
    repeat (apply elem_of_cons in Ha as [->|Ha]);
      try (by apply elem_of_nil in Ha);
      repeat (apply elem_of_cons in Hb as [->|Hb]);
      try (by apply elem_of_nil in Hb);
      vm_compute; congruence.
  - intros a b Ha Hb. simpl in Ha, Hb. unfold sample_rows in Ha, Hb.
    repeat (apply elem_of_cons in Ha as [->|Ha]);
      try (by apply elem_of_nil in Ha);
      repeat (apply elem_of_cons in Hb as [->|Hb]);
      try (by apply elem_of_nil in Hb);
      vm_compute; congruence.
  - vm_compute. reflexivity.
Defined.

End tree_row_order.

Section tree_errors.
Import ReadParameterTree TreeInvariants Examples.

(** The error for an unknown parameter type names the first row, in the
    order in which the rows are loaded, whose type is not in the registry,
    whatever the rest of the rows is. *)
Theorem buildParameterTree_first_unknown_type (database : TreeSource)
    rootParameterTypeId before r after :
  db_treeNodes database rootParameterTypeId = before ++ r :: after →
  (∀ r', r' ∈ before →
         parameterTypeId r' ∈ pt_id <$> db_parameterTypes database) →
  parameterTypeId r ∉ pt_id <$> db_parameterTypes database →
  buildParameterTree database rootParameterTypeId
  = Throw (UnknownTypeError (parameterTypeId r) (id r)).
Proof.
  intros Hrows Hbefore Hr. unfold buildParameterTree. rewrite Hrows.
  assert (∀ nodeMap,
            indexNodes (loadParameterTypes (db_parameterTypes database))
                       (before ++ r :: after) nodeMap
            = Throw (UnknownTypeError (parameterTypeId r) (id r))) as ->; last done.
  clear Hrows. induction before as [|r0 before IH]; intros nodeMap; simpl.
  - apply loadParameterTypes_None in Hr. by rewrite Hr.
  - destruct (loadParameterTypes _ !! parameterTypeId r0) eqn:Hr0.
    + apply IH. intros r' Hr'. apply Hbefore. by right.
    + apply loadParameterTypes_None in Hr0. destruct Hr0. apply Hbefore. by left.
Qed.

Lemma buildParameterTree_first_unknown_type_witness :
  buildParameterTree unknown_type_database 1 = Throw (UnknownTypeError 8 2).
Proof.
  apply (buildParameterTree_first_unknown_type unknown_type_database 1
           [rawNode 1 1 None 0] (rawNode 2 8 (Some 1) 0) []).
  - reflexivity.
  - intros r' Hr'. apply list_elem_of_singleton in Hr' as ->.
    apply (bool_decide_unpack _). vm_compute. exact I.
  - apply (bool_decide_unpack _). vm_compute. exact I.
Defined.

End tree_errors.

(** ** readParameterData.ts *)

Section readParameterData_more.
Import ReadParameterTree TreeShape Types ReadParameterData FindParameter Examples.

Implicit Types (dataMap : gmap Z RawDataRow) (row : RawDataRow).


(** The 64-bit column of [full_row] holds 2^53 + 1, which arrives as a
    BigInt and is the value for the code 9; the 32-bit column holds the
    number 1. *)
Example extractValue_bigint :
  extractValue DATA_TYPE_INT64 Examples.full_row = Return (Some (VBigInt (2 ^ 53 + 1)))
  ∧ extractValue DATA_TYPE_INT32 Examples.full_row
    = Return (Some (VNumber (S754_finite false 4503599627370496 (-52)))).
Proof. split; vm_compute; reflexivity. Qed.

(** The integer codes: codes 1 and 2 read the 32-bit column only, code 9
    reads the 64-bit column only, and code 7 reads the 64-bit column and
    falls back to the 32-bit column when that is null; the column is
    returned as it is, a number or a BigInt. *)
Theorem extractValue_integer row :
  extractValue DATA_TYPE_INT32_SINGLE row = Return (integerValue <$> dataInt32 row)
  ∧ extractValue DATA_TYPE_INT32 row = Return (integerValue <$> dataInt32 row)
  ∧ extractValue DATA_TYPE_INT64 row = Return (integerValue <$> dataInt64 row)
  ∧ extractValue DATA_TYPE_INT64_SINGLE row
    = Return (integerValue <$> match dataInt64 row with
                          | Some n => Some n
                          | None => dataInt32 row
                          end).
Proof.
  unfold extractValue, nullish. simpl.
  repeat split; by destruct (dataInt64 row), (dataInt32 row).
Qed.

(** The blob code: a row with a blob gives the decoded array as value, also
    when the blob has no marker and the array is empty; a row without blob
    gives no value. *)
Theorem extractValue_blob row :
  match dataBlob row with
  | Some blob =>
      ∃ data, DecodeBlob.decodeBlob blob = Return data
              ∧ extractValue DATA_TYPE_BLOB_ARRAY row = Return (Some (VFloat64Array data))
  | None => extractValue DATA_TYPE_BLOB_ARRAY row = Return None
  end.
Proof.
  unfold extractValue. simpl.
  destruct (dataBlob row) as [blob|]; last done.
  destruct (decodeBlob_outcome blob) as [[_ ->]|[_ ->]]; by eexists.
Qed.

Lemma Forall2_flat_map {A B C D} (R : C → D → Prop) (f : A → list C) (g : B → list D)
    (l : list A) (k : list B) :
  Forall2 (λ x y, Forall2 R (f x) (g y)) l k →
  Forall2 R (flat_map f l) (flat_map g k).
Proof.
  induction 1 as [|x y l k Hxy _ IH]; simpl; first constructor.
  by apply Forall2_app.
Qed.

(** [convertNode] returns for every tree, and the parameter tree mirrors
    the node tree: in pre-order the two have the same number of nodes, and
    every parameter has the name and urn of the type of its node, the value
    that [extractValue] gives for the data row of the node (none without
    a row), as many children as the node, and no [children] field exactly
    when the node has no children. *)
Theorem convertNode_mirrors dataMap (t : TreeNode) :
  ∃ p, convertNode dataMap t = Return p
       ∧ Forall2
           (λ (n : TreeNode) (q : ZmesParameter),
              name q = default "" (pt_friendlyName (tn_parameterType n))
              ∧ urn q = default "" (pt_urn (tn_parameterType n))
              ∧ match dataMap !! id (tn_raw n) with
                | Some dataRow =>
                    extractValue (pt_dataType (tn_parameterType n)) dataRow
                | None => Return None
                end = Return (value q)
              ∧ (children q = None ↔ tn_children n = [])
              ∧ length (default [] (children q)) = length (tn_children n))
           (subtrees t) (preOrder p).
Proof.
  induction t as [raw ty kids IH] using TreeNode_induction.
  rewrite subtrees_unfold, convertNode_unfold.
  cbn [tn_raw tn_parameterType tn_children].
  assert (∃ v, match dataMap !! id raw with
               | Some dataRow => extractValue (pt_dataType ty) dataRow
               | None => Return None
               end = Return v) as [v Hv].
  { destruct (dataMap !! id raw); [apply extractValue_returns | by eexists]. }
  rewrite Hv. cbn [mbind outcome_mbind outcome_bind].
  assert (∃ ps, mapO (convertNode dataMap) kids = Return ps
                ∧ Forall2 (λ kid pk,
                     Forall2
                       (λ (n : TreeNode) (q : ZmesParameter),
                          name q = default "" (pt_friendlyName (tn_parameterType n))
                          ∧ urn q = default "" (pt_urn (tn_parameterType n))
                          ∧ match dataMap !! id (tn_raw n) with
                            | Some dataRow =>
                                extractValue (pt_dataType (tn_parameterType n)) dataRow
                            | None => Return None
                            end = Return (value q)
                          ∧ (children q = None ↔ tn_children n = [])
                          ∧ length (default [] (children q)) = length (tn_children n))
                       (subtrees kid) (preOrder pk)) kids ps) as (ps & Hps & Hall).
  { clear Hv. induction IH as [|kid kids (pk & Hpk & Hkid) _ (ps & Hps & Hall)].
    - exists []. split; [done | constructor].
    - exists (pk :: ps). simpl. rewrite Hpk, Hps. split; first done.
      by constructor. }
  pose proof (Forall2_length _ _ _ Hall) as Hlen.
  destruct kids as [|kid kids].
  - eexists. split; first done.
    rewrite preOrder_unfold. simpl. constructor; last constructor.
    by repeat split.
  - rewrite Hps. cbn [fmap outcome_fmap mbind outcome_mbind outcome_bind].
    eexists. split; first done.
    rewrite preOrder_unfold. cbn [children name urn value].
    constructor.
    + cbn [tn_raw tn_parameterType tn_children name urn value children].
      repeat split; (done || (simpl; simpl in Hlen; lia)).
    + by apply Forall2_flat_map.
Qed.

(** The data map of a record holds, at a node id, the last row of the first
    query with that node id, with the blob of the last row of the second
    query with that node id, and nothing when no row of the first query has
    that node id. *)
Theorem loadDataMap_lookup (database : DataSource) (recordId k : Z) :
  loadDataMap database recordId !! k
  = (λ raw, {| parameterTreeNodeId := parameterTreeNodeId raw;
               row_parameterTypeId := row_parameterTypeId raw;
               dataBlob :=
                 blob_dataBlob
                   <$> last (filter (λ blobRow, blob_parameterTreeNodeId blobRow = k)
                                    (db_parameterBlobs database recordId));
               dataBoolean := dataBoolean raw;
               dataDouble := dataDouble raw;
               dataInt32 := dataInt32 raw;
               dataInt64 := dataInt64 raw;
               dataSingle := dataSingle raw;
               dataText := dataText raw |})
    <$> last (filter (λ raw, parameterTreeNodeId raw = k)
                     (db_parameterData database recordId)).
Proof.
  unfold loadDataMap. cbv zeta.
  rewrite (foldl_insert_lookup parameterTreeNodeId
    (λ raw, {| parameterTreeNodeId := parameterTreeNodeId raw;
               row_parameterTypeId := row_parameterTypeId raw;
               dataBlob :=
                 foldl (λ blobMap blobRow,
                          <[blob_parameterTreeNodeId blobRow := blob_dataBlob blobRow]> blobMap)
                       ∅ (db_parameterBlobs database recordId)
                   !! parameterTreeNodeId raw ?? None;
               dataBoolean := dataBoolean raw;
               dataDouble := dataDouble raw;
               dataInt32 := dataInt32 raw;
               dataInt64 := dataInt64 raw;
               dataSingle := dataSingle raw;
               dataText := dataText raw |})).
  rewrite lookup_empty.
  destruct (last (filter _ (db_parameterData database recordId))) as [raw|] eqn:Hlast;
    last done.
  simpl. do 2 f_equal.
  apply last_Some_elem_of, list_elem_of_filter in Hlast as [-> _].
  rewrite (foldl_insert_lookup blob_parameterTreeNodeId blob_dataBlob), lookup_empty.
  by destruct (last _).
Qed.

End readParameterData_more.

(** ** toMeasurementXY.ts *)


Section foldl_set.
Context {A V : Type} (key : A → string) (val : A → option V).



End foldl_set.

Section toMeasurementXY_more.
Import Types FindParameter ToMeasurementXY ProjectionShape Examples.

Implicit Types (parameters : ZmesParameter) (record : ZmesRecord).






End toMeasurementXY_more.

Section settings_meta.
Import Types FindParameter ToMeasurementXY Examples.

Implicit Types (parameters : ZmesParameter).



(** The run duration of the sample tree is a string and is left out; the
    detector angle is a number and is kept. *)
Example extractSettings_type_guard :
  settings_numbers (extractSettings settings_parameters) !! "runDuration" = None
  ∧ settings_numbers (extractSettings settings_parameters) !! "detectorAngle"
    = Some (S754_finite false 6086975121367040 (-45)).
Proof. split; vm_compute; reflexivity. Qed.







(** The operator name of the sample tree sits below the root's child and
    is not taken; Repeat is a direct child and is. *)
Example extractMeta_top_level_only :
  extractMeta settings_parameters !! "operatorName" = None
  ∧ extractMeta settings_parameters !! "repeat"
    = Some (VNumber (S754_finite false 4503599627370496 (-52))).
Proof. split; vm_compute; reflexivity. Qed.

End settings_meta.

Section records_more.
Import ReadParameterTree Types ReadParameterData ToMeasurementXY Parse Examples.

Lemma projectRecord_id (record : ZmesRecord) :
  measurement_id <$> projectRecord [] record
  = if decide (is_Some (buildVariables (parameters record)))
    then [guid record] else [].
Proof.
  unfold projectRecord.
  destruct (buildVariables _) as [vars|]; case_decide as Hsome; simpl; try done.
  - destruct Hsome. by eexists.
Qed.

(** The measurements are in the order of the records, one for every record
    that has the two mandatory arrays and none for the others; the id of a
    measurement is the guid of its record, and its data type is always
    Size measurement. *)
Theorem toMeasurementXY_ids (zmesFile : ZmesFile) :
  measurement_id <$> toMeasurementXY zmesFile
  = guid <$> filter (λ record, is_Some (buildVariables (parameters record)))
                    (records zmesFile)
  ∧ Forall (λ m, dataType m = "Size measurement") (toMeasurementXY zmesFile).
Proof.
  unfold toMeasurementXY. rewrite foldl_projectRecord. simpl.
  induction (records zmesFile) as [|record l [IHids IHtype]]; first by split.
  simpl. rewrite fmap_app, projectRecord_id, IHids, filter_cons. split.
  - by destruct (decide (is_Some (buildVariables (parameters record)))).
  - apply Forall_app. split; last done.
    unfold projectRecord. destruct (buildVariables _); by repeat constructor.
Qed.

(** The own properties of the metadata object: at a key other than
    [__proto__] the value of the last row of StoreMetadata with that key,
    and nothing when there is no such row; rows with the key [__proto__]
    leave no property. *)
Theorem readStoreMetadata_lookup (database : Database) (k : string) :
  readStoreMetadata database !! k
  = if decide (k = "__proto__") then None
    else snd <$> last (filter (λ row, row.1 = k) (db_storeMetadata database)).
Proof.
  unfold readStoreMetadata.
  assert (∀ (rows : list (string * string)) (metadata : gmap string string),
            foldl (λ metadata row, setProperty row.1 row.2 metadata) metadata rows !! k
            = if decide (k = "__proto__") then metadata !! k
              else match last (filter (λ row, row.1 = k) rows) with
                   | Some row => Some row.2
                   | None => metadata !! k
                   end) as Hgen.
  { induction rows as [|row rows IH]; intros metadata; simpl.
    - by case_decide.
    - rewrite IH, filter_cons. unfold setProperty.
      destruct (decide (k = "__proto__")) as [->|Hk].
      + destruct (decide (row.1 = "__proto__")) as [_|Hne]; first done.
        by rewrite lookup_insert_ne.
      + destruct (decide (row.1 = k)) as [<-|Hne].
        * rewrite last_cons. destruct (last _); first done.
          rewrite decide_False by done. by rewrite lookup_insert_eq.
        * destruct (last _); first done.
          destruct (decide (row.1 = "__proto__")); first done.
          by rewrite lookup_insert_ne. }
  rewrite Hgen, lookup_empty. case_decide; first done.
  by destruct (last _).
Qed.

(** A row with the key [__proto__] is not stored, and the rows around it
    are. *)
Example readStoreMetadata_proto :
  (λ metadata : gmap string string,
     (metadata !! "__proto__", metadata !! "Software", metadata !! "constructor"))
    (readStoreMetadata
       {| db_schemaVersion := None;
          db_storeMetadata := [("Software", "1"); ("__proto__", "x");
                               ("constructor", "y")];
          db_records := [];
          db_tree := Examples.sample_database;
          db_data := db_data Examples.sample_file |})
  = (None, Some "1", Some "y").
Proof. vm_compute. reflexivity. Qed.





(** The sample file end to end: one measurement, with the guid of the
    record and the three doubles of the test blob as x and as y; the schema
    version is 0 and the later of the two metadata rows with the same key
    is kept. *)
Example sample_file_end_to_end :
  (λ zmesFile,
     (schemaVersion zmesFile, metadata zmesFile !! "Software",
      (λ m, (measurement_id m, symbol (var_x (variables m)),
             data (var_x (variables m)), data (var_y (variables m))))
        <$> toMeasurementXY zmesFile))
    <$> parse sample_file
  = Return (0, Some "2",
            [("1c90a5c0", "x",
              [S754_finite false 4503599627370496 (-52);
               S754_finite false 5629499534213120 (-51);
               S754_finite false 7089650975899648 (-46)],
              [S754_finite false 4503599627370496 (-52);
               S754_finite false 5629499534213120 (-51);
               S754_finite false 7089650975899648 (-46)])]).
Proof. vm_compute. reflexivity. Qed.

End records_more.
